(** * Zephyr Edge AI demo: the pipeline and its monitor, embedded in Rocq

    A shallow embedding of the C sources of the gesture-recognition demo:
    the timing helper ([timing.c]), the result ring buffer
    ([ring_buffer.c]), the windowed preprocessor ([preprocessing.c]), the
    debug monitor ([debug_monitor.c]), the inference wrapper
    ([inference.cpp]) and the wake-up semaphore of the main file.

    Conventions.
    - The target is the 32-bit Arm Cortex-M3 named in the README:
      [int], [size_t] and [uint32_t] are 32 bits wide.  A C integer is a
      [Z]; every arithmetic operation that can leave its type is followed
      by the wrap of that type ([wrap32], [wrap64], [to_int8], ...).
    - A C [float] is an IEEE-754 binary32 number, taken from the
      parameterised specification of the Standard Library ([SpecFloat] at
      precision 24 and maximal exponent 128), round to nearest even.
    - File-scope [static] variables of a C file are the fields of one
      state record, threaded explicitly through its functions.  A function
      returns its C result together with the new state (and with the new
      contents of an out-parameter when it has one).
    - A pointer argument that the code tests against [NULL] is an
      [option]: [None] is [NULL].
    - Values read from the kernel (cycle counter, uptime, stack
      introspection) and from TensorFlow Lite Micro are inputs of the
      functions that read them.
    - Locks ([k_mutex_lock]/[k_mutex_unlock]) bracket the whole body of
      each function modelled here, so one call is one atomic step. *)

From Stdlib Require Import ZArith Lia Bool String.
From Stdlib Require Import Floats.SpecFloat.
From stdpp Require Import base list.

Local Open Scope Z_scope.

(* ===================================================================== *)
(** * Machine integers                                                    *)
(* ===================================================================== *)

Definition UINT32_MAX : Z := 4294967295.
Definition INT32_MIN : Z := -2147483648.
Definition INT32_MAX : Z := 2147483647.

(** Result of an operation on [uint32_t] or [size_t]. *)
Definition wrap32 (z : Z) : Z := z mod 2 ^ 32.

(** Result of an operation on [uint64_t]. *)
Definition wrap64 (z : Z) : Z := z mod 2 ^ 64.

(** Conversion to [int] / [int32_t] (two's complement). *)
Definition to_int32 (z : Z) : Z := (z + 2 ^ 31) mod 2 ^ 32 - 2 ^ 31.

(** Conversion to [int8_t] (two's complement). *)
Definition to_int8 (z : Z) : Z := (z + 128) mod 256 - 128.

(** [errno] values of the C library Zephyr is built with. *)
Definition EAGAIN : Z := 11.
Definition EINVAL : Z := 22.
Definition ENOSPC : Z := 28.

(* ===================================================================== *)
(** * IEEE-754 binary32                                                   *)
(* ===================================================================== *)

Module F32.

Definition prec : Z := 24.
Definition emax : Z := 128.

Definition float32 : Type := spec_float.

Definition add : float32 -> float32 -> float32 := SFadd prec emax.
Definition sub : float32 -> float32 -> float32 := SFsub prec emax.
Definition mul : float32 -> float32 -> float32 := SFmul prec emax.
Definition div : float32 -> float32 -> float32 := SFdiv prec emax.

(** [a > b] on floats; false when either is a NaN. *)
Definition gtb (a b : float32) : bool := SFltb b a.

(** Conversion of an integer to [float] (rounds when the integer needs
    more than 24 bits). *)
Definition of_Z (z : Z) : float32 := binary_normalize prec emax z 0 false.

Definition zero : float32 := S754_zero false.

(** The decimal literal [n / 10^k] written with an [f] suffix: the
    binary32 number nearest to it.  Both operands are exact and the
    division rounds correctly, so the quotient is that number. *)
Definition lit (n : Z) (k : Z) : float32 := div (of_Z n) (of_Z (10 ^ k)).

(** Integer part of a finite float, rounding toward zero. *)
Definition trunc (f : float32) : option Z :=
  match f with
  | S754_zero _ => Some 0
  | S754_finite s m e =>
      let mag := if 0 <=? e then Zpos m * 2 ^ e else Zpos m / 2 ^ (- e) in
      Some (if s then - mag else mag)
  | S754_infinity _ | S754_nan => None
  end.

(** [(int32_t)f].  C defines the conversion only when the truncated
    value fits the target type; outside that case the value below is
    the one the Arm run-time helper returns (saturation, and 0 for a
    NaN). *)
Definition to_int32 (f : float32) : Z :=
  match f with
  | S754_nan => 0
  | S754_infinity s => if s then INT32_MIN else INT32_MAX
  | _ =>
      match trunc f with
      | Some z => Z.max INT32_MIN (Z.min INT32_MAX z)
      | None => 0
      end
  end.

End F32.

Abbreviation float32 := F32.float32.

(* ===================================================================== *)
(** * timing.c                                                            *)
(* ===================================================================== *)

Record timing_state := {
  cycles_per_us : Z;
  timing_initialized : bool
}.

(** The file's statics before any call. *)
Definition timing_boot : timing_state :=
  {| cycles_per_us := 0; timing_initialized := false |}.

(** [profile_timing_init]; [freq] is [sys_clock_hw_cycles_per_sec()]. *)
Definition profile_timing_init (freq : Z) (st : timing_state) : timing_state :=
  if timing_initialized st then st
  else
    let cpu := wrap32 freq / 1000000 in
    {| cycles_per_us := if cpu =? 0 then 1 else cpu;
       timing_initialized := true |}.

(** [profile_timing_start]; [k_cycle_get_32] is the counter as read. *)
Definition profile_timing_start (k_cycle_get_32 : Z) : Z := k_cycle_get_32.

(** The local [elapsed_cycles] of [profile_timing_end]. *)
Definition elapsed_cycles (end_cycles start_cycles : Z) : Z :=
  if start_cycles <=? end_cycles then
    wrap32 (end_cycles - start_cycles)
  else
    wrap32 (wrap32 (wrap32 (UINT32_MAX - start_cycles) + end_cycles) + 1).

(** [profile_timing_end]; [k_cycle_get_32] is the counter read on entry. *)
Definition profile_timing_end (st : timing_state) (k_cycle_get_32 : Z)
    (start_cycles : Z) : Z :=
  let end_cycles := k_cycle_get_32 in
  let elapsed := elapsed_cycles end_cycles start_cycles in
  if 0 <? cycles_per_us st then elapsed / cycles_per_us st
  else elapsed.

(* ===================================================================== *)
(** * inference.h: the result record                                      *)
(* ===================================================================== *)

Inductive gesture_label_t :=
  | GESTURE_IDLE
  | GESTURE_WAVE
  | GESTURE_TAP
  | GESTURE_CIRCLE.

(** [GESTURE_COUNT], the enumerator after the last label. *)
Definition GESTURE_COUNT : Z := 4.

Definition gesture_of_index (i : nat) : gesture_label_t :=
  match i with
  | O => GESTURE_IDLE
  | 1%nat => GESTURE_WAVE
  | 2%nat => GESTURE_TAP
  | _ => GESTURE_CIRCLE
  end.

Record inference_result_t := {
  gesture : gesture_label_t;
  confidence : float32;
  class_scores : list float32;      (* float class_scores[GESTURE_COUNT] *)
  inference_time_us : Z;
  timestamp_us : Z;
  sequence : Z
}.

(** An [inference_result_t] of all-zero bytes, as [memset] leaves it. *)
Definition zero_result : inference_result_t :=
  {| gesture := GESTURE_IDLE;
     confidence := F32.zero;
     class_scores := replicate 4 F32.zero;
     inference_time_us := 0;
     timestamp_us := 0;
     sequence := 0 |}.

(* ===================================================================== *)
(** * ring_buffer.c                                                       *)
(* ===================================================================== *)

(** The default of [CONFIG_OUTPUT_RING_BUFFER_SIZE].  The functions below
    take the configured value as their first argument [CAP]. *)
Definition CONFIG_OUTPUT_RING_BUFFER_SIZE : Z := 16.

Record ring_state := {
  buffer : list inference_result_t;   (* buffer[CAP] *)
  head : Z;
  tail : Z;
  count : Z
}.

(** [buffer[i]]; an index outside the array is not defined by C and reads
    as the zero record here. *)
Definition buffer_at (s : ring_state) (i : Z) : inference_result_t :=
  default zero_result (buffer s !! Z.to_nat i).

Definition result_buffer_init (CAP : Z) : ring_state :=
  {| buffer := replicate (Z.to_nat CAP) zero_result;
     head := 0;
     tail := 0;
     count := 0 |}.

(** The statics before [result_buffer_init] runs are the same zeros. *)
Definition ring_boot (CAP : Z) : ring_state := result_buffer_init CAP.

Definition result_buffer_push (CAP : Z) (result : option inference_result_t)
    (s : ring_state) : Z * ring_state :=
  match result with
  | None => (- EINVAL, s)
  | Some r =>
      (* full: drop the oldest entry *)
      let s1 :=
        if CAP <=? count s then
          {| buffer := buffer s;
             head := head s;
             tail := wrap32 (tail s + 1) mod CAP;
             count := wrap32 (count s - 1) |}
        else s in
      (0, {| buffer := <[Z.to_nat (head s1) := r]> (buffer s1);
             head := wrap32 (head s1 + 1) mod CAP;
             tail := tail s1;
             count := wrap32 (count s1 + 1) |})
  end.

(** [result_buffer_pop]; [result] is the caller's record behind the
    pointer ([None] for [NULL]), returned with its new contents. *)
Definition result_buffer_pop (CAP : Z) (result : option inference_result_t)
    (s : ring_state) : Z * ring_state * option inference_result_t :=
  match result with
  | None => (- EINVAL, s, None)
  | Some old =>
      if count s =? 0 then (- EAGAIN, s, Some old)
      else
        (0,
         {| buffer := buffer s;
            head := head s;
            tail := wrap32 (tail s + 1) mod CAP;
            count := wrap32 (count s - 1) |},
         Some (buffer_at s (tail s)))
  end.

Definition result_buffer_empty (s : ring_state) : bool := count s =? 0.

Definition result_buffer_full (CAP : Z) (s : ring_state) : bool :=
  CAP <=? count s.

Definition result_buffer_count (s : ring_state) : Z := count s.

(** Pushing a list of results one after the other; the return codes are
    collected in call order. *)
Fixpoint push_all (CAP : Z) (rs : list inference_result_t) (s : ring_state)
    : list Z * ring_state :=
  match rs with
  | [] => ([], s)
  | r :: rs' =>
      let '(ret, s1) := result_buffer_push CAP (Some r) s in
      let '(rets, s2) := push_all CAP rs' s1 in
      (ret :: rets, s2)
  end.

(** [n] calls of [result_buffer_pop] into the same caller record; each
    call yields its return code and the record as the call left it. *)
Fixpoint pop_n (CAP : Z) (n : nat) (dest : inference_result_t)
    (s : ring_state) : list (Z * inference_result_t) * ring_state :=
  match n with
  | O => ([], s)
  | S n' =>
      match result_buffer_pop CAP (Some dest) s with
      | (ret, s1, Some d) =>
          let '(outs, s2) := pop_n CAP n' d s1 in
          ((ret, d) :: outs, s2)
      | (ret, s1, None) => ([], s1)
      end
  end.

(* ===================================================================== *)
(** * sensor_hal.h: one accelerometer reading                             *)
(* ===================================================================== *)

Module accel_sample.
(** [struct accel_sample]: three [int16_t] axes and a [uint32_t] time. *)
Record t := {
  x : Z;
  y : Z;
  z : Z;
  timestamp_us : Z
}.

(** All-zero bytes. *)
Definition zero : t := {| x := 0; y := 0; z := 0; timestamp_us := 0 |}.
End accel_sample.

(* ===================================================================== *)
(** * preprocessing.c                                                     *)
(* ===================================================================== *)

(** The default of [CONFIG_ML_INFERENCE_WINDOW_SIZE] ([inference.h]).  The
    functions below take the configured value as their first argument
    [W]. *)
Definition CONFIG_ML_INFERENCE_WINDOW_SIZE : Z := 50.

Definition ML_INPUT_AXES : Z := 3.
Definition ML_INPUT_SIZE (W : Z) : Z := ML_INPUT_AXES * W.

(** [#define QUANT_SCALE (127.0f / 16384.0f)] *)
Definition QUANT_SCALE : float32 := F32.div (F32.of_Z 127) (F32.of_Z 16384).

(** [#define DC_FILTER_ALPHA 0.95f] *)
Definition DC_FILTER_ALPHA : float32 := F32.lit 95 2.

Record preprocess_state := {
  sample_window : list accel_sample.t;   (* sample_window[W] *)
  window_pos : Z;
  window_ready : bool;
  dc_offset : list float32;              (* float dc_offset[3] *)
  initialized : bool
}.

(** [sample_window[i]] and [dc_offset[i]]; outside the array C defines
    nothing and the model reads zero. *)
Definition window_at (st : preprocess_state) (i : nat) : accel_sample.t :=
  default accel_sample.zero (sample_window st !! i).

Definition dc_at (st : preprocess_state) (i : nat) : float32 :=
  default F32.zero (dc_offset st !! i).

(** The statics as their initialisers leave them. *)
Definition preprocess_boot (W : Z) : preprocess_state :=
  {| sample_window := replicate (Z.to_nat W) accel_sample.zero;
     window_pos := 0;
     window_ready := false;
     dc_offset := [F32.zero; F32.zero; F32.of_Z 8192];
     initialized := false |}.

Definition preprocessing_init (W : Z) (st : preprocess_state)
    : preprocess_state :=
  {| sample_window := replicate (Z.to_nat W) accel_sample.zero;
     window_pos := 0;
     window_ready := false;
     dc_offset := [F32.zero; F32.zero; F32.of_Z 8192];
     initialized := true |}.

(** One step of the exponential moving average:
    [DC_FILTER_ALPHA * dc + (1.0f - DC_FILTER_ALPHA) * (float)v]. *)
Definition dc_filter (dc : float32) (v : Z) : float32 :=
  F32.add (F32.mul DC_FILTER_ALPHA dc)
          (F32.mul (F32.sub (F32.of_Z 1) DC_FILTER_ALPHA) (F32.of_Z v)).

Definition preprocessing_add_sample (W : Z) (sample : option accel_sample.t)
    (st : preprocess_state) : Z * preprocess_state :=
  if negb (initialized st) then (- EINVAL, st)
  else
    match sample with
    | None => (- EINVAL, st)
    | Some smp =>
        let dc :=
          [dc_filter (dc_at st 0) (accel_sample.x smp);
           dc_filter (dc_at st 1) (accel_sample.y smp);
           dc_filter (dc_at st 2) (accel_sample.z smp)] in
        (* sample_window[window_pos] = *sample; window_pos++ *)
        let win := <[Z.to_nat (window_pos st) := smp]> (sample_window st) in
        let pos := wrap32 (window_pos st + 1) in
        if W <=? pos then
          (0, {| sample_window := win;
                 window_pos := 0;
                 window_ready := true;
                 dc_offset := dc;
                 initialized := initialized st |})
        else
          (0, {| sample_window := win;
                 window_pos := pos;
                 window_ready := window_ready st;
                 dc_offset := dc;
                 initialized := initialized st |})
    end.

Definition preprocessing_window_ready (st : preprocess_state) : bool :=
  window_ready st.

(** [(q < -128) ? -128 : (q > 127) ? 127 : q] *)
Definition clamp_int8 (q : Z) : Z :=
  if q <? -128 then -128 else if 127 <? q then 127 else q.

(** The value before clamping: [(int32_t)(((float)v - dc) * QUANT_SCALE)]. *)
Definition scaled (v : Z) (dc : float32) : Z :=
  F32.to_int32 (F32.mul (F32.sub (F32.of_Z v) dc) QUANT_SCALE).

(** One emitted element: scaled, clamped, then stored as [int8_t]. *)
Definition quantize (v : Z) (dc : float32) : Z :=
  to_int8 (clamp_int8 (scaled v dc)).

(** Body of the conversion loop for index [i]: three stores through
    [out_idx].  A store past the end of the caller's array is outside C's
    semantics; here it is dropped. *)
Definition quantize_step (st : preprocess_state) (acc : nat * list Z)
    (i : nat) : nat * list Z :=
  let '(out_idx, output) := acc in
  let smp := window_at st i in
  let qx := quantize (accel_sample.x smp) (dc_at st 0) in
  let qy := quantize (accel_sample.y smp) (dc_at st 1) in
  let qz := quantize (accel_sample.z smp) (dc_at st 2) in
  (out_idx + 3,
   <[out_idx + 2 := qz]>
     (<[out_idx + 1 := qy]> (<[out_idx := qx]> output)))%nat.

(** [preprocessing_get_input]; [output] is the caller's array ([None] for
    [NULL]), returned with its new contents. *)
Definition preprocessing_get_input (W : Z) (output : option (list Z))
    (output_size : Z) (st : preprocess_state)
    : Z * preprocess_state * option (list Z) :=
  match output with
  | None => (- EINVAL, st, None)
  | Some out =>
      if output_size <? ML_INPUT_SIZE W then (- ENOSPC, st, Some out)
      else if negb (window_ready st) then (- EAGAIN, st, Some out)
      else
        let '(_, out') :=
          fold_left (quantize_step st) (seq 0 (Z.to_nat W)) (O, out) in
        (0,
         {| sample_window := sample_window st;
            window_pos := window_pos st;
            window_ready := false;
            dc_offset := dc_offset st;
            initialized := initialized st |},
         Some out')
  end.

Definition preprocessing_clear_window (W : Z) (st : preprocess_state)
    : preprocess_state :=
  {| sample_window := replicate (Z.to_nat W) accel_sample.zero;
     window_pos := 0;
     window_ready := false;
     dc_offset := dc_offset st;
     initialized := initialized st |}.

Definition preprocessing_get_window_fill (st : preprocess_state) : Z :=
  window_pos st.

(** Feeding a list of samples one call at a time; the return codes are
    collected in call order. *)
Fixpoint add_samples (W : Z) (l : list accel_sample.t) (st : preprocess_state)
    : list Z * preprocess_state :=
  match l with
  | [] => ([], st)
  | smp :: l' =>
      let '(ret, st1) := preprocessing_add_sample W (Some smp) st in
      let '(rets, st2) := add_samples W l' st1 in
      (ret :: rets, st2)
  end.

(** The quantised image of a list of samples under given offsets,
    channel-interleaved. *)
Definition quantize_window (dc0 dc1 dc2 : float32) (l : list accel_sample.t)
    : list Z :=
  flat_map (fun smp => [quantize (accel_sample.x smp) dc0;
                        quantize (accel_sample.y smp) dc1;
                        quantize (accel_sample.z smp) dc2]) l.

(* ===================================================================== *)
(** * debug_monitor.c                                                     *)
(* ===================================================================== *)

Definition STACK_WARNING_THRESHOLD : Z := 80.
Definition MAX_MONITORED_THREADS : Z := 4.

(** [debug_stats_t] of [debug_monitor.h]. *)
Record debug_stats_t := {
  uptime_ms : Z;
  heap_used : Z;
  heap_free : Z;
  stack_used : Z;
  stack_size : Z;
  ml_stack_used : Z;
  ml_stack_size : Z;
  cpu_usage_percent : float32;
  stack_warnings : Z
}.

Module monitored_thread.
(** [struct monitored_thread]; a thread is named by the address of its
    [struct k_thread]. *)
Record t := {
  thread : option Z;
  name : option string;
  stack_size : Z;
  peak_usage : Z
}.

Definition zero : t :=
  {| thread := None; name := None; stack_size := 0; peak_usage := 0 |}.

Definition set_peak_usage (v : Z) (m : t) : t :=
  {| thread := thread m; name := name m; stack_size := stack_size m;
     peak_usage := v |}.
End monitored_thread.

Record monitor_state := {
  monitored : list monitored_thread.t;   (* monitored[MAX_MONITORED_THREADS] *)
  monitored_count : Z;
  total_stack_warnings : Z;
  monitor_initialized : bool;
  last_check_time : Z;
  last_cpu_cycles : Z
}.

(** Build options the file is conditional on. *)
Record build_config := {
  CONFIG_THREAD_STACK_INFO : bool;
  CONFIG_SCHED_THREAD_USAGE : bool
}.

(** What the kernel answers during one call of a monitor function. *)
Record kernel := {
  (** [k_uptime_get_32()] at the first read of the call *)
  k_uptime_get_32 : Z;
  (** [k_uptime_get_32()] at the later read in the CPU-usage block *)
  k_uptime_get_32_again : Z;
  (** [k_current_get()] *)
  k_current_get : Z;
  (** [k_thread_stack_space_get(thread, &unused)]: return code, [unused] *)
  k_thread_stack_space_get : Z -> Z * Z;
  (** [thread->stack_info.size] *)
  stack_info_size : Z -> Z;
  (** [k_thread_runtime_stats_get]: return code, [execution_cycles] *)
  k_thread_runtime_stats_get : Z -> Z * Z;
  (** [sys_clock_hw_cycles_per_sec()] *)
  sys_clock_hw_cycles_per_sec : Z
}.

Definition monitor_boot : monitor_state :=
  {| monitored :=
       replicate (Z.to_nat MAX_MONITORED_THREADS) monitored_thread.zero;
     monitored_count := 0;
     total_stack_warnings := 0;
     monitor_initialized := false;
     last_check_time := 0;
     last_cpu_cycles := 0 |}.

Definition monitored_at (mon : list monitored_thread.t) (i : nat)
    : monitored_thread.t :=
  default monitored_thread.zero (mon !! i).

Definition debug_monitor_init (k : kernel) (st : monitor_state)
    : Z * monitor_state :=
  if monitor_initialized st then (0, st)
  else
    (0, {| monitored := monitored st;
           monitored_count := 0;
           total_stack_warnings := 0;
           monitor_initialized := true;
           last_check_time := k_uptime_get_32 k;
           last_cpu_cycles := 0 |}).

Definition debug_monitor_register_thread (thr : option Z) (nm : option string)
    (st : monitor_state) : Z * monitor_state :=
  match thr, nm with
  | Some t, Some n =>
      if MAX_MONITORED_THREADS <=? monitored_count st then (- ENOSPC, st)
      else
        (0, {| monitored :=
                 <[Z.to_nat (monitored_count st) :=
                     {| monitored_thread.thread := Some t;
                        monitored_thread.name := Some n;
                        monitored_thread.stack_size := 0;
                        monitored_thread.peak_usage := 0 |}]> (monitored st);
               monitored_count := to_int32 (monitored_count st + 1);
               total_stack_warnings := total_stack_warnings st;
               monitor_initialized := monitor_initialized st;
               last_check_time := last_check_time st;
               last_cpu_cycles := last_cpu_cycles st |})
  | _, _ => (- EINVAL, st)
  end.

(** The bytes of stack in use that the code derives for thread [t]:
    [size - unused] in [size_t]. *)
Definition stack_used_of (k : kernel) (t : Z) : Z :=
  wrap32 (stack_info_size k t - snd (k_thread_stack_space_get k t)).

Definition debug_get_stack_percent (cfg : build_config) (k : kernel)
    (thr : option Z) : Z :=
  match thr with
  | None => - EINVAL
  | Some t =>
      if CONFIG_THREAD_STACK_INFO cfg then
        if negb (fst (k_thread_stack_space_get k t) =? 0) then 0
        else
          let size := stack_info_size k t in
          if size =? 0 then 0
          else
            let used := stack_used_of k t in
            to_int32 (wrap32 (used * 100) / size)
      else 0
  end.

(** [strcmp(name, "ml_thread") == 0] *)
Definition is_ml_thread (nm : option string) : bool :=
  match nm with
  | Some n => String.eqb n "ml_thread"
  | None => false
  end.

(** Body of the loop over the registry in [debug_monitor_get_stats]. *)
Definition get_stats_step (cfg : build_config) (k : kernel)
    (acc : list monitored_thread.t * debug_stats_t) (i : nat)
    : list monitored_thread.t * debug_stats_t :=
  let '(mon, stats) := acc in
  let m := monitored_at mon i in
  match monitored_thread.thread m with
  | None => acc
  | Some t =>
      if CONFIG_THREAD_STACK_INFO cfg then
        if fst (k_thread_stack_space_get k t) =? 0 then
          let size := stack_info_size k t in
          let used := stack_used_of k t in
          (* track peak usage *)
          let m' :=
            if monitored_thread.peak_usage m <? used
            then monitored_thread.set_peak_usage used m
            else m in
          (* record ML thread stats *)
          let stats' :=
            if is_ml_thread (monitored_thread.name m) then
              {| uptime_ms := uptime_ms stats;
                 heap_used := heap_used stats;
                 heap_free := heap_free stats;
                 stack_used := stack_used stats;
                 stack_size := stack_size stats;
                 ml_stack_used := used;
                 ml_stack_size := wrap32 size;
                 cpu_usage_percent := cpu_usage_percent stats;
                 stack_warnings := stack_warnings stats |}
            else stats in
          (<[i := m']> mon, stats')
        else acc
      else acc
  end.

(** The CPU-usage block of [debug_monitor_get_stats]: the new
    [cpu_usage_percent] (the old one when no branch assigns it), the new
    [last_check_time] and the new [last_cpu_cycles]. *)
Definition cpu_usage_block (cfg : build_config) (k : kernel)
    (st : monitor_state) (old_cpu : float32) : float32 * Z * Z :=
  if CONFIG_SCHED_THREAD_USAGE cfg then
    let '(rv, execution_cycles) :=
      k_thread_runtime_stats_get k (k_current_get k) in
    if rv =? 0 then
      let now := k_uptime_get_32_again k in
      let delta_time := wrap32 (now - last_check_time st) in
      let cpu :=
        if (0 <? delta_time) && (0 <? last_cpu_cycles st) then
          let delta_cycles := wrap64 (execution_cycles - last_cpu_cycles st) in
          let total_cycles :=
            wrap64 (delta_time * (sys_clock_hw_cycles_per_sec k / 1000)) in
          if 0 <? total_cycles then
            F32.div (F32.of_Z (wrap64 (delta_cycles * 100)))
                    (F32.of_Z total_cycles)
          else old_cpu
        else old_cpu in
      (cpu, now, execution_cycles)
    else (F32.zero, last_check_time st, last_cpu_cycles st)
  else (F32.zero, last_check_time st, last_cpu_cycles st).

(** [debug_monitor_get_stats]; [stats] is the caller's record ([None] for
    [NULL]), returned with its new contents. *)
Definition debug_monitor_get_stats (cfg : build_config) (k : kernel)
    (stats : option debug_stats_t) (st : monitor_state)
    : Z * monitor_state * option debug_stats_t :=
  match stats with
  | None => (- EINVAL, st, None)
  | Some s0 =>
      let current := k_current_get k in
      (* stack of the calling thread *)
      let '(cur_size, cur_used) :=
        if CONFIG_THREAD_STACK_INFO cfg then
          if fst (k_thread_stack_space_get k current) =? 0
          then (wrap32 (stack_info_size k current), stack_used_of k current)
          else (0, 0)
        else (0, 0) in
      let s1 :=
        {| uptime_ms := k_uptime_get_32 k;
           heap_used := 0;
           heap_free := 0;
           stack_used := cur_used;
           stack_size := cur_size;
           ml_stack_used := 0;
           ml_stack_size := 0;
           cpu_usage_percent := cpu_usage_percent s0;
           stack_warnings := stack_warnings s0 |} in
      let '(mon, s2) :=
        fold_left (get_stats_step cfg k)
                  (seq 0 (Z.to_nat (monitored_count st)))
                  (monitored st, s1) in
      let '(cpu, check_time, cpu_cycles) :=
        cpu_usage_block cfg k st (cpu_usage_percent s2) in
      (0,
       {| monitored := mon;
          monitored_count := monitored_count st;
          total_stack_warnings := total_stack_warnings st;
          monitor_initialized := monitor_initialized st;
          last_check_time := check_time;
          last_cpu_cycles := cpu_cycles |},
       Some {| uptime_ms := uptime_ms s2;
               heap_used := heap_used s2;
               heap_free := heap_free s2;
               stack_used := stack_used s2;
               stack_size := stack_size s2;
               ml_stack_used := ml_stack_used s2;
               ml_stack_size := ml_stack_size s2;
               cpu_usage_percent := cpu;
               stack_warnings := total_stack_warnings st |})
  end.

(** Whether the pass of [debug_monitor_check] warns about entry [i]. *)
Definition over_threshold (cfg : build_config) (k : kernel)
    (mon : list monitored_thread.t) (i : nat) : bool :=
  match monitored_thread.thread (monitored_at mon i) with
  | None => false
  | Some t => STACK_WARNING_THRESHOLD <? debug_get_stack_percent cfg k (Some t)
  end.

(** Body of the loop of [debug_monitor_check] on the pair
    ([total_stack_warnings], [issues]). *)
Definition check_step (cfg : build_config) (k : kernel)
    (mon : list monitored_thread.t) (acc : Z * Z) (i : nat) : Z * Z :=
  let '(warnings, issues) := acc in
  if over_threshold cfg k mon i
  then (wrap32 (warnings + 1), to_int32 (issues + 1))
  else acc.

Definition debug_monitor_check (cfg : build_config) (k : kernel)
    (st : monitor_state) : Z * monitor_state :=
  if negb (monitor_initialized st) then (- EINVAL, st)
  else
    let '(warnings, issues) :=
      fold_left (check_step cfg k (monitored st))
                (seq 0 (Z.to_nat (monitored_count st)))
                (total_stack_warnings st, 0) in
    (if 0 <? issues then - ENOSPC else 0,
     {| monitored := monitored st;
        monitored_count := monitored_count st;
        total_stack_warnings := warnings;
        monitor_initialized := monitor_initialized st;
        last_check_time := last_check_time st;
        last_cpu_cycles := last_cpu_cycles st |}).

Definition debug_monitor_healthy (cfg : build_config) (k : kernel)
    (st : monitor_state) : bool * monitor_state :=
  let '(ret, st') := debug_monitor_check cfg k st in (ret =? 0, st').

(* ===================================================================== *)
(** * inference.cpp                                                       *)
(* ===================================================================== *)

Inductive ml_status_t :=
  | ML_STATUS_OK
  | ML_STATUS_NOT_INITIALIZED
  | ML_STATUS_ALLOC_FAILED
  | ML_STATUS_INVOKE_FAILED
  | ML_STATUS_INVALID_INPUT
  | ML_STATUS_ERROR.

Record ml_stats_t := {
  inference_count : Z;
  min_time_us : Z;
  max_time_us : Z;
  total_time_us : Z;       (* uint64_t *)
  invoke_failures : Z
}.

Record ml_state := {
  ml_initialized : bool;
  use_mock_inference : bool;
  ml_stats : ml_stats_t;
  inference_sequence : Z;
  (** [input_tensor->data.int8], [None] while the pointer is [nullptr] *)
  input_tensor : option (list Z)
}.

(** The statics as their initialisers leave them. *)
Definition ml_boot : ml_state :=
  {| ml_initialized := false;
     use_mock_inference := false;
     ml_stats := {| inference_count := 0; min_time_us := 0; max_time_us := 0;
                    total_time_us := 0; invoke_failures := 0 |};
     inference_sequence := 0;
     input_tensor := None |}.

(** What TensorFlow Lite Micro answers during [ml_inference_init]. *)
Record tflite_setup := {
  (** [tflite::GetModel] returned a model *)
  model_loaded : bool;
  (** [model->version() == TFLITE_SCHEMA_VERSION] *)
  model_version_ok : bool;
  (** [setup_op_resolver() == 0] *)
  op_resolver_ok : bool;
  (** [AllocateTensors() == kTfLiteOk] *)
  allocate_ok : bool;
  (** [interpreter->input(0)]: its data, [None] for [nullptr] *)
  input_0 : option (list Z);
  (** [interpreter->output(0) != nullptr] *)
  output_0_present : bool
}.

(** What the kernel and the interpreter answer during one
    [ml_run_inference]. *)
Record tflite_run := {
  (** [k_cycle_get_32()] before and after the invocation *)
  start_time : Z;
  end_time : Z;
  (** [sys_clock_hw_cycles_per_sec()] *)
  hw_cycles_per_sec : Z;
  (** [k_uptime_get()] (milliseconds, 64 bits) *)
  k_uptime_get : Z;
  (** [interpreter->Invoke() == kTfLiteOk] *)
  invoke_ok : bool;
  (** [output_tensor->data.int8[0..3]], [params.scale], [params.zero_point] *)
  output_int8 : list Z;
  output_scale : float32;
  output_zero_point : Z
}.

Definition set_mock (st : ml_state) : ml_state :=
  {| ml_initialized := true;
     use_mock_inference := true;
     ml_stats := ml_stats st;
     inference_sequence := inference_sequence st;
     input_tensor := input_tensor st |}.

Definition ml_inference_init (tf : tflite_setup) (st : ml_state)
    : ml_status_t * ml_state :=
  if ml_initialized st then (ML_STATUS_OK, st)
  else if negb (model_loaded tf) then (ML_STATUS_OK, set_mock st)
  else if negb (model_version_ok tf) then (ML_STATUS_OK, set_mock st)
  else if negb (op_resolver_ok tf) then (ML_STATUS_OK, set_mock st)
  else if negb (allocate_ok tf) then (ML_STATUS_ALLOC_FAILED, st)
  else
    let st1 :=
      {| ml_initialized := ml_initialized st;
         use_mock_inference := use_mock_inference st;
         ml_stats := ml_stats st;
         inference_sequence := inference_sequence st;
         input_tensor := input_0 tf |} in
    match input_0 tf, output_0_present tf with
    | Some _, true =>
        (ML_STATUS_OK,
         {| ml_initialized := true;
            use_mock_inference := use_mock_inference st;
            ml_stats := {| inference_count := 0;
                           min_time_us := UINT32_MAX;
                           max_time_us := 0;
                           total_time_us := 0;
                           invoke_failures := 0 |};
            inference_sequence := 0;
            input_tensor := input_0 tf |})
    | _, _ => (ML_STATUS_ERROR, st1)
    end.

(** The copy loop [for (i = 0; i < input_size && i < ML_INPUT_SIZE; i++)
    input_ptr[i] = input_data[i]], with [input_size] the tensor's byte
    count. *)
Definition copy_input (W : Z) (input_data tensor : list Z) : list Z :=
  let n := Nat.min (length tensor) (Z.to_nat (ML_INPUT_SIZE W)) in
  take n input_data ++ drop (length (take n input_data)) tensor.

(** The synthetic scores of the mock path: the label, its confidence and
    the four class scores, chosen from the counter before it is bumped. *)
Definition mock_scores (seq_no : Z)
    : gesture_label_t * float32 * list float32 :=
  if seq_no mod 50 =? 25 then
    (GESTURE_WAVE, F32.lit 85 2,
     [F32.lit 10 2; F32.lit 85 2; F32.lit 2 2; F32.lit 1 2])
  else if seq_no mod 50 =? 35 then
    (GESTURE_TAP, F32.lit 90 2,
     [F32.lit 5 2; F32.lit 2 2; F32.lit 90 2; F32.lit 1 2])
  else
    (GESTURE_IDLE, F32.lit 95 2,
     [F32.lit 95 2; F32.lit 2 2; F32.lit 2 2; F32.lit 1 2]).

(** Body of the dequantisation loop over the classes. *)
Definition dequant_step (tf : tflite_run)
    (acc : gesture_label_t * float32 * list float32) (i : nat)
    : gesture_label_t * float32 * list float32 :=
  let '(best, max_score, scores) := acc in
  let raw := default 0 (output_int8 tf !! i) in
  let score :=
    F32.mul (F32.of_Z (to_int32 (raw - output_zero_point tf)))
            (output_scale tf) in
  let scores' := <[i := score]> scores in
  if F32.gtb score max_score
  then (gesture_of_index i, score, scores')
  else (best, max_score, scores').

Definition ml_run_inference (W : Z) (tf : tflite_run)
    (input_data : option (list Z)) (result : option inference_result_t)
    (st : ml_state) : ml_status_t * ml_state * option inference_result_t :=
  if negb (ml_initialized st) then (ML_STATUS_NOT_INITIALIZED, st, result)
  else
    match input_data, result with
    | Some inp, Some res =>
        let tensor :=
          if use_mock_inference st then input_tensor st
          else option_map (copy_input W inp) (input_tensor st) in
        let cycles := wrap32 (end_time tf - start_time tf) in
        let freq_mhz := wrap32 (hw_cycles_per_sec tf / 1000000) in
        let time_us := if 0 <? freq_mhz then cycles / freq_mhz else 0 in
        let status_ok :=
          if use_mock_inference st then true else invoke_ok tf in
        if negb status_ok then
          (ML_STATUS_INVOKE_FAILED,
           {| ml_initialized := ml_initialized st;
              use_mock_inference := use_mock_inference st;
              ml_stats :=
                {| inference_count := inference_count (ml_stats st);
                   min_time_us := min_time_us (ml_stats st);
                   max_time_us := max_time_us (ml_stats st);
                   total_time_us := total_time_us (ml_stats st);
                   invoke_failures :=
                     wrap32 (invoke_failures (ml_stats st) + 1) |};
              inference_sequence := inference_sequence st;
              input_tensor := tensor |},
           result)
        else
          let '(best_gesture, max_score, scores) :=
            if use_mock_inference st then mock_scores (inference_sequence st)
            else
              fold_left (dequant_step tf) (seq 0 (Z.to_nat GESTURE_COUNT))
                        (GESTURE_IDLE, F32.lit (-1000) 0, class_scores res) in
          (* result->sequence = ++inference_sequence *)
          let seq_no := wrap32 (inference_sequence st + 1) in
          (ML_STATUS_OK,
           {| ml_initialized := ml_initialized st;
              use_mock_inference := use_mock_inference st;
              ml_stats :=
                {| inference_count :=
                     wrap32 (inference_count (ml_stats st) + 1);
                   min_time_us :=
                     if time_us <? min_time_us (ml_stats st)
                     then time_us else min_time_us (ml_stats st);
                   max_time_us :=
                     if max_time_us (ml_stats st) <? time_us
                     then time_us else max_time_us (ml_stats st);
                   total_time_us :=
                     wrap64 (total_time_us (ml_stats st) + time_us);
                   invoke_failures := invoke_failures (ml_stats st) |};
              inference_sequence := seq_no;
              input_tensor := tensor |},
           Some {| gesture := best_gesture;
                   confidence := max_score;
                   class_scores := scores;
                   inference_time_us := time_us;
                   timestamp_us := wrap32 (k_uptime_get tf * 1000);
                   sequence := seq_no |})
    | _, _ => (ML_STATUS_INVALID_INPUT, st, result)
    end.

(* ===================================================================== *)
(** * The wake-up semaphore of the main file                              *)
(* ===================================================================== *)

(** Modelled from the spec: the kernel's semaphore ([k_sem_give],
    [k_sem_take]) is Zephyr code and not part of the sources.  Section 4.2
    describes the gate as a single slot that [notify] sets if it is not
    already set and that a [wait] consumes, timing out when nothing is
    pending.  The model is a counter with a limit: a give adds one unless
    the limit is reached, a take removes one or times out.  Only the
    declaration [K_SEM_DEFINE(ml_sem, 0, 1)] comes from the sources. *)
Record k_sem := {
  sem_count : Z;
  sem_limit : Z
}.

(** [K_SEM_DEFINE(name, initial_count, count_limit)] *)
Definition K_SEM_DEFINE (initial_count count_limit : Z) : k_sem :=
  {| sem_count := initial_count; sem_limit := count_limit |}.

(** [K_SEM_DEFINE(ml_sem, 0, 1);] *)
Definition ml_sem : k_sem := K_SEM_DEFINE 0 1.

(** Modelled from the spec: [k_sem_give] with no thread waiting. *)
Definition k_sem_give (s : k_sem) : k_sem :=
  if sem_count s <? sem_limit s
  then {| sem_count := sem_count s + 1; sem_limit := sem_limit s |}
  else s.

(** Modelled from the spec: [k_sem_take] with a timeout during which no
    give arrives: 0 when a wake was pending, [-EAGAIN] on time-out. *)
Definition k_sem_take (s : k_sem) : Z * k_sem :=
  if 0 <? sem_count s
  then (0, {| sem_count := sem_count s - 1; sem_limit := sem_limit s |})
  else (- EAGAIN, s).

(** One pass of the loop body of [sensor_thread_fn]: [reading] is the
    sample when [sensor_hal_read] returned [SENSOR_STATUS_OK]. *)
Definition sensor_thread_iter (W : Z) (reading : option accel_sample.t)
    (st : preprocess_state * k_sem) : preprocess_state * k_sem :=
  let '(pre, sem) := st in
  match reading with
  | Some smp =>
      let '(_, pre') := preprocessing_add_sample W (Some smp) pre in
      (pre', if preprocessing_window_ready pre' then k_sem_give sem else sem)
  | None => st
  end.


(* ===================================================================== *)
(** * Notions used to state the properties                                *)
(* ===================================================================== *)

(** The axis of a sample selected by a channel number, as the interleaved
    output orders them. *)
Definition channel (c : nat) (smp : accel_sample.t) : Z :=
  match c with
  | O => accel_sample.x smp
  | 1%nat => accel_sample.y smp
  | _ => accel_sample.z smp
  end.

(** The entries the queue holds, oldest first: the [count] slots that
    start at [tail], going round the array. *)
Definition rb_contents (CAP : Z) (s : ring_state) : list inference_result_t :=
  (fun i => buffer_at s ((tail s + Z.of_nat i) mod CAP))
    <$> seq 0 (Z.to_nat (count s)).

(** The last [n] elements of a list (the whole list when it is shorter). *)
Definition keep_last {A : Type} (n : nat) (l : list A) : list A :=
  drop (length l - n) l.

(** The relation between the three indices. *)
Definition rb_invariant (CAP : Z) (s : ring_state) : Prop :=
  0 <= count s <= CAP /\ head s = (tail s + count s) mod CAP.

(** The invariant together with what the types and the array declaration
    give: the array has [CAP] slots and [tail] indexes one of them. *)
Definition rb_wf (CAP : Z) (s : ring_state) : Prop :=
  length (buffer s) = Z.to_nat CAP /\ 0 <= tail s < CAP /\ rb_invariant CAP s.

(** The operations that change the queue. *)
Inductive rb_op :=
  | RbInit
  | RbPush (result : option inference_result_t)
  | RbPop (result : option inference_result_t).

Definition rb_apply (CAP : Z) (op : rb_op) (s : ring_state) : ring_state :=
  match op with
  | RbInit => result_buffer_init CAP
  | RbPush r => snd (result_buffer_push CAP r s)
  | RbPop d => snd (fst (result_buffer_pop CAP d s))
  end.

(** The states the queue can be in: the zeroed statics, and whatever the
    operations make of a state already reached. *)
Inductive rb_reachable (CAP : Z) : ring_state -> Prop :=
  | rb_reach_boot : rb_reachable CAP (ring_boot CAP)
  | rb_reach_step op s :
      rb_reachable CAP s -> rb_reachable CAP (rb_apply CAP op s).

(** How many pushes of a run found the queue full (and so gave up its
    oldest entry). *)
Fixpoint evictions (CAP : Z) (rs : list inference_result_t) (s : ring_state)
    : Z :=
  match rs with
  | [] => 0
  | r :: rs' =>
      (if result_buffer_full CAP s then 1 else 0)
      + evictions CAP rs' (snd (result_buffer_push CAP (Some r) s))
  end.

(** A result that carries nothing but its sequence number; used as
    concrete data. *)
Definition numbered_result (n : Z) : inference_result_t :=
  {| gesture := GESTURE_IDLE;
     confidence := F32.zero;
     class_scores := replicate 4 F32.zero;
     inference_time_us := 0;
     timestamp_us := 0;
     sequence := n |}.

(** The results numbered [1 .. n]. *)
Definition numbered_results (n : nat) : list inference_result_t :=
  (fun i => numbered_result (Z.of_nat i)) <$> seq 1 n.

(** One inference on the mock path with nothing of interest in the
    environment, keeping only the new state. *)
Definition quiet_run : tflite_run :=
  {| start_time := 0; end_time := 0; hw_cycles_per_sec := 25000000;
     k_uptime_get := 0; invoke_ok := true; output_int8 := [];
     output_scale := F32.zero; output_zero_point := 0 |}.

Definition next_inference (W : Z) (st : ml_state) : ml_state :=
  snd (fst (ml_run_inference W quiet_run (Some []) (Some zero_result) st)).

(** A model that fails to load: initialisation falls back to the mock. *)
Definition no_model : tflite_setup :=
  {| model_loaded := false; model_version_ok := false;
     op_resolver_ok := false; allocate_ok := false;
     input_0 := None; output_0_present := false |}.

(** The stack usage that [debug_monitor_get_stats] reads for a registry
    entry, when it reads one: the entry has a thread, stack introspection
    is built in and the kernel call succeeds. *)
Definition usage_read (cfg : build_config) (k : kernel)
    (m : monitored_thread.t) : option Z :=
  match monitored_thread.thread m with
  | None => None
  | Some t =>
      if CONFIG_THREAD_STACK_INFO cfg
         && (fst (k_thread_stack_space_get k t) =? 0)
      then Some (stack_used_of k t)
      else None
  end.

(** The entry after its peak has been tracked against that reading. *)
Definition track_peak (cfg : build_config) (k : kernel)
    (m : monitored_thread.t) : monitored_thread.t :=
  match usage_read cfg k m with
  | Some used =>
      if monitored_thread.peak_usage m <? used
      then monitored_thread.set_peak_usage used m
      else m
  | None => m
  end.

(** The registry with the peaks of its first [n] entries tracked. *)
Definition tracked (cfg : build_config) (k : kernel) (n : nat)
    (mon : list monitored_thread.t) : list monitored_thread.t :=
  imap (fun i m => if decide (i < n)%nat then track_peak cfg k m else m) mon.

(** How many of the first [n] entries a check warns about. *)
Definition warnings_raised (cfg : build_config) (k : kernel)
    (mon : list monitored_thread.t) (n : nat) : Z :=
  fold_left (fun acc i => if over_threshold cfg k mon i then acc + 1 else acc)
            (seq 0 n) 0.

(** The records a snapshot starts from and the build used as concrete
    data. *)
Definition zero_stats : debug_stats_t :=
  {| uptime_ms := 0; heap_used := 0; heap_free := 0; stack_used := 0;
     stack_size := 0; ml_stack_used := 0; ml_stack_size := 0;
     cpu_usage_percent := F32.zero; stack_warnings := 0 |}.

Definition stack_info_build : build_config :=
  {| CONFIG_THREAD_STACK_INFO := true; CONFIG_SCHED_THREAD_USAGE := false |}.

(** A kernel in which thread 1 (4096 bytes of stack) has [unused1] bytes
    unused and thread 2 (1024 bytes) has [unused2]; the caller is
    thread 3 (2048 bytes, 1024 unused). *)
Definition kernel_with (unused1 unused2 : Z) : kernel :=
  {| k_uptime_get_32 := 5000;
     k_uptime_get_32_again := 5000;
     k_current_get := 3;
     k_thread_stack_space_get :=
       fun t => if t =? 1 then (0, unused1)
                else if t =? 2 then (0, unused2) else (0, 1024);
     stack_info_size :=
       fun t => if t =? 1 then 4096 else if t =? 2 then 1024 else 2048;
     k_thread_runtime_stats_get := fun _ => (0, 0);
     sys_clock_hw_cycles_per_sec := 25000000 |}.

(** The monitor after start-up with the ML thread (1) and the sensor
    thread (2) registered. *)
Definition two_threads_registered : monitor_state :=
  let st0 := snd (debug_monitor_init (kernel_with 4000 1000) monitor_boot) in
  let st1 :=
    snd (debug_monitor_register_thread (Some 1) (Some "ml_thread"%string)
           st0) in
  snd (debug_monitor_register_thread (Some 2) (Some "sensor"%string) st1).

(** The DC estimates after one more sample, as [preprocessing_add_sample]
    computes them. *)
Definition dc_next (dc : list float32) (smp : accel_sample.t) : list float32 :=
  [dc_filter (default F32.zero (dc !! 0%nat)) (accel_sample.x smp);
   dc_filter (default F32.zero (dc !! 1%nat)) (accel_sample.y smp);
   dc_filter (default F32.zero (dc !! 2%nat)) (accel_sample.z smp)].

(** The quantised image of a list of samples under the offsets held in
    [dc]. *)
Definition quantize_with (dc : list float32) (l : list accel_sample.t)
    : list Z :=
  quantize_window (default F32.zero (dc !! 0%nat))
                  (default F32.zero (dc !! 1%nat))
                  (default F32.zero (dc !! 2%nat)) l.

(** Concrete data: the [i]-th sample of a slow ramp on X and Y with
    gravity on Z, taken every 10 ms, and the first [n] of them. *)
Definition ramp_sample (i : nat) : accel_sample.t :=
  {| accel_sample.x := 100 * Z.of_nat i;
     accel_sample.y := -50 * Z.of_nat i;
     accel_sample.z := 8192;
     accel_sample.timestamp_us := 10000 * Z.of_nat i |}.

Definition ramp_samples (n : nat) : list accel_sample.t :=
  ramp_sample <$> seq 1 n.

(** Concrete data: a jolt that arrives after the ramp. *)
Definition jolt_sample : accel_sample.t :=
  {| accel_sample.x := -12000;
     accel_sample.y := 9000;
     accel_sample.z := 0;
     accel_sample.timestamp_us := 510000 |}.

(** Concrete data: a sample at the ends of the [int16_t] range. *)
Definition extreme_sample : accel_sample.t :=
  {| accel_sample.x := 32767;
     accel_sample.y := -32768;
     accel_sample.z := 8192;
     accel_sample.timestamp_us := 10000 |}.


(* ===================================================================== *)
(** * timing.c: the statistics record                                     *)
(* ===================================================================== *)

Module timing_stats_t.
(** [timing_stats_t] of [timing.h]; [total_us] is 64 bits wide. *)
Record t := {
  min_us : Z;
  max_us : Z;
  avg_us : Z;
  count : Z;
  total_us : Z
}.
End timing_stats_t.

(** [profile_timing_record]; [stats] is the caller's record ([None] for
    [NULL]), returned with its new contents. *)
Definition profile_timing_record (stats : option timing_stats_t.t)
    (duration_us : Z) : option timing_stats_t.t :=
  match stats with
  | None => None
  | Some s =>
      let cnt := wrap32 (timing_stats_t.count s + 1) in
      let total := wrap64 (timing_stats_t.total_us s + duration_us) in
      Some {| timing_stats_t.min_us :=
                if (duration_us <? timing_stats_t.min_us s)
                   || (timing_stats_t.min_us s =? 0)
                then duration_us else timing_stats_t.min_us s;
              timing_stats_t.max_us :=
                if timing_stats_t.max_us s <? duration_us
                then duration_us else timing_stats_t.max_us s;
              timing_stats_t.avg_us :=
                if 0 <? cnt then wrap32 (total / cnt)
                else timing_stats_t.avg_us s;
              timing_stats_t.count := cnt;
              timing_stats_t.total_us := total |}
  end.

Definition profile_timing_stats_reset (stats : option timing_stats_t.t)
    : option timing_stats_t.t :=
  match stats with
  | None => None
  | Some _ =>
      Some {| timing_stats_t.min_us := 0;
              timing_stats_t.max_us := 0;
              timing_stats_t.avg_us := 0;
              timing_stats_t.count := 0;
              timing_stats_t.total_us := 0 |}
  end.

(** [profile_timing_get_us]; [k_uptime_get] is the 64-bit uptime in
    milliseconds as read. *)
Definition profile_timing_get_us (k_uptime_get : Z) : Z :=
  wrap32 (k_uptime_get * 1000).

(** Recording a list of durations one call at a time. *)
Definition record_all (ds : list Z) (stats : option timing_stats_t.t)
    : option timing_stats_t.t :=
  fold_left profile_timing_record ds stats.

(** The sum of a list of integers. *)
Definition sum_list (l : list Z) : Z := fold_right Z.add 0 l.

(* ===================================================================== *)
(** * Notions used to state further properties of preprocessing.c         *)
(* ===================================================================== *)

(** The calls that change the preprocessor. *)
Inductive pre_op :=
  | PreInit
  | PreAdd (sample : option accel_sample.t)
  | PreGet (output : option (list Z)) (output_size : Z)
  | PreClear.

Definition pre_apply (W : Z) (op : pre_op) (st : preprocess_state)
    : preprocess_state :=
  match op with
  | PreInit => preprocessing_init W st
  | PreAdd sample => snd (preprocessing_add_sample W sample st)
  | PreGet output output_size =>
      snd (fst (preprocessing_get_input W output output_size st))
  | PreClear => preprocessing_clear_window W st
  end.

(** The states the preprocessor can be in: the statics as initialised,
    and whatever a call makes of a state already reached. *)
Inductive pre_reachable (W : Z) : preprocess_state -> Prop :=
  | pre_reach_boot : pre_reachable W (preprocess_boot W)
  | pre_reach_step op st :
      pre_reachable W st -> pre_reachable W (pre_apply W op st).

(** The arrays have their declared sizes and the write position indexes
    the window. *)
Definition pre_wf (W : Z) (st : preprocess_state) : Prop :=
  length (sample_window st) = Z.to_nat W
  /\ 0 <= window_pos st < W
  /\ length (dc_offset st) = 3%nat.

(* ===================================================================== *)
(** * Notions used to state further properties of debug_monitor.c         *)
(* ===================================================================== *)

(** Registering a list of threads, one call each; the return codes are
    collected in call order. *)
Fixpoint register_all (ts : list (Z * string)) (st : monitor_state)
    : list Z * monitor_state :=
  match ts with
  | [] => ([], st)
  | (t, n) :: ts' =>
      let '(ret, st1) := debug_monitor_register_thread (Some t) (Some n) st in
      let '(rets, st2) := register_all ts' st1 in
      (ret :: rets, st2)
  end.

(** The registry entry a successful registration writes. *)
Definition fresh_entry (tn : Z * string) : monitored_thread.t :=
  {| monitored_thread.thread := Some (fst tn);
     monitored_thread.name := Some (snd tn);
     monitored_thread.stack_size := 0;
     monitored_thread.peak_usage := 0 |}.

(** The calls that change the monitor, with what the kernel answers
    during each. *)
Inductive monitor_op :=
  | MonInit (k : kernel)
  | MonRegister (thr : option Z) (nm : option string)
  | MonGetStats (cfg : build_config) (k : kernel)
      (stats : option debug_stats_t)
  | MonCheck (cfg : build_config) (k : kernel).

Definition monitor_apply (op : monitor_op) (st : monitor_state)
    : monitor_state :=
  match op with
  | MonInit k => snd (debug_monitor_init k st)
  | MonRegister thr nm => snd (debug_monitor_register_thread thr nm st)
  | MonGetStats cfg k stats =>
      snd (fst (debug_monitor_get_stats cfg k stats st))
  | MonCheck cfg k => snd (debug_monitor_check cfg k st)
  end.

Inductive monitor_reachable : monitor_state -> Prop :=
  | monitor_reach_boot : monitor_reachable monitor_boot
  | monitor_reach_step op st :
      monitor_reachable st -> monitor_reachable (monitor_apply op st).

(** The registry has its four slots, the count stays within them, the
    warning counter is a 32-bit value, and every registered entry has a
    thread and a name. *)
Definition monitor_wf (st : monitor_state) : Prop :=
  length (monitored st) = Z.to_nat MAX_MONITORED_THREADS
  /\ 0 <= monitored_count st <= MAX_MONITORED_THREADS
  /\ 0 <= total_stack_warnings st <= UINT32_MAX
  /\ forall i m, (i < Z.to_nat (monitored_count st))%nat ->
       monitored st !! i = Some m ->
       monitored_thread.thread m <> None /\ monitored_thread.name m <> None.

(** Whether the snapshot loop takes the ML-thread figures from an entry:
    it is named [ml_thread] and its usage can be read. *)
Definition ml_entry_read (cfg : build_config) (k : kernel)
    (m : monitored_thread.t) : bool :=
  is_ml_thread (monitored_thread.name m)
  && match usage_read cfg k m with Some _ => true | None => false end.

(** Concrete data: a build without stack information. *)
Definition bare_build : build_config :=
  {| CONFIG_THREAD_STACK_INFO := false; CONFIG_SCHED_THREAD_USAGE := false |}.

(* ===================================================================== *)
(** * inference.cpp: the statistics functions                             *)
(* ===================================================================== *)

(** [ml_get_stats]; [stats] is the caller's record ([None] for
    [nullptr]), returned with its new contents. *)
Definition ml_get_stats (stats : option ml_stats_t) (st : ml_state)
    : ml_status_t * option ml_stats_t :=
  match stats with
  | None => (ML_STATUS_INVALID_INPUT, None)
  | Some _ => (ML_STATUS_OK, Some (ml_stats st))
  end.

Definition ml_reset_stats (st : ml_state) : ml_state :=
  {| ml_initialized := ml_initialized st;
     use_mock_inference := use_mock_inference st;
     ml_stats := {| inference_count := 0;
                    min_time_us := UINT32_MAX;
                    max_time_us := 0;
                    total_time_us := 0;
                    invoke_failures := 0 |};
     inference_sequence := inference_sequence st;
     input_tensor := input_tensor st |}.

Definition ml_is_ready (st : ml_state) : bool := ml_initialized st.

(* ===================================================================== *)
(** * Notions used to state further properties of inference.cpp           *)
(* ===================================================================== *)

(** The duration [ml_run_inference] derives from the two cycle readings. *)
Definition inference_time (tf : tflite_run) : Z :=
  let cycles := wrap32 (end_time tf - start_time tf) in
  let freq_mhz := wrap32 (hw_cycles_per_sec tf / 1000000) in
  if 0 <? freq_mhz then cycles / freq_mhz else 0.

(** Whether the invocation step of a run succeeds: always on the mock
    path, and as the interpreter says otherwise. *)
Definition run_succeeds (mock : bool) (tf : tflite_run) : bool :=
  mock || invoke_ok tf.

(** The loop of the ML thread as far as the engine goes: one
    [ml_run_inference] per environment, each writing into the same
    result record. *)
Fixpoint run_all (W : Z) (tfs : list tflite_run) (inp : list Z)
    (res : inference_result_t) (st : ml_state)
    : ml_state * inference_result_t :=
  match tfs with
  | [] => (st, res)
  | tf :: tfs' =>
      let '(_, st', r) := ml_run_inference W tf (Some inp) (Some res) st in
      run_all W tfs' inp (default res r) st'
  end.

(** Whether initialisation gets as far as creating the interpreter. *)
Definition model_usable (tf : tflite_setup) : bool :=
  model_loaded tf && model_version_ok tf && op_resolver_ok tf.

(** The position of a label in [class_scores]. *)
Definition index_of_gesture (g : gesture_label_t) : nat :=
  match g with
  | GESTURE_IDLE => 0
  | GESTURE_WAVE => 1
  | GESTURE_TAP => 2
  | GESTURE_CIRCLE => 3
  end.

(** Concrete data: a model that loads and allocates, with a 150-byte
    input tensor; a run of 25000 cycles at 25 MHz whose invocation fails
    or succeeds. *)
Definition good_model : tflite_setup :=
  {| model_loaded := true; model_version_ok := true;
     op_resolver_ok := true; allocate_ok := true;
     input_0 := Some (replicate 150 0); output_0_present := true |}.

Definition timed_run (cycles : Z) (ok : bool) : tflite_run :=
  {| start_time := 4294967000; end_time := wrap32 (4294967000 + cycles);
     hw_cycles_per_sec := 25000000;
     k_uptime_get := 1234; invoke_ok := ok;
     output_int8 := [-128; 90; -100; -120];
     output_scale := F32.lit 390625 8; output_zero_point := -128 |}.

(** The engine's counters hold values of their C types. *)
Definition ml_counters_wf (st : ml_state) : Prop :=
  0 <= inference_count (ml_stats st) <= UINT32_MAX
  /\ 0 <= invoke_failures (ml_stats st) <= UINT32_MAX
  /\ 0 <= total_time_us (ml_stats st) < 2 ^ 64
  /\ 0 <= inference_sequence st <= UINT32_MAX.

(** Concrete data: a model whose tensors cannot be allocated. *)
Definition arena_too_small : tflite_setup :=
  {| model_loaded := true; model_version_ok := true;
     op_resolver_ok := true; allocate_ok := false;
     input_0 := None; output_0_present := false |}.

(** The score the dequantisation loop computes for class [i]. *)
Definition dequantized (tf : tflite_run) (i : nat) : float32 :=
  F32.mul (F32.of_Z (to_int32 (default 0 (output_int8 tf !! i)
                               - output_zero_point tf)))
          (output_scale tf).

(* ===================================================================== *)
(** * mock_accel.c                                                        *)
(* ===================================================================== *)

Definition ENODEV : Z := 19.
Definition ENOTSUP : Z := 134.

(** Conversion to [int16_t] (two's complement). *)
Definition to_int16 (z : Z) : Z := (z + 32768) mod 65536 - 32768.

(** [-f] on floats. *)
Definition F32_neg (f : float32) : float32 := SFopp f.

(** [(int16_t)f]: the conversion to [int] followed by the narrowing
    store.  C defines it only when the truncated value fits [int16_t]. *)
Definition F32_to_int16 (f : float32) : Z := to_int16 (F32.to_int32 f).

(** The Kconfig options of the sensor files. *)
Record sensor_config := {
  CONFIG_SENSOR_USE_MOCK : bool;
  CONFIG_SENSOR_SAMPLE_RATE_HZ : Z;
  CONFIG_SENSOR_MOCK_GESTURE_INTERVAL_MS : Z
}.

(** The values [mock_accel.c] falls back to, with the mock selected. *)
Definition sensor_defaults : sensor_config :=
  {| CONFIG_SENSOR_USE_MOCK := true;
     CONFIG_SENSOR_SAMPLE_RATE_HZ := 100;
     CONFIG_SENSOR_MOCK_GESTURE_INTERVAL_MS := 3000 |}.

Definition GESTURE_DURATION_MS : Z := 500.
Definition NOISE_AMPLITUDE : Z := 100.
Definition GESTURE_AMPLITUDE : Z := 4000.
Definition GRAVITY_OFFSET : Z := 8192.

(** [mock_gesture_t]; the code converts integers to it. *)
Definition MOCK_GESTURE_IDLE : Z := 0.
Definition MOCK_GESTURE_WAVE : Z := 1.
Definition MOCK_GESTURE_TAP : Z := 2.
Definition MOCK_GESTURE_CIRCLE : Z := 3.
Definition MOCK_GESTURE_COUNT : Z := 4.

Module mock_accel.
(** The file's statics. *)
Record state := {
  mock_initialized : bool;
  current_gesture : Z;
  gesture_start_time : Z;
  next_gesture_time : Z;
  gesture_sequence_index : Z;
  last_sample_time : Z
}.

Definition boot : state :=
  {| mock_initialized := false;
     current_gesture := MOCK_GESTURE_IDLE;
     gesture_start_time := 0;
     next_gesture_time := 0;
     gesture_sequence_index := 0;
     last_sample_time := 0 |}.
End mock_accel.

(** The single-precision functions of the C library that the generators
    call. *)
Record libm := {
  sinf : float32 -> float32;
  cosf : float32 -> float32;
  expf : float32 -> float32
}.

(** What the kernel answers during one sensor call. *)
Record sensor_env := {
  (** [k_uptime_get_32()], milliseconds *)
  uptime_ms_32 : Z;
  (** [k_uptime_get()], milliseconds, as [sensor_get_timestamp_us] reads
      it *)
  uptime_ms_64 : Z;
  (** [sys_rand32_get()]: the value of the [i]-th call made during this
      sensor call *)
  sys_rand32_get : nat -> Z
}.

(** [sample_period_us = 1000000 / CONFIG_SENSOR_SAMPLE_RATE_HZ] *)
Definition sample_period_us (cfg : sensor_config) : Z :=
  wrap32 (1000000 / CONFIG_SENSOR_SAMPLE_RATE_HZ cfg).

(** [generate_noise]; [rand_val] is what [sys_rand32_get()] returned.
    The modulus is taken in [uint32_t], the difference in [int]. *)
Definition generate_noise (amplitude : Z) (rand_val : Z) : Z :=
  let noise :=
    to_int32 (to_int32 (rand_val mod wrap32 (2 * amplitude + 1))
              - amplitude) in
  to_int16 noise.

(** [select_next_gesture]: the gesture returned and the new statics. *)
Definition select_next_gesture (st : mock_accel.state)
    : Z * mock_accel.state :=
  let index :=
    wrap32 (mock_accel.gesture_sequence_index st + 1)
    mod wrap32 (MOCK_GESTURE_COUNT - 1) in
  (wrap32 (index + 1),
   {| mock_accel.mock_initialized := mock_accel.mock_initialized st;
      mock_accel.current_gesture := mock_accel.current_gesture st;
      mock_accel.gesture_start_time := mock_accel.gesture_start_time st;
      mock_accel.next_gesture_time := mock_accel.next_gesture_time st;
      mock_accel.gesture_sequence_index := index;
      mock_accel.last_sample_time := mock_accel.last_sample_time st |}).

Definition generate_idle (env : sensor_env) (sample : accel_sample.t)
    : accel_sample.t :=
  {| accel_sample.x := generate_noise NOISE_AMPLITUDE (sys_rand32_get env 0);
     accel_sample.y := generate_noise NOISE_AMPLITUDE (sys_rand32_get env 1);
     accel_sample.z :=
       to_int16 (GRAVITY_OFFSET
                 + generate_noise NOISE_AMPLITUDE (sys_rand32_get env 2));
     accel_sample.timestamp_us := accel_sample.timestamp_us sample |}.

(** [(float)elapsed_ms / GESTURE_DURATION_MS] *)
Definition gesture_progress (elapsed_ms : Z) : float32 :=
  F32.div (F32.of_Z elapsed_ms) (F32.of_Z GESTURE_DURATION_MS).

Definition generate_wave (m : libm) (env : sensor_env)
    (sample : accel_sample.t) (elapsed_ms : Z) : accel_sample.t :=
  let phase :=
    F32.mul (F32.mul (gesture_progress elapsed_ms) (F32.of_Z 4))
            (F32.lit 314159 5) in
  let envelope := F32.sub (F32.of_Z 1) (gesture_progress elapsed_ms) in
  {| accel_sample.x :=
       F32_to_int16
         (F32.mul (F32.mul (sinf m phase) (F32.of_Z GESTURE_AMPLITUDE))
                  envelope);
     accel_sample.y :=
       F32_to_int16
         (F32.mul
            (F32.mul
               (F32.mul (cosf m (F32.mul phase (F32.lit 5 1)))
                        (F32.of_Z GESTURE_AMPLITUDE))
               (F32.lit 3 1))
            envelope);
     accel_sample.z :=
       to_int16 (GRAVITY_OFFSET
                 + generate_noise NOISE_AMPLITUDE (sys_rand32_get env 0));
     accel_sample.timestamp_us := accel_sample.timestamp_us sample |}.

Definition generate_tap (m : libm) (env : sensor_env)
    (sample : accel_sample.t) (elapsed_ms : Z) : accel_sample.t :=
  let t := gesture_progress elapsed_ms in
  let decay := expf m (F32.mul (F32_neg t) (F32.of_Z 8)) in
  let oscillation := sinf m (F32.mul t (F32.of_Z 30)) in
  {| accel_sample.x := generate_noise NOISE_AMPLITUDE (sys_rand32_get env 0);
     accel_sample.y :=
       F32_to_int16
         (F32.mul
            (F32.mul (F32.mul (F32.of_Z GESTURE_AMPLITUDE) (F32.lit 15 1))
                     decay)
            oscillation);
     accel_sample.z :=
       to_int16
         (GRAVITY_OFFSET
          + F32_to_int16
              (F32.mul (F32.mul (F32.of_Z GESTURE_AMPLITUDE) (F32.lit 5 1))
                       decay));
     accel_sample.timestamp_us := accel_sample.timestamp_us sample |}.

Definition generate_circle (m : libm) (env : sensor_env)
    (sample : accel_sample.t) (elapsed_ms : Z) : accel_sample.t :=
  let phase :=
    F32.mul (F32.mul (gesture_progress elapsed_ms) (F32.of_Z 2))
            (F32.lit 314159 5) in
  let envelope :=
    sinf m (F32.mul (gesture_progress elapsed_ms) (F32.lit 314159 5)) in
  {| accel_sample.x :=
       F32_to_int16
         (F32.mul (F32.mul (cosf m phase) (F32.of_Z GESTURE_AMPLITUDE))
                  envelope);
     accel_sample.y :=
       F32_to_int16
         (F32.mul (F32.mul (sinf m phase) (F32.of_Z GESTURE_AMPLITUDE))
                  envelope);
     accel_sample.z :=
       to_int16 (GRAVITY_OFFSET
                 + generate_noise NOISE_AMPLITUDE (sys_rand32_get env 0));
     accel_sample.timestamp_us := accel_sample.timestamp_us sample |}.

Definition mock_accel_init (cfg : sensor_config) (env : sensor_env)
    (st : mock_accel.state) : Z * mock_accel.state :=
  (0,
   {| mock_accel.mock_initialized := true;
      mock_accel.current_gesture := MOCK_GESTURE_IDLE;
      mock_accel.gesture_start_time := 0;
      mock_accel.next_gesture_time :=
        wrap32 (uptime_ms_32 env
                + CONFIG_SENSOR_MOCK_GESTURE_INTERVAL_MS cfg);
      mock_accel.gesture_sequence_index := 0;
      mock_accel.last_sample_time := 0 |}).

(** [mock_accel_read]; [sample] is the caller's record ([None] for
    [NULL]), returned with its new contents. *)
Definition mock_accel_read (cfg : sensor_config) (m : libm)
    (env : sensor_env) (sample : option accel_sample.t)
    (st : mock_accel.state)
    : Z * mock_accel.state * option accel_sample.t :=
  if negb (mock_accel.mock_initialized st) then (- ENODEV, st, sample)
  else
    match sample with
    | None => (- EINVAL, st, None)
    | Some smp =>
        let now := uptime_ms_32 env in
        (* start a new gesture *)
        let st1 :=
          if (mock_accel.current_gesture st =? MOCK_GESTURE_IDLE)
             && (mock_accel.next_gesture_time st <=? now)
          then
            let '(g, st') := select_next_gesture st in
            {| mock_accel.mock_initialized := mock_accel.mock_initialized st';
               mock_accel.current_gesture := g;
               mock_accel.gesture_start_time := now;
               mock_accel.next_gesture_time :=
                 mock_accel.next_gesture_time st';
               mock_accel.gesture_sequence_index :=
                 mock_accel.gesture_sequence_index st';
               mock_accel.last_sample_time :=
                 mock_accel.last_sample_time st' |}
          else st in
        let elapsed_ms := wrap32 (now - mock_accel.gesture_start_time st1) in
        (* the gesture has completed *)
        let st2 :=
          if negb (mock_accel.current_gesture st1 =? MOCK_GESTURE_IDLE)
             && (GESTURE_DURATION_MS <=? elapsed_ms)
          then
            {| mock_accel.mock_initialized := mock_accel.mock_initialized st1;
               mock_accel.current_gesture := MOCK_GESTURE_IDLE;
               mock_accel.gesture_start_time :=
                 mock_accel.gesture_start_time st1;
               mock_accel.next_gesture_time :=
                 wrap32 (now + CONFIG_SENSOR_MOCK_GESTURE_INTERVAL_MS cfg);
               mock_accel.gesture_sequence_index :=
                 mock_accel.gesture_sequence_index st1;
               mock_accel.last_sample_time :=
                 mock_accel.last_sample_time st1 |}
          else st1 in
        let g := mock_accel.current_gesture st2 in
        let smp' :=
          if g =? MOCK_GESTURE_WAVE then generate_wave m env smp elapsed_ms
          else if g =? MOCK_GESTURE_TAP then generate_tap m env smp elapsed_ms
          else if g =? MOCK_GESTURE_CIRCLE
               then generate_circle m env smp elapsed_ms
          else generate_idle env smp in
        (0, st2, Some smp')
    end.

(** [sensor_get_timestamp_us] of [sensor_hal.c] *)
Definition sensor_get_timestamp_us (env : sensor_env) : Z :=
  wrap32 (uptime_ms_64 env * 1000).

Definition mock_accel_data_ready (cfg : sensor_config) (env : sensor_env)
    (st : mock_accel.state) : bool * mock_accel.state :=
  if negb (mock_accel.mock_initialized st) then (false, st)
  else
    let now := sensor_get_timestamp_us env in
    if sample_period_us cfg <=? wrap32 (now - mock_accel.last_sample_time st)
    then
      (true,
       {| mock_accel.mock_initialized := mock_accel.mock_initialized st;
          mock_accel.current_gesture := mock_accel.current_gesture st;
          mock_accel.gesture_start_time := mock_accel.gesture_start_time st;
          mock_accel.next_gesture_time := mock_accel.next_gesture_time st;
          mock_accel.gesture_sequence_index :=
            mock_accel.gesture_sequence_index st;
          mock_accel.last_sample_time := now |})
    else (false, st).

(* ===================================================================== *)
(** * sensor_hal.c                                                        *)
(* ===================================================================== *)

(** [enum sensor_status] *)
Definition SENSOR_STATUS_OK : Z := 0.
Definition SENSOR_STATUS_NOT_INITIALIZED : Z := 1.
Definition SENSOR_STATUS_NOT_READY : Z := 2.
Definition SENSOR_STATUS_ERROR : Z := 3.
Definition SENSOR_STATUS_TIMEOUT : Z := 4.

Module sensor_stats.
(** [struct sensor_stats] *)
Record t := {
  samples_read : Z;
  read_errors : Z;
  avg_sample_rate_hz : Z;
  last_read_time_us : Z
}.

Definition zero : t :=
  {| samples_read := 0; read_errors := 0; avg_sample_rate_hz := 0;
     last_read_time_us := 0 |}.
End sensor_stats.

Module sensor_hal.
(** The file's statics, with those of the mock driver it calls. *)
Record state := {
  initialized : bool;
  stats : sensor_stats.t;
  last_sample_time : Z;
  sample_interval_sum : Z;
  sample_interval_count : Z;
  mock : mock_accel.state
}.

Definition boot : state :=
  {| initialized := false;
     stats := sensor_stats.zero;
     last_sample_time := 0;
     sample_interval_sum := 0;
     sample_interval_count := 0;
     mock := mock_accel.boot |}.
End sensor_hal.

Definition sensor_hal_init (cfg : sensor_config) (env : sensor_env)
    (st : sensor_hal.state) : Z * sensor_hal.state :=
  if sensor_hal.initialized st then (SENSOR_STATUS_OK, st)
  else
    let '(ret, mock') :=
      if CONFIG_SENSOR_USE_MOCK cfg
      then mock_accel_init cfg env (sensor_hal.mock st)
      else (- ENOTSUP, sensor_hal.mock st) in
    if ret =? 0 then
      (SENSOR_STATUS_OK,
       {| sensor_hal.initialized := true;
          sensor_hal.stats := sensor_stats.zero;
          sensor_hal.last_sample_time := sensor_hal.last_sample_time st;
          sensor_hal.sample_interval_sum := sensor_hal.sample_interval_sum st;
          sensor_hal.sample_interval_count :=
            sensor_hal.sample_interval_count st;
          sensor_hal.mock := mock' |})
    else
      (SENSOR_STATUS_ERROR,
       {| sensor_hal.initialized := sensor_hal.initialized st;
          sensor_hal.stats := sensor_hal.stats st;
          sensor_hal.last_sample_time := sensor_hal.last_sample_time st;
          sensor_hal.sample_interval_sum := sensor_hal.sample_interval_sum st;
          sensor_hal.sample_interval_count :=
            sensor_hal.sample_interval_count st;
          sensor_hal.mock := mock' |}).

(** [sensor_hal_read]; [sample] is the caller's record ([None] for
    [NULL]), returned with its new contents. *)
Definition sensor_hal_read (cfg : sensor_config) (m : libm)
    (env : sensor_env) (sample : option accel_sample.t)
    (st : sensor_hal.state)
    : Z * sensor_hal.state * option accel_sample.t :=
  match sample with
  | None => (SENSOR_STATUS_ERROR, st, None)
  | Some smp =>
      if negb (sensor_hal.initialized st)
      then (SENSOR_STATUS_NOT_INITIALIZED, st, Some smp)
      else
        let '(ret, mock', sample') :=
          if CONFIG_SENSOR_USE_MOCK cfg
          then mock_accel_read cfg m env (Some smp) (sensor_hal.mock st)
          else (- ENOTSUP, sensor_hal.mock st, Some smp) in
        let smp' := default smp sample' in
        let s := sensor_hal.stats st in
        if ret =? 0 then
          let now := sensor_get_timestamp_us env in
          (* the running average of the sample interval *)
          let '(rate, sum, cnt) :=
            if 0 <? sensor_hal.last_sample_time st then
              let interval := wrap32 (now - sensor_hal.last_sample_time st) in
              let sum := wrap32 (sensor_hal.sample_interval_sum st
                                 + interval) in
              let cnt := wrap32 (sensor_hal.sample_interval_count st + 1) in
              if 100 <=? cnt then
                let avg_interval := sum / cnt in
                (if 0 <? avg_interval then 1000000 / avg_interval
                 else sensor_stats.avg_sample_rate_hz s,
                 0, 0)
              else (sensor_stats.avg_sample_rate_hz s, sum, cnt)
            else (sensor_stats.avg_sample_rate_hz s,
                  sensor_hal.sample_interval_sum st,
                  sensor_hal.sample_interval_count st) in
          (SENSOR_STATUS_OK,
           {| sensor_hal.initialized := sensor_hal.initialized st;
              sensor_hal.stats :=
                {| sensor_stats.samples_read :=
                     wrap32 (sensor_stats.samples_read s + 1);
                   sensor_stats.read_errors := sensor_stats.read_errors s;
                   sensor_stats.avg_sample_rate_hz := rate;
                   sensor_stats.last_read_time_us := now |};
              sensor_hal.last_sample_time := now;
              sensor_hal.sample_interval_sum := sum;
              sensor_hal.sample_interval_count := cnt;
              sensor_hal.mock := mock' |},
           Some {| accel_sample.x := accel_sample.x smp';
                   accel_sample.y := accel_sample.y smp';
                   accel_sample.z := accel_sample.z smp';
                   accel_sample.timestamp_us := now |})
        else
          (SENSOR_STATUS_ERROR,
           {| sensor_hal.initialized := sensor_hal.initialized st;
              sensor_hal.stats :=
                {| sensor_stats.samples_read := sensor_stats.samples_read s;
                   sensor_stats.read_errors :=
                     wrap32 (sensor_stats.read_errors s + 1);
                   sensor_stats.avg_sample_rate_hz :=
                     sensor_stats.avg_sample_rate_hz s;
                   sensor_stats.last_read_time_us :=
                     sensor_stats.last_read_time_us s |};
              sensor_hal.last_sample_time := sensor_hal.last_sample_time st;
              sensor_hal.sample_interval_sum :=
                sensor_hal.sample_interval_sum st;
              sensor_hal.sample_interval_count :=
                sensor_hal.sample_interval_count st;
              sensor_hal.mock := mock' |},
           Some smp')
  end.

Definition sensor_hal_data_ready (cfg : sensor_config) (env : sensor_env)
    (st : sensor_hal.state) : bool * sensor_hal.state :=
  if negb (sensor_hal.initialized st) then (false, st)
  else if CONFIG_SENSOR_USE_MOCK cfg then
    let '(ready, mock') := mock_accel_data_ready cfg env (sensor_hal.mock st) in
    (ready,
     {| sensor_hal.initialized := sensor_hal.initialized st;
        sensor_hal.stats := sensor_hal.stats st;
        sensor_hal.last_sample_time := sensor_hal.last_sample_time st;
        sensor_hal.sample_interval_sum := sensor_hal.sample_interval_sum st;
        sensor_hal.sample_interval_count :=
          sensor_hal.sample_interval_count st;
        sensor_hal.mock := mock' |})
  else (false, st).

(** [sensor_hal_get_stats]; [out_stats] is the caller's record. *)
Definition sensor_hal_get_stats (out_stats : option sensor_stats.t)
    (st : sensor_hal.state) : Z * option sensor_stats.t :=
  match out_stats with
  | None => (SENSOR_STATUS_ERROR, None)
  | Some _ => (SENSOR_STATUS_OK, Some (sensor_hal.stats st))
  end.

Definition sensor_hal_reset_stats (st : sensor_hal.state)
    : sensor_hal.state :=
  {| sensor_hal.initialized := sensor_hal.initialized st;
     sensor_hal.stats := sensor_stats.zero;
     sensor_hal.last_sample_time := 0;
     sensor_hal.sample_interval_sum := 0;
     sensor_hal.sample_interval_count := 0;
     sensor_hal.mock := sensor_hal.mock st |}.

(* ===================================================================== *)
(** * Notions used to state properties of the sensor files                *)
(* ===================================================================== *)

(** The calls that change the statics of [mock_accel.c], with what the
    kernel answers during each. *)
Inductive mock_op :=
  | MockInit (cfg : sensor_config) (env : sensor_env)
  | MockRead (cfg : sensor_config) (m : libm) (env : sensor_env)
      (sample : option accel_sample.t)
  | MockDataReady (cfg : sensor_config) (env : sensor_env).

Definition mock_apply (op : mock_op) (st : mock_accel.state)
    : mock_accel.state :=
  match op with
  | MockInit cfg env => snd (mock_accel_init cfg env st)
  | MockRead cfg m env sample =>
      snd (fst (mock_accel_read cfg m env sample st))
  | MockDataReady cfg env => snd (mock_accel_data_ready cfg env st)
  end.

Inductive mock_reachable : mock_accel.state -> Prop :=
  | mock_reach_boot : mock_reachable mock_accel.boot
  | mock_reach_step op st :
      mock_reachable st -> mock_reachable (mock_apply op st).

(** The statics after [n] further calls of [select_next_gesture]. *)
Definition after_selections (n : nat) (st : mock_accel.state)
    : mock_accel.state :=
  Nat.iter n (fun s => snd (select_next_gesture s)) st.

(** Every random word is a [uint32_t]. *)
Definition rand_in_range (env : sensor_env) : Prop :=
  forall i, 0 <= sys_rand32_get env i <= UINT32_MAX.

(** The loop of [sensor_thread_fn] as far as the sensor goes: one
    [sensor_hal_read] per environment into the same sample record, the
    return codes collected in call order. *)
Fixpoint sensor_reads (cfg : sensor_config) (m : libm)
    (envs : list sensor_env) (sample : accel_sample.t)
    (st : sensor_hal.state)
    : list Z * sensor_hal.state * accel_sample.t :=
  match envs with
  | [] => ([], st, sample)
  | env :: envs' =>
      let '(ret, st1, s1) := sensor_hal_read cfg m env (Some sample) st in
      let '(rets, st2, s2) :=
        sensor_reads cfg m envs' (default sample s1) st1 in
      (ret :: rets, st2, s2)
  end.

(** Concrete data: a C library whose functions return 0, a kernel at
    [ms] milliseconds of uptime whose random words are all [r], and a
    build without the mock driver. *)
Definition flat_libm : libm :=
  {| sinf := fun _ => F32.zero; cosf := fun _ => F32.zero;
     expf := fun _ => F32.zero |}.

Definition env_at (ms r : Z) : sensor_env :=
  {| uptime_ms_32 := wrap32 ms; uptime_ms_64 := ms;
     sys_rand32_get := fun _ => r |}.

Definition real_sensor_build : sensor_config :=
  {| CONFIG_SENSOR_USE_MOCK := false;
     CONFIG_SENSOR_SAMPLE_RATE_HZ := 100;
     CONFIG_SENSOR_MOCK_GESTURE_INTERVAL_MS := 3000 |}.

(** The statics of the HAL after [k] successful reads taken [p] ms apart,
    the first at [u0] ms of uptime, counted from a fresh
    initialisation: the interval sum and count build up over the first
    100 intervals and are folded into the reported rate by the 101st
    read. *)
Definition hal_paced (u0 p k : Z) (st : sensor_hal.state) : Prop :=
  sensor_hal.initialized st = true
  /\ mock_accel.mock_initialized (sensor_hal.mock st) = true
  /\ sensor_stats.samples_read (sensor_hal.stats st) = k
  /\ sensor_stats.read_errors (sensor_hal.stats st) = 0
  /\ sensor_stats.avg_sample_rate_hz (sensor_hal.stats st)
     = (if k =? 101 then 1000 / p else 0)
  /\ sensor_hal.last_sample_time st
     = (if k =? 0 then 0 else (u0 + (k - 1) * p) * 1000)
  /\ sensor_hal.sample_interval_sum st
     = (if (k =? 0) || (k =? 101) then 0 else 1000 * p * (k - 1))
  /\ sensor_hal.sample_interval_count st
     = (if (k =? 0) || (k =? 101) then 0 else k - 1).

(* ===================================================================== *)
(** * The main file: the ML thread                                        *)
(* ===================================================================== *)

Module ml_thread.
(** What [ml_thread_fn] works on: the statics of the three modules it
    calls and its two locals. *)
Record state := {
  pre : preprocess_state;
  ml : ml_state;
  queue : ring_state;
  input_buffer : list Z;
  result : inference_result_t
}.
End ml_thread.

(** One pass of the loop body of [ml_thread_fn]; [sem_ret] is what
    [k_sem_take] returned. *)
Definition ml_thread_iter (W CAP : Z) (tf : tflite_run) (sem_ret : Z)
    (st : ml_thread.state) : ml_thread.state :=
  if sem_ret =? 0 then
    let '(ret, pre', out) :=
      preprocessing_get_input W (Some (ml_thread.input_buffer st))
        (ML_INPUT_SIZE W) (ml_thread.pre st) in
    let buf := default (ml_thread.input_buffer st) out in
    if ret =? 0 then
      let '(status, ml', res) :=
        ml_run_inference W tf (Some buf) (Some (ml_thread.result st))
          (ml_thread.ml st) in
      let result' := default (ml_thread.result st) res in
      match status with
      | ML_STATUS_OK =>
          {| ml_thread.pre := pre';
             ml_thread.ml := ml';
             ml_thread.queue :=
               snd (result_buffer_push CAP (Some result')
                      (ml_thread.queue st));
             ml_thread.input_buffer := buf;
             ml_thread.result := result' |}
      | _ =>
          {| ml_thread.pre := pre';
             ml_thread.ml := ml';
             ml_thread.queue := ml_thread.queue st;
             ml_thread.input_buffer := buf;
             ml_thread.result := result' |}
      end
    else
      {| ml_thread.pre := pre';
         ml_thread.ml := ml_thread.ml st;
         ml_thread.queue := ml_thread.queue st;
         ml_thread.input_buffer := buf;
         ml_thread.result := ml_thread.result st |}
  else st.

(* ===================================================================== *)
(** * The main file: the debug thread                                     *)
(* ===================================================================== *)

(** One pass of the loop body of [debug_thread_fn] as far as the monitor
    goes: the health check, then the snapshot into the thread's [stats]
    record.  [k1] and [k2] are what the kernel answers during the two
    calls. *)
Definition debug_thread_iter (cfg : build_config) (k1 k2 : kernel)
    (stats : debug_stats_t) (st : monitor_state)
    : Z * monitor_state * debug_stats_t :=
  let '(check_result, st1) := debug_monitor_check cfg k1 st in
  let '(_, st2, out) := debug_monitor_get_stats cfg k2 (Some stats) st1 in
  (check_result, st2, default stats out).
(* ===================================================================== *)
(** * Properties of timing.c                                              *)
(* ===================================================================== *)

Lemma wrap32_small (v : Z) : 0 <= v <= UINT32_MAX -> wrap32 v = v.
Proof. unfold wrap32, UINT32_MAX. intros H. apply Z.mod_small. lia. Qed.

Lemma wrap32_range (v : Z) : 0 <= wrap32 v <= UINT32_MAX.
Proof.
  unfold wrap32, UINT32_MAX.
  pose proof (Z.mod_pos_bound v (2 ^ 32) ltac:(lia)). lia.
Qed.

Lemma profile_timing_init_positive (freq : Z) :
  0 < cycles_per_us (profile_timing_init freq timing_boot).
Proof.
  unfold profile_timing_init; simpl.
  destruct (Z.eqb_spec (wrap32 freq / 1000000) 0) as [|Hne]; simpl; [lia|].
  pose proof (wrap32_range freq) as [Hlo _].
  pose proof (Z.div_pos (wrap32 freq) 1000000 Hlo ltac:(lia)). lia.
Qed.

(** C9.  For every pair of 32-bit cycle counts, the elapsed-cycles value
    of [profile_timing_end] is [(end - start) mod 2^32], also when the
    counter wrapped and [end < start]; the function returns that value
    divided by [cycles_per_us] when the factor is positive (which it is
    after [profile_timing_init]), and the value itself otherwise. *)
Theorem profile_timing_end_wraparound
    (st : timing_state) (start_cycles end_cycles : Z) :
  0 <= start_cycles <= UINT32_MAX ->
  0 <= end_cycles <= UINT32_MAX ->
  elapsed_cycles end_cycles start_cycles
  = (end_cycles - start_cycles) mod 2 ^ 32
  /\ (0 < cycles_per_us st ->
      profile_timing_end st end_cycles start_cycles
      = ((end_cycles - start_cycles) mod 2 ^ 32) / cycles_per_us st)
  /\ (cycles_per_us st <= 0 ->
      profile_timing_end st end_cycles start_cycles
      = (end_cycles - start_cycles) mod 2 ^ 32)
  /\ (forall freq,
      profile_timing_end (profile_timing_init freq timing_boot)
                         end_cycles start_cycles
      = ((end_cycles - start_cycles) mod 2 ^ 32)
        / cycles_per_us (profile_timing_init freq timing_boot)).
Proof.
  intros Hs He.
  assert (Hel : elapsed_cycles end_cycles start_cycles
                = (end_cycles - start_cycles) mod 2 ^ 32).
  { unfold elapsed_cycles.
    destruct (Z.leb_spec start_cycles end_cycles) as [Hle|Hlt].
    - reflexivity.
    - rewrite (wrap32_small (UINT32_MAX - start_cycles)) by lia.
      rewrite (wrap32_small (UINT32_MAX - start_cycles + end_cycles)) by lia.
      unfold wrap32, UINT32_MAX.
      replace (4294967295 - start_cycles + end_cycles + 1)
        with (end_cycles - start_cycles + 1 * 2 ^ 32) by lia.
      apply Z.mod_add. lia. }
  assert (Hpos : forall t, 0 < cycles_per_us t ->
            profile_timing_end t end_cycles start_cycles
            = ((end_cycles - start_cycles) mod 2 ^ 32) / cycles_per_us t).
  { intros t Ht. unfold profile_timing_end. rewrite Hel.
    destruct (Z.ltb_spec 0 (cycles_per_us t)); [reflexivity | lia]. }
  repeat split.
  - exact Hel.
  - apply Hpos.
  - intros Hle. unfold profile_timing_end. rewrite Hel.
    destruct (Z.ltb_spec 0 (cycles_per_us st)); [lia | reflexivity].
  - intros freq. apply Hpos, profile_timing_init_positive.
Qed.

(** The counter wrapped between the two reads: 11 cycles elapsed. *)
Lemma profile_timing_end_wraparound_witness :
  elapsed_cycles 5 4294967290 = 11
  /\ profile_timing_end (profile_timing_init 25000000 timing_boot) 5 4294967290
     = 0.
Proof.
  pose proof (profile_timing_end_wraparound
                (profile_timing_init 25000000 timing_boot) 4294967290 5
                ltac:(unfold UINT32_MAX; lia) ltac:(unfold UINT32_MAX; lia))
    as [H1 [_ [_ H4]]].
  split.
  - rewrite H1. reflexivity.
  - rewrite (H4 25000000). reflexivity.
Defined.

(* ===================================================================== *)
(** * Properties of preprocessing.c: reading a window                     *)
(* ===================================================================== *)

Lemma clamp_int8_range (q : Z) : -128 <= clamp_int8 q <= 127.
Proof.
  unfold clamp_int8.
  destruct (Z.ltb_spec q (-128)); [lia|].
  destruct (Z.ltb_spec 127 q); lia.
Qed.

Lemma to_int8_small (v : Z) : -128 <= v <= 127 -> to_int8 v = v.
Proof. intros H. unfold to_int8. rewrite Z.mod_small by lia. lia. Qed.

Lemma quantize_clamp (v : Z) (dc : float32) :
  quantize v dc = clamp_int8 (scaled v dc).
Proof. unfold quantize. apply to_int8_small, clamp_int8_range. Qed.

Section QuantizeLoop.
Variable st : preprocess_state.
Variable out : list Z.

(** What the conversion loop has done after [n] rounds: the next store
    goes to [3 n], the array kept its length, every slot below [3 n]
    holds the quantised axis it stands for, and the slots from [3 n] on
    are untouched. *)
Lemma quantize_loop_inv (n : nat) :
  (3 * n <= length out)%nat ->
  let r := fold_left (quantize_step st) (seq 0 n) (O, out) in
  fst r = (3 * n)%nat
  /\ length (snd r) = length out
  /\ (forall i c, (i < n)%nat -> (c < 3)%nat ->
        snd r !! (3 * i + c)%nat
        = Some (quantize (channel c (window_at st i)) (dc_at st c)))
  /\ (forall j, (3 * n <= j)%nat -> snd r !! j = out !! j).
Proof.
  induction n as [|n IH]; intros Hlen.
  - simpl. split; [reflexivity|]. split; [reflexivity|].
    split; [intros; lia | reflexivity].
  - rewrite seq_S, fold_left_app. simpl.
    destruct (fold_left (quantize_step st) (seq 0 n) (O, out)) as [idx o].
    destruct (IH ltac:(lia)) as (Hidx & Hl & Hdone & Hrest).
    simpl in Hidx, Hl, Hdone, Hrest. subst idx.
    unfold quantize_step. cbn [fst snd].
    repeat split.
    + lia.
    + rewrite !length_insert. exact Hl.
    + intros i c Hi Hc.
      destruct (decide (i = n)) as [->|Hne].
      * destruct c as [|[|[|c]]]; [| | |lia].
        -- rewrite list_lookup_insert_ne by lia.
           rewrite list_lookup_insert_ne by lia.
           rewrite Nat.add_0_r.
           rewrite list_lookup_insert_eq by lia. reflexivity.
        -- rewrite list_lookup_insert_ne by lia.
           rewrite list_lookup_insert_eq by (rewrite length_insert; lia).
           reflexivity.
        -- rewrite list_lookup_insert_eq by (rewrite !length_insert; lia).
           reflexivity.
      * rewrite !list_lookup_insert_ne by lia.
        apply Hdone; lia.
    + intros j Hj.
      rewrite !list_lookup_insert_ne by lia.
      apply Hrest; lia.
Qed.
End QuantizeLoop.

(** A successful read, spelled out: the state only loses its ready flag
    and the caller's array holds the quantised window. *)
Lemma preprocessing_get_input_ok (W : Z) (out : list Z) (output_size : Z)
    (st : preprocess_state) :
  ML_INPUT_SIZE W <= output_size ->
  window_ready st = true ->
  preprocessing_get_input W (Some out) output_size st
  = (0,
     {| sample_window := sample_window st;
        window_pos := window_pos st;
        window_ready := false;
        dc_offset := dc_offset st;
        initialized := initialized st |},
     Some (snd (fold_left (quantize_step st) (seq 0 (Z.to_nat W)) (O, out)))).
Proof.
  intros Hsz Hr. unfold preprocessing_get_input.
  destruct (Z.ltb_spec output_size (ML_INPUT_SIZE W)); [lia|].
  rewrite Hr. simpl.
  destruct (fold_left _ _ _) as [idx o]. reflexivity.
Qed.

(** The three ways [preprocessing_get_input] returns on a non-null
    array. *)
Lemma preprocessing_get_input_cases (W : Z) (out : list Z) (output_size : Z)
    (st : preprocess_state) :
  (output_size < ML_INPUT_SIZE W
   /\ preprocessing_get_input W (Some out) output_size st
      = (- ENOSPC, st, Some out))
  \/ (ML_INPUT_SIZE W <= output_size /\ window_ready st = false
      /\ preprocessing_get_input W (Some out) output_size st
         = (- EAGAIN, st, Some out))
  \/ (ML_INPUT_SIZE W <= output_size /\ window_ready st = true
      /\ exists st' out',
           preprocessing_get_input W (Some out) output_size st
           = (0, st', Some out')).
Proof.
  destruct (Z.lt_ge_cases output_size (ML_INPUT_SIZE W)) as [Hlt|Hge].
  - left. split; [exact Hlt|]. unfold preprocessing_get_input.
    destruct (Z.ltb_spec output_size (ML_INPUT_SIZE W)); [reflexivity | lia].
  - right. destruct (window_ready st) eqn:Hr.
    + right. repeat split; [exact Hge|].
      rewrite preprocessing_get_input_ok by assumption. eauto.
    + left. repeat split; [exact Hge|]. unfold preprocessing_get_input.
      destruct (Z.ltb_spec output_size (ML_INPUT_SIZE W)); [lia|].
      rewrite Hr. reflexivity.
Qed.

(** C7.  Every value that a successful [preprocessing_get_input] stores is
    the stored sample's axis minus the channel's DC estimate, times
    [QUANT_SCALE], clamped by saturation: it lies in [[-128, 127]], a
    scaled value below the range gives -128, one above gives 127, one
    inside is kept, and the final store as [int8_t] changes nothing. *)
Theorem preprocessing_get_input_saturates
    (W : Z) (out : list Z) (output_size : Z) (st st' : preprocess_state)
    (out' : list Z) :
  output_size = Z.of_nat (length out) ->
  preprocessing_get_input W (Some out) output_size st = (0, st', Some out') ->
  forall i c, (i < Z.to_nat W)%nat -> (c < 3)%nat ->
    let q := F32.to_int32
               (F32.mul (F32.sub (F32.of_Z (channel c (window_at st i)))
                                 (dc_at st c))
                        QUANT_SCALE) in
    exists v,
      out' !! (3 * i + c)%nat = Some v
      /\ -128 <= v <= 127
      /\ (q < -128 -> v = -128)
      /\ (127 < q -> v = 127)
      /\ (-128 <= q <= 127 -> v = q).
Proof.
  intros Hsize Hrun i c Hi Hc q.
  destruct (preprocessing_get_input_cases W out output_size st)
    as [[_ E]|[(_ & _ & E)|(Hge & Hr & _)]];
    [rewrite E in Hrun; discriminate | rewrite E in Hrun; discriminate |].
  rewrite preprocessing_get_input_ok in Hrun by assumption.
  injection Hrun as _ Hout.
  assert (Hlen : (3 * Z.to_nat W <= length out)%nat).
  { unfold ML_INPUT_SIZE, ML_INPUT_AXES in Hge. lia. }
  destruct (quantize_loop_inv st out (Z.to_nat W) Hlen) as (_ & _ & Hdone & _).
  rewrite Hout in Hdone.
  exists (clamp_int8 q). split.
  - rewrite (Hdone i c Hi Hc), quantize_clamp. reflexivity.
  - split; [apply clamp_int8_range|].
    unfold clamp_int8.
    destruct (Z.ltb_spec q (-128)); destruct (Z.ltb_spec 127 q);
      repeat split; intros; lia.
Qed.

(** A window of two samples whose first one sits at the ends of the
    [int16_t] range: its X axis scales to 246 and is stored as 127. *)
Lemma preprocessing_get_input_saturates_witness :
  let W := 2 in
  let st :=
    snd (add_samples W [extreme_sample; jolt_sample]
           (preprocessing_init W (preprocess_boot W))) in
  let out := replicate 6 0 in
  let q := F32.to_int32
             (F32.mul (F32.sub (F32.of_Z (channel 0 (window_at st 0)))
                               (dc_at st 0))
                      QUANT_SCALE) in
  q = 246
  /\ exists st',
       preprocessing_get_input W (Some out) 6 st
       = (0, st', Some [127; -128; 3; -100; 78; -60])
       /\ exists v,
            [127; -128; 3; -100; 78; -60] !! (3 * 0 + 0)%nat = Some v
            /\ -128 <= v <= 127
            /\ (q < -128 -> v = -128)
            /\ (127 < q -> v = 127)
            /\ (-128 <= q <= 127 -> v = q).
Proof.
  intros W st out q. split; [vm_compute; reflexivity|].
  eexists. split; [vm_compute; reflexivity|].
  refine (preprocessing_get_input_saturates W out 6 st _ _ eq_refl _
            0%nat 0%nat _ _).
  - vm_compute; reflexivity.
  - simpl; lia.
  - lia.
Defined.

(** C6.  [preprocessing_get_input] returns [-ENOSPC] when the array is
    smaller than [ML_INPUT_SIZE] and [-EAGAIN] when the array is large
    enough but no window is ready (the size is tested first); every
    failure, the null pointer included, leaves the stored window, the
    write position, the ready flag and the caller's array as they were;
    the call returns 0 exactly when a window is ready and the array is
    large enough, and then clears the ready flag and nothing else. *)
Theorem preprocessing_get_input_errors
    (W : Z) (out : list Z) (output_size : Z) (st : preprocess_state) :
  let '(ret, st', out') :=
    preprocessing_get_input W (Some out) output_size st in
  (output_size < ML_INPUT_SIZE W -> ret = - ENOSPC)
  /\ (ML_INPUT_SIZE W <= output_size -> window_ready st = false ->
      ret = - EAGAIN)
  /\ (ret <> 0 -> st' = st /\ out' = Some out)
  /\ (ret = 0 <-> window_ready st = true /\ ML_INPUT_SIZE W <= output_size)
  /\ (ret = 0 ->
      window_ready st' = false
      /\ sample_window st' = sample_window st
      /\ window_pos st' = window_pos st
      /\ dc_offset st' = dc_offset st
      /\ initialized st' = initialized st)
  /\ preprocessing_get_input W None output_size st = (- EINVAL, st, None).
Proof.
  destruct (preprocessing_get_input_cases W out output_size st)
    as [[Hlt E]|[(Hge & Hr & E)|(Hge & Hr & _)]].
  - rewrite E. unfold ENOSPC.
    repeat split; try reflexivity; intros; lia.
  - rewrite E. unfold EAGAIN.
    repeat split; try reflexivity; intros; try lia.
    destruct H; congruence.
  - rewrite preprocessing_get_input_ok by assumption.
    repeat split; try reflexivity; try assumption; intros; try lia.
    congruence.
Qed.

(* ===================================================================== *)
(** * Properties of ring_buffer.c                                         *)
(* ===================================================================== *)

Section RingBuffer.
Variable CAP : Z.
Hypothesis CAP_range : 0 < CAP <= UINT32_MAX.

Lemma mod_CAP_range (a : Z) : 0 <= a mod CAP < CAP.
Proof. apply Z.mod_pos_bound. lia. Qed.

Lemma succ_mod_CAP (a : Z) :
  0 <= a < CAP -> wrap32 (a + 1) mod CAP = (a + 1) mod CAP.
Proof. intros H. rewrite wrap32_small by lia. reflexivity. Qed.

(** Two slots less than a full turn apart are different slots. *)
Lemma slot_apart (t i j : Z) :
  0 <= i < j -> j < i + CAP -> (t + i) mod CAP <> (t + j) mod CAP.
Proof.
  intros Hij Hj Heq.
  assert (Hd : (j - i) mod CAP = 0).
  { replace (j - i) with ((t + j) - (t + i)) by lia.
    rewrite Zminus_mod, Heq, Z.sub_diag. apply Z.mod_0_l. lia. }
  rewrite Z.mod_small in Hd by lia. lia.
Qed.

Lemma rb_wf_init : rb_wf CAP (result_buffer_init CAP).
Proof.
  unfold rb_wf, rb_invariant, result_buffer_init; simpl.
  rewrite length_replicate, Z.mod_0_l by lia. lia.
Qed.

Lemma rb_wf_head (s : ring_state) : rb_wf CAP s -> 0 <= head s < CAP.
Proof. intros (_ & _ & _ & ->). apply mod_CAP_range. Qed.

(** A push into a queue that is not full. *)
Lemma push_not_full (r : inference_result_t) (s : ring_state) :
  rb_wf CAP s -> count s < CAP ->
  result_buffer_push CAP (Some r) s
  = (0, {| buffer := <[Z.to_nat (head s) := r]> (buffer s);
           head := (head s + 1) mod CAP;
           tail := tail s;
           count := count s + 1 |}).
Proof.
  intros Hwf Hc. pose proof (rb_wf_head s Hwf) as Hh.
  destruct Hwf as (_ & _ & Hcnt & _).
  unfold result_buffer_push.
  destruct (Z.leb_spec CAP (count s)); [lia|].
  rewrite succ_mod_CAP by lia. rewrite (wrap32_small (count s + 1)) by lia.
  reflexivity.
Qed.

(** A push into a full queue: the slot at [tail] is given up first. *)
Lemma push_full (r : inference_result_t) (s : ring_state) :
  rb_wf CAP s -> count s = CAP ->
  result_buffer_push CAP (Some r) s
  = (0, {| buffer := <[Z.to_nat (head s) := r]> (buffer s);
           head := (head s + 1) mod CAP;
           tail := (tail s + 1) mod CAP;
           count := CAP |}).
Proof.
  intros Hwf Hc. pose proof (rb_wf_head s Hwf) as Hh.
  destruct Hwf as (_ & Ht & _ & _).
  unfold result_buffer_push.
  destruct (Z.leb_spec CAP (count s)); [|lia]. cbn [buffer head tail count].
  rewrite !succ_mod_CAP by lia. rewrite Hc.
  rewrite (wrap32_small (CAP - 1)) by lia.
  rewrite wrap32_small by lia.
  f_equal. f_equal. lia.
Qed.

Lemma pop_nonempty (d : inference_result_t) (s : ring_state) :
  rb_wf CAP s -> 0 < count s ->
  result_buffer_pop CAP (Some d) s
  = (0, {| buffer := buffer s;
           head := head s;
           tail := (tail s + 1) mod CAP;
           count := count s - 1 |},
     Some (buffer_at s (tail s))).
Proof.
  intros (_ & Ht & Hcnt & _) Hc. unfold result_buffer_pop.
  destruct (Z.eqb_spec (count s) 0); [lia|].
  rewrite succ_mod_CAP by lia. rewrite (wrap32_small (count s - 1)) by lia.
  reflexivity.
Qed.

Lemma pop_empty (d : inference_result_t) (s : ring_state) :
  count s = 0 -> result_buffer_pop CAP (Some d) s = (- EAGAIN, s, Some d).
Proof. intros Hc. unfold result_buffer_pop. rewrite Hc. reflexivity. Qed.

Lemma rb_wf_push (r : option inference_result_t) (s : ring_state) :
  rb_wf CAP s -> rb_wf CAP (snd (result_buffer_push CAP r s)).
Proof.
  intros Hwf. destruct r as [r|]; [|exact Hwf].
  pose proof (rb_wf_head s Hwf) as Hh.
  pose proof Hwf as (Hlen & Ht & Hcnt & Hhead).
  destruct (Z.eq_dec (count s) CAP) as [Hfull|Hnf].
  - rewrite push_full by assumption.
    unfold rb_wf, rb_invariant; cbn [snd buffer head tail count].
    rewrite length_insert.
    repeat split; try lia; try apply mod_CAP_range.
    rewrite Hhead, Hfull.
    rewrite Z.add_mod_idemp_l by lia.
    rewrite <- Z.add_assoc, (Z.add_comm CAP 1), Z.add_assoc.
    replace (tail s + 1 + CAP) with (tail s + 1 + 1 * CAP) by lia.
    rewrite Z.mod_add by lia.
    replace ((tail s + 1) mod CAP + CAP)
      with ((tail s + 1) mod CAP + 1 * CAP) by lia.
    rewrite Z.mod_add by lia. rewrite Z.mod_mod by lia. reflexivity.
  - rewrite push_not_full by (assumption || lia).
    unfold rb_wf, rb_invariant; cbn [snd buffer head tail count].
    rewrite length_insert.
    repeat split; try lia.
    rewrite Hhead, Z.add_mod_idemp_l by lia. f_equal. lia.
Qed.

Lemma rb_wf_pop (d : option inference_result_t) (s : ring_state) :
  rb_wf CAP s -> rb_wf CAP (snd (fst (result_buffer_pop CAP d s))).
Proof.
  intros Hwf. destruct d as [d|]; [|exact Hwf].
  pose proof Hwf as (Hlen & Ht & Hcnt & Hhead).
  destruct (Z.eq_dec (count s) 0) as [He|Hne].
  - rewrite pop_empty by assumption. exact Hwf.
  - rewrite pop_nonempty by (assumption || lia).
    unfold rb_wf, rb_invariant; cbn [fst snd buffer head tail count].
    repeat split; try lia; try apply mod_CAP_range.
    rewrite Hhead, Z.add_mod_idemp_l by lia. f_equal. lia.
Qed.

Lemma rb_wf_apply (op : rb_op) (s : ring_state) :
  rb_wf CAP s -> rb_wf CAP (rb_apply CAP op s).
Proof.
  destruct op; simpl; intros Hwf;
    [apply rb_wf_init | apply rb_wf_push, Hwf | apply rb_wf_pop, Hwf].
Qed.

Lemma rb_reachable_wf (s : ring_state) : rb_reachable CAP s -> rb_wf CAP s.
Proof.
  induction 1 as [|op s _ IH]; [apply rb_wf_init | apply rb_wf_apply, IH].
Qed.
End RingBuffer.

Lemma keep_last_short {A : Type} (n : nat) (l : list A) :
  (length l <= n)%nat -> keep_last n l = l.
Proof.
  intros H. unfold keep_last.
  replace (length l - n)%nat with O by lia. reflexivity.
Qed.

Lemma keep_last_length {A : Type} (n : nat) (l : list A) :
  length (keep_last n l) = Nat.min n (length l).
Proof. unfold keep_last. rewrite length_drop. lia. Qed.

(** Keeping the last [n] after every append is keeping the last [n] once
    at the end. *)
Lemma keep_last_app {A : Type} (n : nat) (l rs : list A) :
  keep_last n (keep_last n l ++ rs) = keep_last n (l ++ rs).
Proof.
  destruct (Nat.le_gt_cases (length l) n) as [Hle|Hgt].
  - rewrite (keep_last_short n l Hle). reflexivity.
  - unfold keep_last at 1 3.
    rewrite !length_app, keep_last_length.
    unfold keep_last.
    replace (Nat.min n (length l) + length rs - n)%nat with (length rs) by lia.
    replace (length l + length rs - n)%nat
      with ((length l - n) + length rs)%nat by lia.
    rewrite <- drop_drop.
    rewrite (drop_app_le l rs (length l - n)) by lia.
    reflexivity.
Qed.

Lemma fmap_seq_cons {A : Type} (f : nat -> A) (m : nat) :
  f <$> seq 0 (S m) = f O :: ((fun i => f (S i)) <$> seq 0 m).
Proof.
  rewrite <- cons_seq, fmap_cons, <- fmap_S_seq, <- list_fmap_compose.
  reflexivity.
Qed.

Section RingBufferContents.
Variable CAP : Z.
Hypothesis CAP_range : 0 < CAP <= UINT32_MAX.

Lemma rb_contents_length (s : ring_state) :
  length (rb_contents CAP s) = Z.to_nat (count s).
Proof. unfold rb_contents. rewrite length_fmap, length_seq. reflexivity. Qed.

(** Reading a slot after a store into slot [h]. *)
Lemma buffer_at_insert (b : list inference_result_t) (h' t' c' : Z)
    (h k : Z) (r : inference_result_t) :
  0 <= h < Z.of_nat (length b) -> 0 <= k ->
  buffer_at {| buffer := <[Z.to_nat h := r]> b;
               head := h'; tail := t'; count := c' |} k
  = if decide (h = k) then r
    else default zero_result (b !! Z.to_nat k).
Proof.
  intros Hh Hk. unfold buffer_at; cbn [buffer].
  destruct (decide (h = k)) as [->|Hne].
  - rewrite list_lookup_insert_eq by lia. reflexivity.
  - rewrite list_lookup_insert_ne by lia. reflexivity.
Qed.

Lemma push_contents_not_full (r : inference_result_t) (s : ring_state) :
  rb_wf CAP s -> count s < CAP ->
  rb_contents CAP (snd (result_buffer_push CAP (Some r) s))
  = rb_contents CAP s ++ [r].
Proof.
  intros Hwf Hc. pose proof (rb_wf_head CAP CAP_range s Hwf) as Hh.
  pose proof Hwf as (Hlen & Ht & Hcnt & Hhead).
  rewrite push_not_full by assumption.
  unfold rb_contents; cbn [snd tail count].
  replace (Z.to_nat (count s + 1)) with (S (Z.to_nat (count s))) by lia.
  rewrite seq_S, fmap_app. f_equal.
  - apply list_fmap_ext. intros i j Hj.
    apply lookup_seq in Hj as [Hji Hlt]. simpl in Hji. simpl.
    rewrite buffer_at_insert
      by (try lia;
          pose proof (mod_CAP_range CAP CAP_range (tail s + Z.of_nat j)); lia).
    destruct (decide _) as [Heq|_]; [|reflexivity].
    exfalso. rewrite Hhead in Heq.
    apply (slot_apart CAP CAP_range (tail s) (Z.of_nat j) (count s));
      [lia | lia | auto].
  - simpl. f_equal.
    rewrite buffer_at_insert
      by (try lia;
          pose proof (mod_CAP_range CAP CAP_range
                        (tail s + Z.of_nat (Z.to_nat (count s)))); lia).
    destruct (decide _) as [_|Hne]; [reflexivity|].
    exfalso. apply Hne. rewrite Hhead. f_equal. lia.
Qed.

Lemma push_contents_full (r : inference_result_t) (s : ring_state) :
  rb_wf CAP s -> count s = CAP ->
  rb_contents CAP (snd (result_buffer_push CAP (Some r) s))
  = drop 1 (rb_contents CAP s) ++ [r].
Proof.
  intros Hwf Hc. pose proof (rb_wf_head CAP CAP_range s Hwf) as Hh.
  pose proof Hwf as (Hlen & Ht & Hcnt & Hhead).
  assert (Hht : head s = tail s).
  { rewrite Hhead, Hc.
    replace (tail s + CAP) with (tail s + 1 * CAP) by lia.
    rewrite Z.mod_add by lia. apply Z.mod_small. lia. }
  rewrite push_full by assumption.
  unfold rb_contents; cbn [snd tail count]. rewrite Hc.
  destruct (Z.to_nat CAP) as [|m] eqn:Hm; [lia|].
  rewrite (fmap_seq_cons (fun i => buffer_at s _)). cbn [drop].
  rewrite seq_S, fmap_app.
  f_equal.
  - apply list_fmap_ext. intros i j Hj.
    apply lookup_seq in Hj as [Hji Hlt]. simpl in Hji. simpl.
    rewrite Z.add_mod_idemp_l by lia.
    replace (tail s + 1 + Z.of_nat j) with (tail s + Z.of_nat (S j)) by lia.
    rewrite buffer_at_insert
      by (try lia;
          pose proof (mod_CAP_range CAP CAP_range (tail s + Z.of_nat (S j)));
          lia).
    destruct (decide _) as [Heq|_]; [|reflexivity].
    exfalso. rewrite Hht in Heq.
    apply (slot_apart CAP CAP_range (tail s) 0 (Z.of_nat (S j)));
      [lia | lia |].
    rewrite <- Heq, Z.add_0_r. apply Z.mod_small. lia.
  - simpl. f_equal.
    rewrite Z.add_mod_idemp_l by lia.
    replace (tail s + 1 + Z.of_nat m) with (tail s + 1 * CAP) by lia.
    rewrite Z.mod_add by lia. rewrite (Z.mod_small (tail s)) by lia.
    rewrite buffer_at_insert by lia.
    destruct (decide _); [reflexivity | congruence].
Qed.

(** One push keeps the newest [CAP] of the old entries followed by the
    new one. *)
Lemma push_contents (r : inference_result_t) (s : ring_state) :
  rb_wf CAP s ->
  rb_contents CAP (snd (result_buffer_push CAP (Some r) s))
  = keep_last (Z.to_nat CAP) (rb_contents CAP s ++ [r]).
Proof.
  intros Hwf. pose proof Hwf as (_ & _ & Hcnt & _).
  pose proof (rb_contents_length s) as Hl.
  destruct (Z.eq_dec (count s) CAP) as [Hfull|Hnf].
  - rewrite push_contents_full by assumption.
    unfold keep_last. rewrite length_app, Hl, Hfull. simpl.
    replace (Z.to_nat CAP + 1 - Z.to_nat CAP)%nat with 1%nat by lia.
    rewrite drop_app_le by lia. reflexivity.
  - rewrite push_contents_not_full by (assumption || lia).
    rewrite keep_last_short; [reflexivity|].
    rewrite length_app, Hl. simpl. lia.
Qed.

Lemma push_ret (r : inference_result_t) (s : ring_state) :
  fst (result_buffer_push CAP (Some r) s) = 0.
Proof. reflexivity. Qed.

(** Pushing a list: every call returns 0 and the queue ends up holding
    the newest [CAP] of its old entries followed by the list. *)
Lemma push_all_contents (rs : list inference_result_t) (s : ring_state) :
  rb_wf CAP s ->
  fst (push_all CAP rs s) = replicate (length rs) 0
  /\ rb_wf CAP (snd (push_all CAP rs s))
  /\ rb_contents CAP (snd (push_all CAP rs s))
     = keep_last (Z.to_nat CAP) (rb_contents CAP s ++ rs).
Proof.
  revert s. induction rs as [|r rs IH]; intros s Hwf.
  - simpl. rewrite app_nil_r, keep_last_short
      by (rewrite rb_contents_length; destruct Hwf as (_ & _ & ? & _); lia).
    auto.
  - cbn [push_all].
    destruct (result_buffer_push CAP (Some r) s) as [ret s1] eqn:Hp.
    assert (Hret : ret = 0)
      by (pose proof (push_ret r s) as E; rewrite Hp in E; exact E).
    assert (Hs1 : s1 = snd (result_buffer_push CAP (Some r) s))
      by (rewrite Hp; reflexivity).
    assert (Hwf1 : rb_wf CAP s1)
      by (rewrite Hs1; apply rb_wf_push; assumption).
    destruct (IH s1 Hwf1) as (Hrets & Hwf2 & Hcont).
    destruct (push_all CAP rs s1) as [rets s2]. cbn [fst snd] in *.
    subst ret. rewrite Hrets. split; [reflexivity|]. split; [exact Hwf2|].
    rewrite Hcont, Hs1, push_contents by assumption.
    rewrite keep_last_app, <- app_assoc. reflexivity.
Qed.

Lemma pop_contents (d : inference_result_t) (s : ring_state) :
  rb_wf CAP s -> 0 < count s ->
  exists s',
    result_buffer_pop CAP (Some d) s = (0, s', Some (buffer_at s (tail s)))
    /\ rb_wf CAP s'
    /\ rb_contents CAP s = buffer_at s (tail s) :: rb_contents CAP s'.
Proof.
  intros Hwf Hc. pose proof Hwf as (Hlen & Ht & Hcnt & Hhead).
  eexists. split; [apply pop_nonempty; assumption|]. split.
  - pose proof (rb_wf_pop CAP CAP_range (Some d) s Hwf) as H.
    rewrite pop_nonempty in H by assumption. exact H.
  - unfold rb_contents; cbn [tail count buffer].
    destruct (Z.to_nat (count s)) as [|m] eqn:Hm; [lia|].
    replace (Z.to_nat (count s - 1)) with m by lia.
    rewrite fmap_seq_cons. f_equal.
    + rewrite Z.add_0_r, Z.mod_small by lia. reflexivity.
    + apply list_fmap_ext. intros i j _. simpl.
      unfold buffer_at; cbn [buffer].
      rewrite Z.add_mod_idemp_l by lia.
      replace (tail s + 1 + Z.of_nat j) with (tail s + Z.of_nat (S j)) by lia.
      reflexivity.
Qed.

(** Popping [n] of the entries yields them oldest first, each with
    return code 0. *)
Lemma pop_n_contents (n : nat) (d : inference_result_t) (s : ring_state) :
  rb_wf CAP s -> (n <= Z.to_nat (count s))%nat ->
  fst (pop_n CAP n d s) = (fun r => (0, r)) <$> take n (rb_contents CAP s)
  /\ rb_wf CAP (snd (pop_n CAP n d s))
  /\ rb_contents CAP (snd (pop_n CAP n d s)) = drop n (rb_contents CAP s).
Proof.
  revert d s. induction n as [|n IH]; intros d s Hwf Hn.
  - simpl. rewrite drop_0. auto.
  - destruct (pop_contents d s Hwf ltac:(lia)) as (s1 & Hpop & Hwf1 & Hc).
    cbn [pop_n]. rewrite Hpop.
    assert (Hn1 : (n <= Z.to_nat (count s1))%nat).
    { pose proof (rb_contents_length s) as L.
      pose proof (rb_contents_length s1) as L1.
      rewrite Hc in L. simpl in L. lia. }
    destruct (IH (buffer_at s (tail s)) s1 Hwf1 Hn1) as (Houts & Hwf2 & Hcont).
    destruct (pop_n CAP n (buffer_at s (tail s)) s1) as [outs s2].
    cbn [fst snd] in *.
    rewrite Hc. cbn [take drop]. rewrite fmap_cons, Houts. auto.
Qed.
End RingBufferContents.

(** C2, as the code has it.  From the empty queue, [CAP + 1] pushes all
    return 0 and leave exactly [CAP] entries: the pushed results without
    the first (oldest) one.  [CAP] pops then return these entries in the
    order they were pushed, each with code 0, and empty the queue, after
    which a pop returns [-EAGAIN].  The queue keeps no count of dropped
    entries. *)
Theorem result_buffer_overflow_evicts_oldest
    (CAP : Z) (rs : list inference_result_t) (d : inference_result_t) :
  0 < CAP <= UINT32_MAX ->
  Z.of_nat (length rs) = CAP + 1 ->
  let '(rets, s) := push_all CAP rs (result_buffer_init CAP) in
  let '(outs, s') := pop_n CAP (Z.to_nat CAP) d s in
  rets = replicate (length rs) 0
  /\ count s = CAP
  /\ result_buffer_full CAP s = true
  /\ rb_contents CAP s = drop 1 rs
  /\ outs = (fun r => (0, r)) <$> drop 1 rs
  /\ count s' = 0
  /\ forall d', result_buffer_pop CAP (Some d') s' = (- EAGAIN, s', Some d').
Proof.
  intros HCAP Hlen.
  destruct (push_all_contents CAP HCAP rs (result_buffer_init CAP)
              (rb_wf_init CAP HCAP)) as (Hrets & Hwf & Hcont).
  destruct (push_all CAP rs (result_buffer_init CAP)) as [rets s].
  cbn [fst snd] in *.
  assert (Hkeep : rb_contents CAP s = drop 1 rs).
  { rewrite Hcont. unfold rb_contents at 1; simpl.
    unfold keep_last. f_equal. lia. }
  assert (Hcount : count s = CAP).
  { pose proof (rb_contents_length CAP s) as L.
    rewrite Hkeep, length_drop in L.
    destruct Hwf as (_ & _ & ? & _). lia. }
  destruct (pop_n_contents CAP HCAP (Z.to_nat CAP) d s Hwf ltac:(lia))
    as (Houts & Hwf' & Hcont').
  destruct (pop_n CAP (Z.to_nat CAP) d s) as [outs s'].
  cbn [fst snd] in *.
  assert (Hcount' : count s' = 0).
  { pose proof (rb_contents_length CAP s') as L.
    rewrite Hcont', length_drop, rb_contents_length in L.
    destruct Hwf' as (_ & _ & ? & _). lia. }
  repeat split; try assumption.
  - unfold result_buffer_full. rewrite Hcount. apply Z.leb_refl.
  - rewrite Houts, Hkeep. f_equal. apply take_ge.
    rewrite length_drop. lia.
  - intros d'. apply pop_empty, Hcount'.
Qed.

(** The default capacity: 17 numbered results go in, numbers 2 to 17 come
    out in that order. *)
Lemma result_buffer_overflow_evicts_oldest_witness :
  let CAP := CONFIG_OUTPUT_RING_BUFFER_SIZE in
  let rs := numbered_results 17 in
  (0 < CAP <= UINT32_MAX)
  /\ Z.of_nat (length rs) = CAP + 1
  /\ let '(rets, s) := push_all CAP rs (result_buffer_init CAP) in
     let '(outs, s') := pop_n CAP (Z.to_nat CAP) zero_result s in
     rets = replicate (length rs) 0
     /\ count s = CAP
     /\ result_buffer_full CAP s = true
     /\ rb_contents CAP s = drop 1 rs
     /\ outs = (fun r => (0, r)) <$> drop 1 rs
     /\ count s' = 0
     /\ forall d', result_buffer_pop CAP (Some d') s' = (- EAGAIN, s', Some d').
Proof.
  intros CAP rs.
  assert (H1 : 0 < CAP <= UINT32_MAX) by (vm_compute; split; congruence).
  assert (H2 : Z.of_nat (length rs) = CAP + 1) by reflexivity.
  split; [exact H1|]. split; [exact H2|].
  exact (result_buffer_overflow_evicts_oldest CAP rs zero_result H1 H2).
Defined.

(** A counter of dropped entries would be a quantity of the queue state
    that an evicting push raises by one and any other push leaves alone. *)
Lemma dropped_counts_evictions (CAP : Z) (dropped : ring_state -> Z) :
  (forall s r, rb_reachable CAP s ->
     dropped (snd (result_buffer_push CAP (Some r) s))
     = if result_buffer_full CAP s then dropped s + 1 else dropped s) ->
  forall rs s, rb_reachable CAP s ->
    dropped (snd (push_all CAP rs s)) = dropped s + evictions CAP rs s.
Proof.
  intros Hd rs. induction rs as [|r rs IH]; intros s Hs.
  - simpl. lia.
  - cbn [push_all evictions].
    pose proof (Hd s r Hs) as Hstep.
    pose proof (rb_reach_step CAP (RbPush (Some r)) s Hs) as Hs1.
    cbn [rb_apply] in Hs1.
    destruct (result_buffer_push CAP (Some r) s) as [ret s1].
    cbn [snd] in *.
    specialize (IH s1 Hs1).
    destruct (push_all CAP rs s1) as [rets s2]. cbn [snd] in *.
    rewrite IH, Hstep. destruct (result_buffer_full CAP s); lia.
Qed.

(** C2, the part the code does not have: no quantity of the queue state
    counts dropped entries.  With the default capacity, 16 pushes of the
    zero record into the empty queue drop nothing, 16 more drop 16, and
    the two queue states are the same. *)
Lemma result_buffer_no_dropped_counter :
  ~ exists dropped : ring_state -> Z,
      forall s r, rb_reachable CONFIG_OUTPUT_RING_BUFFER_SIZE s ->
        dropped (snd (result_buffer_push CONFIG_OUTPUT_RING_BUFFER_SIZE
                                         (Some r) s))
        = if result_buffer_full CONFIG_OUTPUT_RING_BUFFER_SIZE s
          then dropped s + 1 else dropped s.
Proof.
  intros [dropped Hd].
  pose proof (dropped_counts_evictions _ dropped Hd) as Hall.
  set (CAP := CONFIG_OUTPUT_RING_BUFFER_SIZE) in *.
  set (zs := replicate 16 zero_result).
  pose proof (Hall zs (ring_boot CAP) (rb_reach_boot CAP)) as H16.
  pose proof (Hall (zs ++ zs) (ring_boot CAP) (rb_reach_boot CAP)) as H32.
  assert (Hsame : snd (push_all CAP (zs ++ zs) (ring_boot CAP))
                  = snd (push_all CAP zs (ring_boot CAP)))
    by (vm_compute; reflexivity).
  assert (E16 : evictions CAP zs (ring_boot CAP) = 0)
    by (vm_compute; reflexivity).
  assert (E32 : evictions CAP (zs ++ zs) (ring_boot CAP) = 16)
    by (vm_compute; reflexivity).
  rewrite Hsame, E32 in H32. rewrite E16 in H16. lia.
Qed.

(** C10.  In every state the queue can reach, [0 <= count <= CAP] and
    [head = (tail + count) mod CAP], and the state after any further
    operation satisfies the same; [result_buffer_empty] answers whether
    [count = 0] and [result_buffer_full] whether [count = CAP]; a pop
    from an empty queue returns [-EAGAIN] and changes nothing. *)
Theorem result_buffer_invariant (CAP : Z) (s : ring_state) :
  0 < CAP <= UINT32_MAX ->
  rb_reachable CAP s ->
  (0 <= count s <= CAP /\ head s = (tail s + count s) mod CAP)
  /\ (forall op, rb_invariant CAP (rb_apply CAP op s))
  /\ (result_buffer_empty s = true <-> count s = 0)
  /\ (result_buffer_full CAP s = true <-> count s = CAP)
  /\ (count s = 0 ->
      forall d, result_buffer_pop CAP (Some d) s = (- EAGAIN, s, Some d)).
Proof.
  intros HCAP Hs.
  pose proof (rb_reachable_wf CAP HCAP s Hs) as Hwf.
  pose proof Hwf as (_ & _ & Hcnt & Hhead).
  split; [split; assumption|].
  split.
  { intros op. pose proof (rb_wf_apply CAP HCAP op s Hwf) as (_ & _ & H).
    exact H. }
  split; [unfold result_buffer_empty; apply Z.eqb_eq|].
  split.
  { unfold result_buffer_full. rewrite Z.leb_le. lia. }
  intros Hc d. apply pop_empty, Hc.
Qed.

(** The default capacity, after 17 pushes and one pop: the indices have
    gone round the array. *)
Lemma result_buffer_invariant_witness :
  let CAP := CONFIG_OUTPUT_RING_BUFFER_SIZE in
  let s := rb_apply CAP (RbPop (Some zero_result))
             (snd (push_all CAP (numbered_results 17) (ring_boot CAP))) in
  (head s, tail s, count s) = (1, 2, 15)
  /\ (0 <= count s <= CAP /\ head s = (tail s + count s) mod CAP)
  /\ (forall op, rb_invariant CAP (rb_apply CAP op s))
  /\ (result_buffer_empty s = true <-> count s = 0)
  /\ (result_buffer_full CAP s = true <-> count s = CAP)
  /\ (count s = 0 ->
      forall d, result_buffer_pop CAP (Some d) s = (- EAGAIN, s, Some d)).
Proof.
  intros CAP s. split; [reflexivity|].
  apply (result_buffer_invariant CAP s).
  - vm_compute; split; congruence.
  - apply rb_reach_step.
    assert (Hpush : forall rs s0, rb_reachable CAP s0 ->
              rb_reachable CAP (snd (push_all CAP rs s0))).
    { induction rs as [|r rs IH]; intros s0 H0; [exact H0|].
      cbn [push_all].
      pose proof (rb_reach_step CAP (RbPush (Some r)) s0 H0) as H1.
      cbn [rb_apply] in H1.
      destruct (result_buffer_push CAP (Some r) s0) as [ret s1].
      specialize (IH s1 H1).
      destruct (push_all CAP rs s1). exact IH. }
    apply Hpush, rb_reach_boot.
Defined.

(* ===================================================================== *)
(** * Properties of the wake-up semaphore                                 *)
(* ===================================================================== *)

Lemma k_sem_give_ml_sem (N : nat) :
  Nat.iter (S N) k_sem_give ml_sem = {| sem_count := 1; sem_limit := 1 |}.
Proof.
  induction N as [|N IH]; [reflexivity|].
  change (Nat.iter (S (S N)) k_sem_give ml_sem)
    with (k_sem_give (Nat.iter (S N) k_sem_give ml_sem)).
  rewrite IH. reflexivity.
Qed.

(** C5.  Any number [N >= 1] of gives on [ml_sem] with no take in between
    leaves one pending wake: the next take returns 0, and a further take
    with no new give times out with [-EAGAIN]. *)
Theorem ml_sem_coalesces (N : nat) :
  (1 <= N)%nat ->
  let s := Nat.iter N k_sem_give ml_sem in
  sem_count s = 1
  /\ fst (k_sem_take s) = 0
  /\ fst (k_sem_take (snd (k_sem_take s))) = - EAGAIN
  /\ sem_count (snd (k_sem_take (snd (k_sem_take s)))) = 0.
Proof.
  intros HN. destruct N as [|N]; [lia|].
  cbv zeta. rewrite k_sem_give_ml_sem. repeat split.
Qed.

Lemma ml_sem_coalesces_witness :
  (1 <= 5)%nat
  /\ let s := Nat.iter 5 k_sem_give ml_sem in
     sem_count s = 1
     /\ fst (k_sem_take s) = 0
     /\ fst (k_sem_take (snd (k_sem_take s))) = - EAGAIN
     /\ sem_count (snd (k_sem_take (snd (k_sem_take s)))) = 0.
Proof.
  assert (H : (1 <= 5)%nat) by lia.
  split; [exact H|]. exact (ml_sem_coalesces 5 H).
Defined.

(** In the sensor thread: while a completed window is waiting, every
    further sample is appended and gives the semaphore again, and the
    give changes nothing because one wake is already pending. *)
Lemma sensor_thread_gives_again (W : Z) (smp : accel_sample.t)
    (pre : preprocess_state) (sem : k_sem) :
  initialized pre = true ->
  window_ready pre = true ->
  sem_count sem = 1 ->
  sem_limit sem = 1 ->
  exists pre',
    sensor_thread_iter W (Some smp) (pre, sem) = (pre', sem)
    /\ window_ready pre' = true
    /\ k_sem_give sem = sem.
Proof.
  intros Hi Hr Hc Hl.
  assert (Hg : k_sem_give sem = sem)
    by (unfold k_sem_give; rewrite Hc, Hl; reflexivity).
  unfold sensor_thread_iter, preprocessing_add_sample,
    preprocessing_window_ready.
  rewrite Hi. cbn [negb].
  destruct (W <=? wrap32 (window_pos pre + 1));
    cbn [window_ready]; rewrite ?Hr, Hg; eexists; repeat split.
Qed.

(* ===================================================================== *)
(** * Properties of inference.cpp                                         *)
(* ===================================================================== *)

Lemma wrap32_succ (v : Z) : wrap32 (wrap32 v + 1) = wrap32 (v + 1).
Proof. unfold wrap32. apply Z.add_mod_idemp_l. lia. Qed.

Lemma wrap32_idem (v : Z) : wrap32 (wrap32 v) = wrap32 v.
Proof. unfold wrap32. apply Z.mod_mod. lia. Qed.

(** The outcome of [ml_run_inference] as far as the counter goes. *)
Lemma ml_run_inference_counter (W : Z) (tf : tflite_run)
    (input_data : option (list Z)) (result : option inference_result_t)
    (st : ml_state) :
  (exists st' r,
      ml_run_inference W tf input_data result st = (ML_STATUS_OK, st', Some r)
      /\ sequence r = wrap32 (inference_sequence st + 1)
      /\ inference_sequence st' = wrap32 (inference_sequence st + 1)
      /\ ml_initialized st' = ml_initialized st
      /\ use_mock_inference st' = use_mock_inference st)
  \/ (exists status st',
      ml_run_inference W tf input_data result st = (status, st', result)
      /\ status <> ML_STATUS_OK
      /\ inference_sequence st' = inference_sequence st).
Proof.
  unfold ml_run_inference.
  destruct (ml_initialized st) eqn:Hi; cbn [negb];
    [|right; eexists _, _; repeat split; discriminate].
  destruct input_data as [inp|], result as [res|];
    try (right; eexists _, _; repeat split; discriminate).
  destruct (negb (if use_mock_inference st then true else invoke_ok tf)).
  - right. eexists _, _. repeat split. discriminate.
  - left.
    destruct (if use_mock_inference st then _ else _) as [[best mx] scores].
    eexists _, _. repeat split.
Qed.

(** C8, as the code has it.  A successful [ml_run_inference] gives its
    result the number [(inference_sequence + 1) mod 2^32] and stores that
    number back: one more than the previous successful result's number
    as long as that number is below [UINT32_MAX], and 0 after it.  A call
    that does not return [ML_STATUS_OK] leaves the counter and the
    caller's record alone.  The statics start at 0 and initialisation of
    them that returns [ML_STATUS_OK] leaves the counter at 0, so the first
    successful result is numbered 1; a repeated [ml_inference_init] does
    nothing. *)
Theorem ml_run_inference_sequence (W : Z) (tf : tflite_run)
    (input_data : option (list Z)) (result : option inference_result_t)
    (st : ml_state) :
  let '(status, st', result') := ml_run_inference W tf input_data result st in
  (status = ML_STATUS_OK ->
     exists r, result' = Some r
       /\ sequence r = (inference_sequence st + 1) mod 2 ^ 32
       /\ inference_sequence st' = sequence r
       /\ (0 <= inference_sequence st < UINT32_MAX ->
           sequence r = inference_sequence st + 1))
  /\ (status <> ML_STATUS_OK ->
      inference_sequence st' = inference_sequence st /\ result' = result)
  /\ (forall setup,
      fst (ml_inference_init setup ml_boot) = ML_STATUS_OK ->
      inference_sequence (snd (ml_inference_init setup ml_boot)) = 0)
  /\ (forall setup,
      ml_initialized st = true ->
      ml_inference_init setup st = (ML_STATUS_OK, st)).
Proof.
  destruct (ml_run_inference_counter W tf input_data result st)
    as [(st' & r & E & Hseq & Hst & _)|(status & st' & E & Hne & Hst)];
    rewrite E.
  - repeat split; try congruence.
    + intros _. exists r. repeat split; try assumption; try congruence.
      intros Hr. rewrite Hseq. apply wrap32_small. unfold UINT32_MAX in *. lia.
    + intros setup. unfold ml_inference_init; simpl.
      repeat (destruct (negb _); simpl; try reflexivity; try discriminate).
      destruct (input_0 setup), (output_0_present setup);
        simpl; try reflexivity; discriminate.
    + intros setup Hi. unfold ml_inference_init. rewrite Hi. reflexivity.
  - repeat split; try congruence.
    + intros setup. unfold ml_inference_init; simpl.
      repeat (destruct (negb _); simpl; try reflexivity; try discriminate).
      destruct (input_0 setup), (output_0_present setup);
        simpl; try reflexivity; discriminate.
    + intros setup Hi. unfold ml_inference_init. rewrite Hi. reflexivity.
Qed.

(** On the mock path every well-formed call succeeds. *)
Lemma mock_inference_succeeds (W : Z) (tf : tflite_run) (inp : list Z)
    (res : inference_result_t) (st : ml_state) :
  ml_initialized st = true ->
  use_mock_inference st = true ->
  exists st' r,
    ml_run_inference W tf (Some inp) (Some res) st = (ML_STATUS_OK, st', Some r)
    /\ sequence r = wrap32 (inference_sequence st + 1)
    /\ inference_sequence st' = wrap32 (inference_sequence st + 1)
    /\ ml_initialized st' = true
    /\ use_mock_inference st' = true.
Proof.
  intros Hi Hm.
  destruct (ml_run_inference_counter W tf (Some inp) (Some res) st)
    as [(st' & r & E & Hseq & Hst & Hi' & Hm')|(status & st' & E & Hne & _)].
  - exists st', r. rewrite Hi', Hm'. auto.
  - exfalso. revert E. unfold ml_run_inference. rewrite Hi, Hm. cbn [negb].
    destruct (mock_scores _) as [[b m] sc]. intros E.
    injection E as E1 _ _. congruence.
Qed.

(** After [n] successful inferences the counter has advanced by [n],
    modulo [2^32], and it stays a 32-bit value. *)
Lemma inference_sequence_after (W : Z) (n : nat) (st : ml_state) :
  ml_initialized st = true ->
  use_mock_inference st = true ->
  0 <= inference_sequence st <= UINT32_MAX ->
  let st' := Nat.iter n (next_inference W) st in
  ml_initialized st' = true
  /\ use_mock_inference st' = true
  /\ 0 <= inference_sequence st' <= UINT32_MAX
  /\ inference_sequence st' = wrap32 (inference_sequence st + Z.of_nat n).
Proof.
  intros Hi Hm Hr. induction n as [|n IH]; cbn zeta.
  - rewrite Z.add_0_r, wrap32_small by exact Hr. auto.
  - change (Nat.iter (S n) (next_inference W) st)
      with (next_inference W (Nat.iter n (next_inference W) st)).
    destruct IH as (Hi' & Hm' & Hr' & Hs').
    set (stn := Nat.iter n (next_inference W) st) in *.
    destruct (mock_inference_succeeds W quiet_run [] zero_result stn Hi' Hm')
      as (st' & r & E & _ & Hst & Hi'' & Hm'').
    assert (Hnext : next_inference W stn = st')
      by (unfold next_inference; rewrite E; reflexivity).
    rewrite Hnext.
    split; [exact Hi''|]. split; [exact Hm''|]. rewrite Hst.
    split; [apply wrap32_range|].
    rewrite Hs', wrap32_succ. f_equal. lia.
Qed.

(** C8, the part that fails: after 4294967295 successful inferences since
    initialisation the last result carries the number 4294967295, and the
    next successful result carries 0, which is neither one more nor
    larger. *)
Lemma ml_sequence_wraps_to_zero :
  let W := CONFIG_ML_INFERENCE_WINDOW_SIZE in
  let st0 := snd (ml_inference_init no_model ml_boot) in
  let st := Nat.iter (Z.to_nat UINT32_MAX) (next_inference W) st0 in
  inference_sequence st0 = 0
  /\ inference_sequence st = 4294967295
  /\ exists st' r,
       ml_run_inference W quiet_run (Some []) (Some zero_result) st
       = (ML_STATUS_OK, st', Some r)
       /\ sequence r = 0
       /\ sequence r <> inference_sequence st + 1
       /\ ~ (inference_sequence st < sequence r).
Proof.
  intros W st0 st.
  assert (Hi0 : ml_initialized st0 = true) by reflexivity.
  assert (Hm0 : use_mock_inference st0 = true) by reflexivity.
  assert (Hs0 : inference_sequence st0 = 0) by reflexivity.
  destruct (inference_sequence_after W (Z.to_nat UINT32_MAX) st0 Hi0 Hm0)
    as (Hi & Hm & _ & Hs).
  { rewrite Hs0. unfold UINT32_MAX. lia. }
  fold st in Hi, Hm, Hs.
  rewrite Hs0, Z2Nat.id in Hs by (unfold UINT32_MAX; lia).
  change (wrap32 (0 + UINT32_MAX)) with 4294967295 in Hs.
  split; [exact Hs0|]. split; [exact Hs|].
  clearbody st st0.
  destruct (mock_inference_succeeds W quiet_run [] zero_result st Hi Hm)
    as (st' & r & E & Hseq & _).
  exists st', r. rewrite Hs in Hseq.
  change (wrap32 (4294967295 + 1)) with 0 in Hseq.
  repeat split; try assumption; rewrite Hseq, Hs; lia.
Qed.

(* ===================================================================== *)
(** * Properties of debug_monitor.c                                       *)
(* ===================================================================== *)

Section Monitor.
Variable cfg : build_config.
Variable k : kernel.

(** Tracking the peak changes nothing but the peak, and never lowers
    it. *)
Lemma track_peak_fields (m : monitored_thread.t) :
  monitored_thread.thread (track_peak cfg k m) = monitored_thread.thread m
  /\ monitored_thread.name (track_peak cfg k m) = monitored_thread.name m
  /\ monitored_thread.stack_size (track_peak cfg k m)
     = monitored_thread.stack_size m
  /\ monitored_thread.peak_usage (track_peak cfg k m)
     = match usage_read cfg k m with
       | Some used => Z.max (monitored_thread.peak_usage m) used
       | None => monitored_thread.peak_usage m
       end.
Proof.
  unfold track_peak. destruct (usage_read cfg k m) as [used|]; [|auto].
  destruct (Z.ltb_spec (monitored_thread.peak_usage m) used); simpl;
    repeat split; lia.
Qed.

(** One round of the loop of [debug_monitor_get_stats] stores the
    tracked entry back at its index. *)
Lemma get_stats_step_fst (mon : list monitored_thread.t)
    (stats : debug_stats_t) (i : nat) :
  fst (get_stats_step cfg k (mon, stats) i)
  = <[i := track_peak cfg k (monitored_at mon i)]> mon.
Proof.
  assert (Hid : <[i := monitored_at mon i]> mon = mon).
  { unfold monitored_at. destruct (mon !! i) as [m|] eqn:E.
    - apply list_insert_id, E.
    - apply list_insert_ge, lookup_ge_None, E. }
  unfold get_stats_step, track_peak, usage_read.
  destruct (monitored_thread.thread (monitored_at mon i)) as [t|];
    [|symmetry; exact Hid].
  destruct (CONFIG_THREAD_STACK_INFO cfg); [|symmetry; exact Hid].
  cbn [andb].
  destruct (fst (k_thread_stack_space_get k t) =? 0);
    [reflexivity | symmetry; exact Hid].
Qed.

(** The loop leaves every field of the caller's record alone except the
    two of the ML thread. *)
Lemma get_stats_step_snd (mon : list monitored_thread.t)
    (stats : debug_stats_t) (i : nat) :
  let stats' := snd (get_stats_step cfg k (mon, stats) i) in
  uptime_ms stats' = uptime_ms stats
  /\ stack_used stats' = stack_used stats
  /\ stack_size stats' = stack_size stats
  /\ cpu_usage_percent stats' = cpu_usage_percent stats
  /\ stack_warnings stats' = stack_warnings stats.
Proof.
  unfold get_stats_step.
  destruct (monitored_thread.thread (monitored_at mon i)); [|simpl; auto].
  destruct (CONFIG_THREAD_STACK_INFO cfg); [|simpl; auto].
  destruct (fst (k_thread_stack_space_get k _) =? 0); [|simpl; auto].
  destruct (is_ml_thread _); simpl; auto.
Qed.

Lemma tracked_step (n : nat) (mon : list monitored_thread.t) :
  <[n := track_peak cfg k (monitored_at (tracked cfg k n mon) n)]>
    (tracked cfg k n mon)
  = tracked cfg k (S n) mon.
Proof.
  apply list_eq. intros j. unfold tracked, monitored_at.
  rewrite list_lookup_insert, length_imap, !list_lookup_imap.
  destruct (decide (n = j /\ (n < length mon)%nat)) as [[-> Hlt]|Hno].
  - destruct (lookup_lt_is_Some_2 mon j Hlt) as [m Hm]. rewrite Hm. simpl.
    destruct (decide (j < j)%nat); [lia|].
    destruct (decide (j < S j)%nat); [reflexivity | lia].
  - destruct (mon !! j) as [m|] eqn:Hm; [|reflexivity]. simpl.
    assert (n <> j).
    { intros ->. apply Hno. split; [reflexivity|].
      apply lookup_lt_is_Some_1. eauto. }
    destruct (decide (j < n)%nat), (decide (j < S n)%nat);
      try reflexivity; lia.
Qed.

Lemma tracked_0 (mon : list monitored_thread.t) : tracked cfg k 0 mon = mon.
Proof.
  apply list_eq. intros j. unfold tracked. rewrite list_lookup_imap.
  destruct (mon !! j); [|reflexivity]. simpl.
  destruct (decide (j < 0)%nat); [lia | reflexivity].
Qed.

(** The whole loop: the first [n] peaks are tracked. *)
Lemma get_stats_loop (n : nat) (mon : list monitored_thread.t)
    (stats : debug_stats_t) :
  fst (fold_left (get_stats_step cfg k) (seq 0 n) (mon, stats))
  = tracked cfg k n mon.
Proof.
  induction n as [|n IH]; [simpl; symmetry; apply tracked_0|].
  rewrite seq_S, fold_left_app. simpl.
  destruct (fold_left (get_stats_step cfg k) (seq 0 n) (mon, stats))
    as [mon' stats'].
  simpl in IH. subst mon'.
  rewrite get_stats_step_fst. apply tracked_step.
Qed.

(** What a check adds to the warning counter. *)
Lemma check_loop (n : nat) (mon : list monitored_thread.t) (w : Z) :
  0 <= w <= UINT32_MAX ->
  fst (fold_left (check_step cfg k mon) (seq 0 n) (w, 0))
  = wrap32 (w + warnings_raised cfg k mon n).
Proof.
  intros Hw.
  assert (H : forall iss,
    exists iss',
      fold_left (check_step cfg k mon) (seq 0 n) (w, iss)
      = (wrap32 (w + warnings_raised cfg k mon n), iss')).
  { induction n as [|n IH]; intros iss.
    - exists iss. simpl. rewrite Z.add_0_r, wrap32_small by exact Hw.
      reflexivity.
    - destruct (IH iss) as [iss' E].
      unfold warnings_raised. rewrite !seq_S, !fold_left_app, E.
      fold (warnings_raised cfg k mon n). simpl. unfold check_step.
      destruct (over_threshold cfg k mon n).
      + eexists. rewrite wrap32_succ. f_equal. f_equal. lia.
      + eexists. reflexivity. }
  destruct (H 0) as [iss' E]. rewrite E. reflexivity.
Qed.

Lemma warnings_raised_nonneg (mon : list monitored_thread.t) (n : nat) :
  0 <= warnings_raised cfg k mon n.
Proof.
  induction n as [|n IH]; [unfold warnings_raised; simpl; lia|].
  unfold warnings_raised in *. rewrite seq_S, fold_left_app. simpl.
  destruct (over_threshold cfg k mon n); lia.
Qed.
End Monitor.

(** [debug_monitor_get_stats] on a non-null record, spelled out. *)
Lemma debug_monitor_get_stats_some (cfg : build_config) (k : kernel)
    (s0 : debug_stats_t) (st : monitor_state) :
  exists snap check_time cpu_cycles,
    debug_monitor_get_stats cfg k (Some s0) st
    = (0,
       {| monitored :=
            tracked cfg k (Z.to_nat (monitored_count st)) (monitored st);
          monitored_count := monitored_count st;
          total_stack_warnings := total_stack_warnings st;
          monitor_initialized := monitor_initialized st;
          last_check_time := check_time;
          last_cpu_cycles := cpu_cycles |},
       Some snap)
    /\ stack_warnings snap = total_stack_warnings st
    /\ uptime_ms snap = k_uptime_get_32 k
    /\ (CONFIG_SCHED_THREAD_USAGE cfg = false ->
        check_time = last_check_time st /\ cpu_cycles = last_cpu_cycles st).
Proof.
  unfold debug_monitor_get_stats.
  destruct (if CONFIG_THREAD_STACK_INFO cfg then _ else _)
    as [cur_size cur_used].
  match goal with
  | |- context [fold_left ?f ?l (?m0, ?s1)] =>
      pose proof (get_stats_loop cfg k (Z.to_nat (monitored_count st))
                    (monitored st) s1) as Hloop;
      assert (Hup : uptime_ms (snd (fold_left f l (m0, s1)))
                    = k_uptime_get_32 k);
      [|destruct (fold_left f l (m0, s1)) as [mon s2]]
  end.
  { generalize (Z.to_nat (monitored_count st)) as n.
    induction n as [|n IH]; [reflexivity|].
    rewrite seq_S, fold_left_app. simpl.
    destruct (fold_left _ (seq 0 n) _) as [mon' s'].
    destruct (get_stats_step_snd cfg k mon' s' n) as (Hu & _).
    cbv zeta in Hu. rewrite Hu. exact IH. }
  cbn [fst snd] in Hloop, Hup. subst mon.
  destruct (cpu_usage_block cfg k st (cpu_usage_percent s2))
    as [[cpu check_time] cpu_cycles] eqn:Ecpu.
  eexists _, check_time, cpu_cycles.
  split; [reflexivity|]. split; [reflexivity|]. split; [exact Hup|].
  intros Hoff. unfold cpu_usage_block in Ecpu. rewrite Hoff in Ecpu.
  injection Ecpu as _ <- <-. auto.
Qed.

(** An entry of the tracked registry. *)
Lemma tracked_lookup (cfg : build_config) (k : kernel) (n i : nat)
    (mon : list monitored_thread.t) (m : monitored_thread.t) :
  mon !! i = Some m ->
  tracked cfg k n mon !! i
  = Some (if decide (i < n)%nat then track_peak cfg k m else m).
Proof.
  intros Hm. unfold tracked. rewrite list_lookup_imap, Hm. reflexivity.
Qed.

(** What [debug_monitor_get_stats] leaves in [last_check_time] and
    [last_cpu_cycles]: the uptime read in the CPU-usage block and the
    execution cycles of the calling thread when the block is built in
    and the runtime-statistics call succeeds, and the old values
    otherwise. *)
Lemma debug_monitor_get_stats_times (cfg : build_config) (k : kernel)
    (s0 : debug_stats_t) (st : monitor_state) :
  let st' := snd (fst (debug_monitor_get_stats cfg k (Some s0) st)) in
  (last_check_time st', last_cpu_cycles st')
  = if CONFIG_SCHED_THREAD_USAGE cfg
       && (fst (k_thread_runtime_stats_get k (k_current_get k)) =? 0)
    then (k_uptime_get_32_again k,
          snd (k_thread_runtime_stats_get k (k_current_get k)))
    else (last_check_time st, last_cpu_cycles st).
Proof.
  unfold debug_monitor_get_stats.
  destruct (if CONFIG_THREAD_STACK_INFO cfg then _ else _)
    as [cur_size cur_used].
  destruct (fold_left _ _ _) as [mon s2].
  unfold cpu_usage_block.
  destruct (CONFIG_SCHED_THREAD_USAGE cfg); cbn [andb]; [|reflexivity].
  destruct (k_thread_runtime_stats_get k (k_current_get k)) as [rv cycles].
  cbn [fst snd].
  destruct (rv =? 0); reflexivity.
Qed.

(** C4, as the code has it.  [debug_monitor_get_stats] with a null
    pointer returns [-EINVAL] and changes nothing.  Otherwise it returns
    0 and leaves [monitored_count], [total_stack_warnings],
    [monitor_initialized] and the thread, name and stack size of every
    registry entry as they were, but it does write to the state: every
    registered entry whose usage it can read gets its [peak_usage] raised
    to that usage when it is larger, and in a build with
    [CONFIG_SCHED_THREAD_USAGE], when the runtime-statistics call
    succeeds, [last_check_time] becomes the uptime read in the CPU-usage
    block and [last_cpu_cycles] the execution cycles of the calling
    thread.  Those two stay as they were when that call fails, and in a
    build without the option. *)
Theorem debug_monitor_get_stats_effects (cfg : build_config) (k : kernel)
    (stats : option debug_stats_t) (st : monitor_state) :
  let '(ret, st', stats') := debug_monitor_get_stats cfg k stats st in
  (stats = None -> ret = - EINVAL /\ st' = st /\ stats' = None)
  /\ (stats <> None -> ret = 0)
  /\ monitored_count st' = monitored_count st
  /\ total_stack_warnings st' = total_stack_warnings st
  /\ monitor_initialized st' = monitor_initialized st
  /\ length (monitored st') = length (monitored st)
  /\ (stats <> None ->
      forall i m, monitored st !! i = Some m ->
        exists m',
          monitored st' !! i = Some m'
          /\ monitored_thread.thread m' = monitored_thread.thread m
          /\ monitored_thread.name m' = monitored_thread.name m
          /\ monitored_thread.stack_size m' = monitored_thread.stack_size m
          /\ monitored_thread.peak_usage m'
             = if decide (i < Z.to_nat (monitored_count st))%nat
               then match usage_read cfg k m with
                    | Some used => Z.max (monitored_thread.peak_usage m) used
                    | None => monitored_thread.peak_usage m
                    end
               else monitored_thread.peak_usage m)
  /\ (CONFIG_SCHED_THREAD_USAGE cfg = false ->
      last_check_time st' = last_check_time st
      /\ last_cpu_cycles st' = last_cpu_cycles st)
  /\ (CONFIG_SCHED_THREAD_USAGE cfg = true -> stats <> None ->
      (fst (k_thread_runtime_stats_get k (k_current_get k)) = 0 ->
       last_check_time st' = k_uptime_get_32_again k
       /\ last_cpu_cycles st'
          = snd (k_thread_runtime_stats_get k (k_current_get k)))
      /\ (fst (k_thread_runtime_stats_get k (k_current_get k)) <> 0 ->
          last_check_time st' = last_check_time st
          /\ last_cpu_cycles st' = last_cpu_cycles st)).
Proof.
  destruct stats as [s0|].
  - pose proof (debug_monitor_get_stats_times cfg k s0 st) as Htimes.
    destruct (debug_monitor_get_stats_some cfg k s0 st)
      as (snap & ct & cc & E & _ & _ & Hcpu).
    rewrite E in Htimes |- *.
    cbn [fst snd monitored monitored_count total_stack_warnings
         monitor_initialized last_check_time last_cpu_cycles] in Htimes |- *.
    split; [discriminate|]. split; [reflexivity|].
    split; [reflexivity|]. split; [reflexivity|]. split; [reflexivity|].
    split; [unfold tracked; apply length_imap|].
    split; [|split; [exact Hcpu|]].
    + intros _ i m Hm.
      rewrite (tracked_lookup cfg k _ i _ m Hm).
      destruct (track_peak_fields cfg k m) as (Ht & Hn & Hs & Hp).
      destruct (decide (i < Z.to_nat (monitored_count st))%nat);
        eexists; repeat split; assumption.
    + intros Hcfg _. rewrite Hcfg in Htimes. cbn [andb] in Htimes.
      split.
      * intros Hrv. rewrite Hrv in Htimes. cbn [Z.eqb] in Htimes.
        injection Htimes as -> ->. split; reflexivity.
      * intros Hrv. apply Z.eqb_neq in Hrv. rewrite Hrv in Htimes.
        injection Htimes as -> ->. split; reflexivity.
  - simpl. repeat split; congruence.
Qed.

(** C4, the part that fails: with the ML thread registered and 2800 of
    its 4096 bytes of stack in use, composing a snapshot changes the
    monitor's state: the thread's [peak_usage] goes from 0 to 2800. *)
Lemma debug_monitor_get_stats_writes_peak :
  let st := two_threads_registered in
  let k := kernel_with 1296 900 in
  let st' :=
    snd (fst (debug_monitor_get_stats stack_info_build k (Some zero_stats) st))
  in
  st' <> st
  /\ monitored_thread.peak_usage (monitored_at (monitored st) 0) = 0
  /\ monitored_thread.peak_usage (monitored_at (monitored st') 0) = 2800.
Proof.
  intros st k st'.
  assert (H0 : monitored_thread.peak_usage (monitored_at (monitored st) 0) = 0)
    by (vm_compute; reflexivity).
  assert (H1 : monitored_thread.peak_usage (monitored_at (monitored st') 0)
               = 2800) by (vm_compute; reflexivity).
  split; [|split; assumption].
  intros E. rewrite E, H0 in H1. discriminate.
Qed.

(** [debug_monitor_check] on an initialised monitor, spelled out. *)
Lemma debug_monitor_check_initialized (cfg : build_config) (k : kernel)
    (st : monitor_state) :
  monitor_initialized st = true ->
  0 <= total_stack_warnings st <= UINT32_MAX ->
  exists ret,
    debug_monitor_check cfg k st
    = (ret,
       {| monitored := monitored st;
          monitored_count := monitored_count st;
          total_stack_warnings :=
            wrap32 (total_stack_warnings st
                    + warnings_raised cfg k (monitored st)
                        (Z.to_nat (monitored_count st)));
          monitor_initialized := monitor_initialized st;
          last_check_time := last_check_time st;
          last_cpu_cycles := last_cpu_cycles st |}).
Proof.
  intros Hi Hw. unfold debug_monitor_check. rewrite Hi. cbn [negb].
  pose proof (check_loop cfg k (Z.to_nat (monitored_count st)) (monitored st)
                (total_stack_warnings st) Hw) as Hloop.
  destruct (fold_left _ _ _) as [warnings issues]. cbn [fst] in Hloop.
  subst warnings. eexists. reflexivity.
Qed.

(** C3, as the code has it.  The monitor keeps no Healthy/Warned state
    per context.  A check of an initialised monitor adds to the one
    counter [total_stack_warnings], modulo [2^32], the number of
    registered contexts whose stack percentage is above 80 at that
    moment, and writes nothing else: the registry (no peak either), the
    count, the flag and the two CPU-usage statics are as before.  A check
    of a monitor that is not initialised returns [-EINVAL] and changes
    nothing at all.  A later snapshot, whatever the usage has become,
    leaves the counter as it is and reports it as [stack_warnings].  The
    recorded peak of a context never decreases: a snapshot sets it to the
    larger of the recorded peak and the usage it reads for that context,
    and leaves it when it reads none. *)
Theorem debug_monitor_warnings_and_peaks (cfg : build_config)
    (k k' : kernel) (s0 : debug_stats_t) (st : monitor_state) :
  0 <= total_stack_warnings st <= UINT32_MAX ->
  let n := Z.to_nat (monitored_count st) in
  let '(ret, st1) := debug_monitor_check cfg k st in
  let '(ret', st2, snap) := debug_monitor_get_stats cfg k' (Some s0) st1 in
  (monitor_initialized st = true ->
   st1 = {| monitored := monitored st;
            monitored_count := monitored_count st;
            total_stack_warnings :=
              (total_stack_warnings st
               + warnings_raised cfg k (monitored st) n) mod 2 ^ 32;
            monitor_initialized := monitor_initialized st;
            last_check_time := last_check_time st;
            last_cpu_cycles := last_cpu_cycles st |})
  /\ (monitor_initialized st = false -> ret = - EINVAL /\ st1 = st)
  /\ monitored st1 = monitored st
  /\ total_stack_warnings st2 = total_stack_warnings st1
  /\ (exists s, snap = Some s
                /\ stack_warnings s = total_stack_warnings st1)
  /\ (forall i m, monitored st !! i = Some m ->
        exists m2,
          monitored st2 !! i = Some m2
          /\ monitored_thread.peak_usage m <= monitored_thread.peak_usage m2
          /\ ((i < n)%nat ->
              monitored_thread.peak_usage m2
              = match usage_read cfg k' m with
                | Some used => Z.max (monitored_thread.peak_usage m) used
                | None => monitored_thread.peak_usage m
                end)).
Proof.
  intros Hw n.
  assert (Hcheck :
    exists ret st1,
      debug_monitor_check cfg k st = (ret, st1)
      /\ monitored st1 = monitored st
      /\ monitored_count st1 = monitored_count st
      /\ (monitor_initialized st = true ->
          st1 = {| monitored := monitored st;
                   monitored_count := monitored_count st;
                   total_stack_warnings :=
                     (total_stack_warnings st
                      + warnings_raised cfg k (monitored st) n) mod 2 ^ 32;
                   monitor_initialized := monitor_initialized st;
                   last_check_time := last_check_time st;
                   last_cpu_cycles := last_cpu_cycles st |})
      /\ (monitor_initialized st = false -> ret = - EINVAL /\ st1 = st)).
  { destruct (monitor_initialized st) eqn:Hi.
    - destruct (debug_monitor_check_initialized cfg k st Hi Hw) as [ret E].
      rewrite Hi in E. eexists _, _. split; [exact E|].
      cbn [monitored monitored_count].
      split; [reflexivity|]. split; [reflexivity|].
      split; [intros _; reflexivity | discriminate].
    - unfold debug_monitor_check. rewrite Hi. cbn [negb].
      eexists _, _. split; [reflexivity|].
      split; [reflexivity|]. split; [reflexivity|].
      split; [discriminate | intros _; split; reflexivity]. }
  destruct Hcheck as (ret & st1 & E & Hmon & Hcnt & Hinit & Huninit).
  rewrite E. clear E.
  destruct (debug_monitor_get_stats_some cfg k' s0 st1)
    as (snap & ct & cc & E & Hsw & _ & _).
  rewrite E. cbn [monitored monitored_count total_stack_warnings].
  split; [exact Hinit|]. split; [exact Huninit|]. split; [exact Hmon|].
  split; [reflexivity|].
  split; [exists snap; split; [reflexivity | exact Hsw]|].
  intros i m Hm. rewrite Hmon, Hcnt. fold n.
  rewrite (tracked_lookup cfg k' n i _ m Hm).
  destruct (track_peak_fields cfg k' m) as (_ & _ & _ & Hp).
  destruct (decide (i < n)%nat) as [Hlt|Hge].
  - eexists. split; [reflexivity|]. rewrite Hp.
    split; [destruct (usage_read cfg k' m); lia | auto].
  - eexists. split; [reflexivity|]. split; [lia | intros; lia].
Qed.

(** The ML thread is at 87 % during the check and back at 9 % when the
    snapshot is taken: the warning stays counted, and the recorded peak
    is what the snapshot read. *)
Lemma debug_monitor_warnings_and_peaks_witness :
  let cfg := stack_info_build in
  let st := two_threads_registered in
  let k := kernel_with 496 900 in
  let k' := kernel_with 3696 900 in
  monitor_initialized st = true
  /\ 0 <= total_stack_warnings st <= UINT32_MAX
  /\ warnings_raised cfg k (monitored st) 2 = 1
  /\ let n := Z.to_nat (monitored_count st) in
     let '(ret, st1) := debug_monitor_check cfg k st in
     let '(ret', st2, snap) :=
       debug_monitor_get_stats cfg k' (Some zero_stats) st1 in
     (monitor_initialized st = true ->
      st1 = {| monitored := monitored st;
               monitored_count := monitored_count st;
               total_stack_warnings :=
                 (total_stack_warnings st
                  + warnings_raised cfg k (monitored st) n) mod 2 ^ 32;
               monitor_initialized := monitor_initialized st;
               last_check_time := last_check_time st;
               last_cpu_cycles := last_cpu_cycles st |})
     /\ (monitor_initialized st = false -> ret = - EINVAL /\ st1 = st)
     /\ monitored st1 = monitored st
     /\ total_stack_warnings st2 = total_stack_warnings st1
     /\ (exists s, snap = Some s
                   /\ stack_warnings s = total_stack_warnings st1)
     /\ (forall i m, monitored st !! i = Some m ->
           exists m2,
             monitored st2 !! i = Some m2
             /\ monitored_thread.peak_usage m <= monitored_thread.peak_usage m2
             /\ ((i < n)%nat ->
                 monitored_thread.peak_usage m2
                 = match usage_read cfg k' m with
                   | Some used => Z.max (monitored_thread.peak_usage m) used
                   | None => monitored_thread.peak_usage m
                   end)).
Proof.
  intros cfg st k k'.
  assert (H2 : 0 <= total_stack_warnings st <= UINT32_MAX)
    by (vm_compute; split; congruence).
  split; [reflexivity|]. split; [exact H2|]. split; [reflexivity|].
  exact (debug_monitor_warnings_and_peaks cfg k k' zero_stats st H2).
Defined.

(** C3, the part that fails.  Take the monitor with the ML thread and the
    sensor thread registered.  In one history the ML thread is at 87 %
    during the check, in the other the sensor thread is; in both, usage
    is low again when the snapshot is taken.  Both checks report an
    issue, and the next check of the first history, with usage low,
    reports none.  The two histories end in the same monitor state and
    the same snapshot, so neither says which context is the warned one.  And
    the check that saw 3600 bytes in use recorded no peak: the peak is 0
    after it and 400 after the snapshot. *)
Lemma debug_monitor_no_warned_state :
  let cfg := stack_info_build in
  let st := two_threads_registered in
  let ml_high := kernel_with 496 900 in
  let sensor_high := kernel_with 3696 124 in
  let low := kernel_with 3696 900 in
  let after_a := snd (debug_monitor_check cfg ml_high st) in
  let after_b := snd (debug_monitor_check cfg sensor_high st) in
  let run_a := debug_monitor_get_stats cfg low (Some zero_stats) after_a in
  let run_b := debug_monitor_get_stats cfg low (Some zero_stats) after_b in
  (debug_get_stack_percent cfg ml_high (Some 1),
   debug_get_stack_percent cfg ml_high (Some 2)) = (87, 12)
  /\ (debug_get_stack_percent cfg sensor_high (Some 1),
      debug_get_stack_percent cfg sensor_high (Some 2)) = (9, 87)
  /\ fst (debug_monitor_check cfg ml_high st) = - ENOSPC
  /\ fst (debug_monitor_check cfg sensor_high st) = - ENOSPC
  /\ fst (debug_monitor_check cfg low after_a) = 0
  /\ run_a = run_b
  /\ stack_used_of ml_high 1 = 3600
  /\ monitored_thread.peak_usage (monitored_at (monitored after_a) 0) = 0
  /\ monitored_thread.peak_usage
       (monitored_at (monitored (snd (fst run_a))) 0) = 400.
Proof.
  repeat split; vm_compute; reflexivity.
Qed.

(* ===================================================================== *)
(** * Properties of preprocessing.c: filling a window                     *)
(* ===================================================================== *)

Lemma quantize_window_length (dc0 dc1 dc2 : float32) (l : list accel_sample.t) :
  length (quantize_window dc0 dc1 dc2 l) = (3 * length l)%nat.
Proof.
  unfold quantize_window. induction l as [|smp l IH]; [reflexivity|].
  cbn [flat_map]. rewrite length_app, IH. simpl. lia.
Qed.

Lemma quantize_window_snoc (dc0 dc1 dc2 : float32) (l : list accel_sample.t)
    (smp : accel_sample.t) :
  quantize_window dc0 dc1 dc2 (l ++ [smp])
  = quantize_window dc0 dc1 dc2 l
    ++ [quantize (accel_sample.x smp) dc0;
        quantize (accel_sample.y smp) dc1;
        quantize (accel_sample.z smp) dc2].
Proof.
  unfold quantize_window. rewrite flat_map_app. reflexivity.
Qed.

(** The conversion loop as one equation: after [n] rounds the array
    starts with the quantised image of the first [n] stored samples and
    continues as before. *)
Lemma quantize_loop_eq (st : preprocess_state) (out : list Z) (n : nat) :
  (n <= length (sample_window st))%nat ->
  (3 * n <= length out)%nat ->
  fold_left (quantize_step st) (seq 0 n) (O, out)
  = ((3 * n)%nat,
     quantize_with (dc_offset st) (take n (sample_window st))
     ++ drop (3 * n) out).
Proof.
  unfold quantize_with.
  induction n as [|n IH]; intros Hn Hout.
  - simpl. reflexivity.
  - rewrite seq_S, fold_left_app, IH by lia. cbn [fold_left Nat.add].
    destruct (lookup_lt_is_Some_2 (sample_window st) n ltac:(lia)) as [smp Hs].
    unfold quantize_step, window_at, dc_at. rewrite Hs. cbn [default].
    rewrite (take_S_r _ _ _ Hs), quantize_window_snoc.
    set (A := quantize_window _ _ _ (take n (sample_window st))).
    assert (HA : length A = (3 * n)%nat).
    { unfold A. rewrite quantize_window_length, length_take. lia. }
    assert (Hd : exists a b c,
               drop (3 * n) out = a :: b :: c :: drop (3 * S n) out).
    { pose proof (length_drop out (3 * n)) as L.
      destruct (drop (3 * n) out) as [|a [|b [|c rest]]] eqn:E;
        simpl in L; try lia.
      exists a, b, c. do 3 f_equal.
      replace (3 * S n)%nat with (3 * n + 3)%nat by lia.
      rewrite <- drop_drop, E. reflexivity. }
    destruct Hd as (a & b & c & Hd). rewrite Hd.
    f_equal; [lia|].
    rewrite !insert_app_r_alt by (rewrite ?length_app, ?length_insert; lia).
    rewrite HA.
    replace (3 * n - 3 * n)%nat with 0%nat by lia.
    replace (3 * n + 1 - 3 * n)%nat with 1%nat by lia.
    replace (3 * n + 2 - 3 * n)%nat with 2%nat by lia.
    cbn. rewrite <- app_assoc. reflexivity.
Qed.

Section FillWindow.
Variable W : Z.
Hypothesis W_range : 0 < W <= UINT32_MAX.

(** One accepted sample. *)
Lemma add_sample_step (smp : accel_sample.t) (st : preprocess_state) :
  initialized st = true ->
  0 <= window_pos st < W ->
  preprocessing_add_sample W (Some smp) st
  = (0,
     {| sample_window :=
          <[Z.to_nat (window_pos st) := smp]> (sample_window st);
        window_pos :=
          if W <=? window_pos st + 1 then 0 else window_pos st + 1;
        window_ready :=
          if W <=? window_pos st + 1 then true else window_ready st;
        dc_offset := dc_next (dc_offset st) smp;
        initialized := true |}).
Proof.
  intros Hi Hp. unfold preprocessing_add_sample. rewrite Hi. cbn [negb].
  rewrite wrap32_small by lia.
  destruct (W <=? window_pos st + 1); reflexivity.
Qed.

(** A run of samples that fits in what is left of the window: all are
    accepted, they land in consecutive slots from the write position,
    and the window becomes ready exactly when the last slot is
    written. *)
Lemma add_samples_run (l : list accel_sample.t) :
  forall st : preprocess_state,
    initialized st = true ->
    0 <= window_pos st < W ->
    window_pos st + Z.of_nat (length l) <= W ->
    length (sample_window st) = Z.to_nat W ->
    exists st',
      add_samples W l st = (replicate (length l) 0, st')
      /\ initialized st' = true
      /\ sample_window st'
         = take (Z.to_nat (window_pos st)) (sample_window st)
           ++ l
           ++ drop (Z.to_nat (window_pos st) + length l) (sample_window st)
      /\ dc_offset st' = fold_left dc_next l (dc_offset st)
      /\ window_pos st'
         = (if W <=? window_pos st + Z.of_nat (length l)
            then 0 else window_pos st + Z.of_nat (length l))
      /\ window_ready st'
         = (if W <=? window_pos st + Z.of_nat (length l)
            then true else window_ready st).
Proof.
  induction l as [|smp l IH]; intros st Hi Hp Hfit Hlen.
  - exists st. simpl. rewrite Nat.add_0_r, take_drop, Z.add_0_r.
    destruct (Z.leb_spec W (window_pos st)); [lia|].
    repeat split; assumption.
  - cbn [add_samples]. rewrite add_sample_step by assumption.
    cbn [length] in Hfit.
    destruct (Z.leb_spec W (window_pos st + 1)) as [Hlast|Hmore].
    + (* the last slot: nothing can follow *)
      destruct l as [|? ?]; [|cbn [length] in Hfit; lia].
      eexists. cbn [add_samples]. split; [reflexivity|].
      cbn [initialized sample_window dc_offset window_pos window_ready
           length fold_left].
      destruct (Z.leb_spec W (window_pos st + Z.of_nat 1)); [|lia].
      repeat split.
      rewrite insert_take_drop by lia.
      replace (Z.to_nat (window_pos st) + 1)%nat
        with (S (Z.to_nat (window_pos st))) by lia.
      reflexivity.
    + match goal with
      | |- context [add_samples W l ?s] => set (st1 := s)
      end.
      destruct (IH st1) as (st' & E & Hi' & Hwin & Hdc & Hpos & Hrdy).
      * reflexivity.
      * cbn [st1 window_pos]. lia.
      * cbn [st1 window_pos]. lia.
      * cbn [st1 sample_window]. rewrite length_insert. exact Hlen.
      * exists st'. rewrite E. split; [reflexivity|].
        cbn [st1 sample_window window_pos window_ready dc_offset]
          in Hwin, Hdc, Hpos, Hrdy.
        split; [exact Hi'|].
        replace (window_pos st + 1 + Z.of_nat (length l))
          with (window_pos st + Z.of_nat (length (smp :: l)))
          in Hpos, Hrdy by (cbn [length]; lia).
        repeat split; try assumption.
        rewrite Hwin.
        replace (Z.to_nat (window_pos st + 1))
          with (S (Z.to_nat (window_pos st))) by lia.
        rewrite (take_S_r _ _ smp)
          by (apply list_lookup_insert_eq; lia).
        rewrite take_insert_ge by lia.
        rewrite drop_insert_lt by lia.
        rewrite <- app_assoc. cbn [length app].
        replace (S (Z.to_nat (window_pos st)) + length l)%nat
          with (Z.to_nat (window_pos st) + S (length l))%nat by lia.
        reflexivity.
Qed.
End FillWindow.

(** C1, as the code has it.  Start with an initialised preprocessor at
    write position 0, feed it the [W] samples [l] that complete a window,
    and then, before the window is read, the further samples [e] (at most
    [W] of them, possibly none).  Every append returns 0: none is
    rejected.  There is one buffer, and the late samples are stored in it
    from slot 0 on, over the pending window, while the ready flag stays
    set; the DC estimates follow every sample, late ones included.  The
    read that follows returns 0 and delivers the quantised image of what
    the buffer then holds, [e] followed by the rest of [l], under the
    estimates of that moment: the [W] completing samples exactly when no
    append came in between. *)
Theorem preprocessing_pending_window_overwritten
    (W : Z) (st : preprocess_state) (l e : list accel_sample.t)
    (out : list Z) :
  0 < W <= UINT32_MAX ->
  initialized st = true ->
  window_pos st = 0 ->
  length (sample_window st) = Z.to_nat W ->
  length l = Z.to_nat W ->
  (length e <= Z.to_nat W)%nat ->
  (3 * Z.to_nat W <= length out)%nat ->
  let '(rets1, st1) := add_samples W l st in
  let '(rets2, st2) := add_samples W e st1 in
  let '(ret, st3, out') :=
    preprocessing_get_input W (Some out) (Z.of_nat (length out)) st2 in
  rets1 = replicate (length l) 0
  /\ window_ready st1 = true
  /\ sample_window st1 = l
  /\ rets2 = replicate (length e) 0
  /\ window_ready st2 = true
  /\ sample_window st2 = e ++ drop (length e) l
  /\ dc_offset st2 = fold_left dc_next (l ++ e) (dc_offset st)
  /\ ret = 0
  /\ out' = Some (quantize_with (dc_offset st2) (e ++ drop (length e) l)
                  ++ drop (3 * Z.to_nat W) out).
Proof.
  intros HW Hi Hp Hlen Hl He Hout.
  destruct (add_samples_run W HW l st Hi ltac:(lia) ltac:(lia) Hlen)
    as (st1 & E1 & Hi1 & Hwin1 & Hdc1 & Hpos1 & Hrdy1).
  rewrite E1.
  rewrite Hp in Hwin1, Hpos1, Hrdy1.
  change (Z.to_nat 0) with 0%nat in Hwin1.
  rewrite take_0, app_nil_l, Nat.add_0_l in Hwin1.
  rewrite drop_ge, app_nil_r in Hwin1 by lia.
  destruct (Z.leb_spec W (0 + Z.of_nat (length l))); [|lia].
  assert (Hlen1 : length (sample_window st1) = Z.to_nat W)
    by (rewrite Hwin1; exact Hl).
  destruct (add_samples_run W HW e st1 Hi1 ltac:(lia) ltac:(lia) Hlen1)
    as (st2 & E2 & Hi2 & Hwin2 & Hdc2 & Hpos2 & Hrdy2).
  rewrite E2.
  rewrite Hpos1, Hwin1 in Hwin2.
  change (Z.to_nat 0) with 0%nat in Hwin2.
  rewrite take_0, app_nil_l, Nat.add_0_l in Hwin2.
  assert (Hrdy2' : window_ready st2 = true).
  { rewrite Hrdy2, Hrdy1. destruct (W <=? _); reflexivity. }
  assert (Hlen2 : length (sample_window st2) = Z.to_nat W).
  { rewrite Hwin2, length_app, length_drop. lia. }
  rewrite preprocessing_get_input_ok
    by (try assumption; unfold ML_INPUT_SIZE, ML_INPUT_AXES; lia).
  rewrite quantize_loop_eq by lia.
  cbn [snd]. rewrite <- Hlen2, firstn_all, Hwin2.
  repeat split; try assumption.
  rewrite Hdc2, Hdc1, fold_left_app. reflexivity.
Qed.

(** A window of two samples, completed and then overtaken by one more
    sample before it is read. *)
Lemma preprocessing_pending_window_overwritten_witness :
  let W := 2 in
  let st := preprocessing_init W (preprocess_boot W) in
  let l := ramp_samples 2 in
  let e := [jolt_sample] in
  let out := replicate 6 0 in
  sample_window (snd (add_samples W e (snd (add_samples W l st))))
  = [jolt_sample; ramp_sample 2]
  /\ let '(rets1, st1) := add_samples W l st in
     let '(rets2, st2) := add_samples W e st1 in
     let '(ret, st3, out') :=
       preprocessing_get_input W (Some out) (Z.of_nat (length out)) st2 in
     rets1 = replicate (length l) 0
     /\ window_ready st1 = true
     /\ sample_window st1 = l
     /\ rets2 = replicate (length e) 0
     /\ window_ready st2 = true
     /\ sample_window st2 = e ++ drop (length e) l
     /\ dc_offset st2 = fold_left dc_next (l ++ e) (dc_offset st)
     /\ ret = 0
     /\ out' = Some (quantize_with (dc_offset st2) (e ++ drop (length e) l)
                     ++ drop (3 * Z.to_nat W) out).
Proof.
  intros W st l e out. split; [vm_compute; reflexivity|].
  apply (preprocessing_pending_window_overwritten W st l e out).
  - vm_compute; split; congruence.
  - reflexivity.
  - reflexivity.
  - reflexivity.
  - reflexivity.
  - simpl; lia.
  - simpl; lia.
Defined.

Lemma differ_on_prefix (a b : option (list Z)) (pa pb : list Z) :
  take 3 <$> a = Some pa -> take 3 <$> b = Some pb -> pb <> pa -> b <> a.
Proof. intros Ha Hb Hne E. subst b. rewrite Ha in Hb. congruence. Qed.

(** C1, as stated, fails.  With the default window of 50 samples: feed
    the 50 ramp samples, so that the window is ready, and let one more
    sample arrive before the read.  The append returns 0 (it is not
    rejected), the ready flag is still set, and slot 0 of the only buffer
    now holds the new sample (no second buffer took it).  The read that
    follows returns 0 and a buffer different from the one a read before
    the append returns; its first triple is the image of the late sample,
    not of the first completing sample under the estimates of either
    moment. *)
Lemma preprocessing_pending_window_corrupted :
  let W := CONFIG_ML_INFERENCE_WINDOW_SIZE in
  let out := replicate 150 0 in
  let st50 :=
    snd (add_samples W (ramp_samples 50)
           (preprocessing_init W (preprocess_boot W))) in
  let read_at_once := preprocessing_get_input W (Some out) 150 st50 in
  let late := preprocessing_add_sample W (Some jolt_sample) st50 in
  let st51 := snd late in
  let read_later := preprocessing_get_input W (Some out) 150 st51 in
  window_ready st50 = true
  /\ window_at st50 0 = ramp_sample 1
  /\ fst late = 0
  /\ window_ready st51 = true
  /\ window_at st51 0 = jolt_sample
  /\ fst (fst read_at_once) = 0
  /\ fst (fst read_later) = 0
  /\ snd read_later <> snd read_at_once
  /\ take 3 <$> snd read_at_once = Some [-24; 12; 0]
  /\ take 3 <$> snd read_later = Some [-112; 78; -60]
  /\ [quantize (accel_sample.x jolt_sample) (dc_at st51 0);
      quantize (accel_sample.y jolt_sample) (dc_at st51 1);
      quantize (accel_sample.z jolt_sample) (dc_at st51 2)]
     = [-112; 78; -60]
  /\ [quantize (accel_sample.x (ramp_sample 1)) (dc_at st51 0);
      quantize (accel_sample.y (ramp_sample 1)) (dc_at st51 1);
      quantize (accel_sample.z (ramp_sample 1)) (dc_at st51 2)]
     = [-18; 8; 3].
Proof.
  intros W out st50 read_at_once late st51 read_later.
  assert (H1 : take 3 <$> snd read_at_once = Some [-24; 12; 0])
    by (vm_compute; reflexivity).
  assert (H2 : take 3 <$> snd read_later = Some [-112; 78; -60])
    by (vm_compute; reflexivity).
  do 7 (split; [vm_compute; reflexivity|]).
  split; [exact (differ_on_prefix _ _ _ _ H1 H2 ltac:(discriminate))|].
  split; [exact H1|]. split; [exact H2|].
  split; vm_compute; reflexivity.
Qed.


(* ===================================================================== *)
(** * Further properties of timing.c                                      *)
(* ===================================================================== *)

(** X2.  The first [profile_timing_init] fixes the conversion factor at
    the clock frequency in MHz, or at 1 when the clock is slower than
    1 MHz; whatever frequencies later calls see, they change nothing. *)
Theorem profile_timing_init_once (freq : Z) (later : list Z) :
  let st := profile_timing_init freq timing_boot in
  cycles_per_us st = Z.max 1 (wrap32 freq / 1000000)
  /\ timing_initialized st = true
  /\ fold_left (fun s f => profile_timing_init f s) later st = st.
Proof.
  cbv zeta. split; [|split; [reflexivity|]].
  - unfold profile_timing_init; simpl.
    pose proof (wrap32_range freq) as [Hlo _].
    pose proof (Z.div_pos (wrap32 freq) 1000000 Hlo ltac:(lia)).
    destruct (Z.eqb_spec (wrap32 freq / 1000000) 0); simpl; lia.
  - induction later as [|f fs IH]; [reflexivity|].
    cbn [fold_left]. exact IH.
Qed.

Lemma sum_list_app (l : list Z) (d : Z) :
  sum_list (l ++ [d]) = sum_list l + d.
Proof.
  unfold sum_list. induction l as [|a l IH]; simpl; [lia|].
  rewrite IH. lia.
Qed.

(** What the statistics record holds after the durations [seen] have
    been recorded into a reset record. *)
Lemma record_all_inv (ds : list Z) :
  forall (seen : list Z) (s : timing_stats_t.t),
    Forall (fun d => 0 < d <= UINT32_MAX) ds ->
    Z.of_nat (length seen + length ds) <= UINT32_MAX ->
    timing_stats_t.count s = Z.of_nat (length seen) ->
    timing_stats_t.total_us s = sum_list seen ->
    0 <= timing_stats_t.total_us s <= Z.of_nat (length seen) * UINT32_MAX ->
    (seen = [] -> timing_stats_t.min_us s = 0 /\ timing_stats_t.max_us s = 0) ->
    (seen <> [] ->
       0 < timing_stats_t.min_us s
       /\ In (timing_stats_t.min_us s) seen
       /\ In (timing_stats_t.max_us s) seen
       /\ Forall (fun d => timing_stats_t.min_us s <= d
                           <= timing_stats_t.max_us s) seen) ->
    exists s',
      record_all ds (Some s) = Some s'
      /\ timing_stats_t.count s' = Z.of_nat (length (seen ++ ds))
      /\ timing_stats_t.total_us s' = sum_list (seen ++ ds)
      /\ (seen ++ ds <> [] ->
          In (timing_stats_t.min_us s') (seen ++ ds)
          /\ In (timing_stats_t.max_us s') (seen ++ ds)
          /\ Forall (fun d => timing_stats_t.min_us s' <= d
                              <= timing_stats_t.max_us s') (seen ++ ds))
      /\ (ds <> [] ->
          timing_stats_t.avg_us s'
          = sum_list (seen ++ ds) / Z.of_nat (length (seen ++ ds))).
Proof.
  induction ds as [|d ds IH]; intros seen s Hds Hlen Hc Ht Htb He Hne.
  - exists s. rewrite app_nil_r. repeat split; try assumption; try tauto.
    all: intros H; destruct (Hne H) as (? & ? & ? & ?); assumption.
  - inversion Hds as [|? ? Hd Hds']; subst.
    cbn [length] in Hlen.
    change (record_all (d :: ds) (Some s))
      with (record_all ds (profile_timing_record (Some s) d)).
    cbn [profile_timing_record].
    assert (Hcnt : wrap32 (timing_stats_t.count s + 1)
                   = Z.of_nat (length (seen ++ [d]))).
    { rewrite Hc, length_app. cbn [length].
      rewrite wrap32_small by lia. lia. }
    assert (Htot : wrap64 (timing_stats_t.total_us s + d)
                   = sum_list (seen ++ [d])).
    { rewrite sum_list_app, <- Ht. unfold wrap64. apply Z.mod_small.
      unfold UINT32_MAX in *. nia. }
    rewrite Hcnt, Htot.
    match goal with
    | |- context [record_all ds (Some ?r)] => set (s1 := r)
    end.
    assert (Hs1min :
      0 < timing_stats_t.min_us s1
      /\ In (timing_stats_t.min_us s1) (seen ++ [d])
      /\ In (timing_stats_t.max_us s1) (seen ++ [d])
      /\ Forall (fun x => timing_stats_t.min_us s1 <= x
                          <= timing_stats_t.max_us s1) (seen ++ [d])).
    { cbn [s1 timing_stats_t.min_us timing_stats_t.max_us].
      destruct seen as [|a seen'].
      - destruct (He eq_refl) as [Hmin Hmax]. rewrite Hmin, Hmax.
        cbn [app]. rewrite Z.eqb_refl, orb_true_r.
        destruct (Z.ltb_spec 0 d); [|lia].
        repeat split; try lia; try (left; reflexivity).
        constructor; [lia | constructor].
      - destruct (Hne ltac:(discriminate)) as (Hpos & Hmin & Hmax & Hall).
        destruct (Z.eqb_spec (timing_stats_t.min_us s) 0); [lia|].
        rewrite orb_false_r.
        destruct (Z.ltb_spec d (timing_stats_t.min_us s));
          destruct (Z.ltb_spec (timing_stats_t.max_us s) d);
          (split; [lia|]);
          (split; [apply in_or_app; simpl; tauto|]);
          (split; [apply in_or_app; simpl; tauto|]);
          apply Forall_app; (split;
            [eapply Forall_impl; [exact Hall|]; simpl; intros; lia
            | constructor; [lia | constructor]]). }
    destruct (IH (seen ++ [d]) s1) as (s' & E & Hc' & Ht' & Hm' & Hav').
    + exact Hds'.
    + rewrite length_app. cbn [length]. lia.
    + cbn [s1 timing_stats_t.count]. reflexivity.
    + cbn [s1 timing_stats_t.total_us]. reflexivity.
    + cbn [s1 timing_stats_t.total_us]. rewrite sum_list_app, <- Ht.
      rewrite length_app. cbn [length]. unfold UINT32_MAX in *. nia.
    + intros H. destruct seen; discriminate.
    + intros _. exact Hs1min.
    + rewrite <- app_assoc in *. cbn [app] in *.
      exists s'. split; [exact E|]. split; [exact Hc'|]. split; [exact Ht'|].
      split; [exact Hm'|].
      intros _. destruct ds as [|d' ds'].
      * unfold record_all in E. cbn [fold_left] in E.
        injection E as <-.
        cbn [s1 timing_stats_t.avg_us].
        assert (Hlenpos : 0 < Z.of_nat (length (seen ++ [d])))
          by (rewrite length_app; cbn [length]; lia).
        destruct (Z.ltb_spec 0 (Z.of_nat (length (seen ++ [d])))); [|lia].
        apply wrap32_small. split.
        -- apply Z.div_pos; [|lia]. rewrite sum_list_app, <- Ht. lia.
        -- apply Z.div_le_upper_bound; [lia|].
           rewrite sum_list_app, <- Ht, length_app. cbn [length].
           unfold UINT32_MAX in *. nia.
      * apply Hav'. discriminate.
Qed.

Lemma sum_list_bounds (lo hi : Z) (l : list Z) :
  Forall (fun d => lo <= d <= hi) l ->
  Z.of_nat (length l) * lo <= sum_list l <= Z.of_nat (length l) * hi.
Proof.
  unfold sum_list. induction 1 as [|d l Hd _ IH]; simpl; [lia|].
  cbn [fold_right] in *. nia.
Qed.

(** X1.  Recording a non-empty run of positive durations into a reset
    statistics record leaves the number of durations in [count], their
    sum in [total_us], the smallest and the largest of them in [min_us]
    and [max_us], and the rounded-down mean in [avg_us], which lies
    between the two. *)
Theorem profile_timing_record_aggregates
    (ds : list Z) (old : timing_stats_t.t) :
  ds <> [] ->
  Forall (fun d => 0 < d <= UINT32_MAX) ds ->
  Z.of_nat (length ds) <= UINT32_MAX ->
  exists s,
    record_all ds (profile_timing_stats_reset (Some old)) = Some s
    /\ timing_stats_t.count s = Z.of_nat (length ds)
    /\ timing_stats_t.total_us s = sum_list ds
    /\ In (timing_stats_t.min_us s) ds
    /\ In (timing_stats_t.max_us s) ds
    /\ Forall (fun d => timing_stats_t.min_us s <= d
                        <= timing_stats_t.max_us s) ds
    /\ timing_stats_t.avg_us s = sum_list ds / Z.of_nat (length ds)
    /\ timing_stats_t.min_us s <= timing_stats_t.avg_us s
       <= timing_stats_t.max_us s.
Proof.
  intros Hne Hds Hlen. cbn [profile_timing_stats_reset].
  match goal with
  | |- context [record_all ds (Some ?r)] =>
      destruct (record_all_inv ds [] r Hds) as (s & E & Hc & Ht & Hm & Ha)
  end; try reflexivity; try (simpl; lia); try tauto.
  cbn [app] in *.
  destruct (Hm Hne) as (Hmin & Hmax & Hall).
  exists s. repeat split; try assumption; try (apply Ha, Hne).
  - rewrite (Ha Hne).
    apply Z.div_le_lower_bound; [destruct ds; [tauto | simpl; lia]|].
    apply (sum_list_bounds _ _ _ Hall).
  - rewrite (Ha Hne).
    apply Z.div_le_upper_bound; [destruct ds; [tauto | simpl; lia]|].
    apply (sum_list_bounds _ _ _ Hall).
Qed.

Lemma profile_timing_record_aggregates_witness :
  exists s,
    record_all [5200; 4800; 5100]
      (profile_timing_stats_reset
         (Some {| timing_stats_t.min_us := 7; timing_stats_t.max_us := 9;
                  timing_stats_t.avg_us := 8; timing_stats_t.count := 2;
                  timing_stats_t.total_us := 16 |})) = Some s
    /\ timing_stats_t.count s = Z.of_nat (length [5200; 4800; 5100])
    /\ timing_stats_t.total_us s = sum_list [5200; 4800; 5100]
    /\ In (timing_stats_t.min_us s) [5200; 4800; 5100]
    /\ In (timing_stats_t.max_us s) [5200; 4800; 5100]
    /\ Forall (fun d => timing_stats_t.min_us s <= d
                        <= timing_stats_t.max_us s) [5200; 4800; 5100]
    /\ timing_stats_t.avg_us s
       = sum_list [5200; 4800; 5100] / Z.of_nat (length [5200; 4800; 5100])
    /\ timing_stats_t.min_us s <= timing_stats_t.avg_us s
       <= timing_stats_t.max_us s.
Proof.
  apply profile_timing_record_aggregates.
  - discriminate.
  - repeat constructor; unfold UINT32_MAX; lia.
  - unfold UINT32_MAX; simpl; lia.
Defined.

(* ===================================================================== *)
(** * Further properties of ring_buffer.c                                 *)
(* ===================================================================== *)

Section RingBufferRuns.
Variable CAP : Z.
Hypothesis CAP_range : 0 < CAP <= UINT32_MAX.

Lemma push_all_reachable (rs : list inference_result_t) :
  forall s, rb_reachable CAP s -> rb_reachable CAP (snd (push_all CAP rs s)).
Proof.
  induction rs as [|r rs IH]; intros s Hs; [exact Hs|].
  cbn [push_all].
  pose proof (rb_reach_step CAP (RbPush (Some r)) s Hs) as H1.
  cbn [rb_apply] in H1.
  destruct (result_buffer_push CAP (Some r) s) as [ret s1].
  specialize (IH s1 H1).
  destruct (push_all CAP rs s1). exact IH.
Qed.

Lemma pop_n_reachable (n : nat) :
  forall d s, rb_reachable CAP s -> rb_reachable CAP (snd (pop_n CAP n d s)).
Proof.
  induction n as [|n IH]; intros d s Hs; [exact Hs|].
  cbn [pop_n].
  pose proof (rb_reach_step CAP (RbPop (Some d)) s Hs) as H1.
  cbn [rb_apply] in H1.
  destruct (result_buffer_pop CAP (Some d) s) as [[ret s1] [d1|]];
    cbn [fst snd] in H1; [|exact H1].
  specialize (IH d1 s1 H1).
  destruct (pop_n CAP n d1 s1). exact IH.
Qed.

Lemma rb_contents_empty (s : ring_state) :
  count s = 0 -> rb_contents CAP s = [].
Proof. intros H. unfold rb_contents. rewrite H. reflexivity. Qed.

(** Any number of pops, also more than the queue holds. *)
Lemma pop_n_general (n : nat) :
  forall (d : inference_result_t) (s : ring_state),
    rb_wf CAP s ->
    fst (pop_n CAP n d s)
    = ((fun r => (0, r)) <$> take n (rb_contents CAP s))
      ++ replicate (n - length (rb_contents CAP s))
           (- EAGAIN, default d (last (rb_contents CAP s)))
    /\ rb_contents CAP (snd (pop_n CAP n d s)) = drop n (rb_contents CAP s)
    /\ rb_wf CAP (snd (pop_n CAP n d s)).
Proof.
  induction n as [|n IH]; intros d s Hwf.
  - simpl. rewrite drop_0. auto.
  - pose proof Hwf as (_ & _ & (Hc & _) & _).
    destruct (Z.eq_dec (count s) 0) as [Hz|Hnz].
    + cbn [pop_n]. rewrite (pop_empty CAP d s Hz).
      destruct (IH d s Hwf) as (Hout & Hcont & Hwf').
      destruct (pop_n CAP n d s) as [outs s2]. cbn [fst snd] in *.
      rewrite Hout, Hcont, (rb_contents_empty s Hz).
      rewrite !take_nil, !drop_nil. cbn [length fmap list_fmap app last default].
      rewrite !Nat.sub_0_r. auto.
    + destruct (pop_contents CAP CAP_range d s Hwf ltac:(lia))
        as (s1 & Hpop & Hwf1 & Hcs).
      cbn [pop_n]. rewrite Hpop.
      destruct (IH (buffer_at s (tail s)) s1 Hwf1) as (Hout & Hcont & Hwf').
      destruct (pop_n CAP n (buffer_at s (tail s)) s1) as [outs s2].
      cbn [fst snd] in *.
      rewrite Hout, Hcont, Hcs. cbn [take drop length Nat.sub].
      rewrite fmap_cons, last_cons.
      split; [|auto].
      cbn [app]. do 3 f_equal.
      destruct (last (rb_contents CAP s1)); reflexivity.
Qed.
End RingBufferRuns.

(** X3.  Pushing any run of results onto any reachable queue returns 0
    every time and leaves the newest [CAP] of the old entries followed by
    the run: entries are dropped from the old end only, in order, and
    only as many as do not fit. *)
Theorem result_buffer_push_keeps_newest
    (CAP : Z) (rs : list inference_result_t) (s : ring_state) :
  0 < CAP <= UINT32_MAX ->
  rb_reachable CAP s ->
  let '(rets, s') := push_all CAP rs s in
  rets = replicate (length rs) 0
  /\ rb_contents CAP s' = keep_last (Z.to_nat CAP) (rb_contents CAP s ++ rs)
  /\ result_buffer_count s' = Z.min CAP (count s + Z.of_nat (length rs))
  /\ rb_reachable CAP s'.
Proof.
  intros HCAP Hs.
  pose proof (rb_reachable_wf CAP HCAP s Hs) as Hwf.
  destruct (push_all_contents CAP HCAP rs s Hwf) as (Hrets & Hwf' & Hcont).
  pose proof (push_all_reachable CAP rs s Hs) as Hreach.
  destruct (push_all CAP rs s) as [rets s']. cbn [fst snd] in *.
  repeat split; try assumption.
  pose proof (rb_contents_length CAP s') as L.
  rewrite Hcont, keep_last_length, length_app, rb_contents_length in L.
  destruct Hwf as (_ & _ & (? & _) & _), Hwf' as (_ & _ & (? & _) & _).
  unfold result_buffer_count. lia.
Qed.

Lemma result_buffer_push_keeps_newest_witness :
  let CAP := CONFIG_OUTPUT_RING_BUFFER_SIZE in
  let s := snd (push_all CAP (numbered_results 10) (ring_boot CAP)) in
  let rs := numbered_results 9 in
  (sequence <$> rb_contents CAP (snd (push_all CAP rs s)))
  = [4; 5; 6; 7; 8; 9; 10; 1; 2; 3; 4; 5; 6; 7; 8; 9]
  /\ let '(rets, s') := push_all CAP rs s in
     rets = replicate (length rs) 0
     /\ rb_contents CAP s'
        = keep_last (Z.to_nat CAP) (rb_contents CAP s ++ rs)
     /\ result_buffer_count s' = Z.min CAP (count s + Z.of_nat (length rs))
     /\ rb_reachable CAP s'.
Proof.
  intros CAP s rs. split; [vm_compute; reflexivity|].
  apply (result_buffer_push_keeps_newest CAP rs s).
  - vm_compute; split; congruence.
  - apply push_all_reachable, rb_reach_boot.
Defined.

(** X4.  Any number [n] of pops from a reachable queue: the first
    [count] of them return 0 and hand out the entries oldest first; the
    pops beyond that return [-EAGAIN] and leave in the caller's record
    what the last successful pop put there.  The queue keeps the entries
    not handed out, and its count never goes below 0. *)
Theorem result_buffer_pop_oldest_first
    (CAP : Z) (n : nat) (d : inference_result_t) (s : ring_state) :
  0 < CAP <= UINT32_MAX ->
  rb_reachable CAP s ->
  let '(outs, s') := pop_n CAP n d s in
  outs = ((fun r => (0, r)) <$> take n (rb_contents CAP s))
         ++ replicate (n - Z.to_nat (count s))
              (- EAGAIN, default d (last (rb_contents CAP s)))
  /\ rb_contents CAP s' = drop n (rb_contents CAP s)
  /\ result_buffer_count s' = Z.max 0 (count s - Z.of_nat n)
  /\ rb_reachable CAP s'.
Proof.
  intros HCAP Hs.
  pose proof (rb_reachable_wf CAP HCAP s Hs) as Hwf.
  destruct (pop_n_general CAP HCAP n d s Hwf) as (Hout & Hcont & Hwf').
  pose proof (pop_n_reachable CAP n d s Hs) as Hreach.
  destruct (pop_n CAP n d s) as [outs s']. cbn [fst snd] in *.
  rewrite rb_contents_length in Hout.
  repeat split; try assumption.
  pose proof (rb_contents_length CAP s') as L.
  rewrite Hcont, length_drop, rb_contents_length in L.
  destruct Hwf as (_ & _ & (? & _) & _), Hwf' as (_ & _ & (? & _) & _).
  unfold result_buffer_count. lia.
Qed.

Lemma result_buffer_pop_oldest_first_witness :
  let CAP := CONFIG_OUTPUT_RING_BUFFER_SIZE in
  let s := snd (push_all CAP (numbered_results 3) (ring_boot CAP)) in
  let d := zero_result in
  ((fun o => (fst o, sequence (snd o))) <$> fst (pop_n CAP 5 d s))
  = [(0, 1); (0, 2); (0, 3); (-11, 3); (-11, 3)]
  /\ let '(outs, s') := pop_n CAP 5 d s in
     outs = ((fun r => (0, r)) <$> take 5 (rb_contents CAP s))
            ++ replicate (5 - Z.to_nat (count s))
                 (- EAGAIN, default d (last (rb_contents CAP s)))
     /\ rb_contents CAP s' = drop 5 (rb_contents CAP s)
     /\ result_buffer_count s' = Z.max 0 (count s - Z.of_nat 5)
     /\ rb_reachable CAP s'.
Proof.
  intros CAP s d. split; [vm_compute; reflexivity|].
  apply (result_buffer_pop_oldest_first CAP 5 d s).
  - vm_compute; split; congruence.
  - apply push_all_reachable, rb_reach_boot.
Defined.

(** X5.  As long as the run fits in the free slots, nothing is lost: the
    pops that follow hand out the old entries and then the pushed ones,
    each once and in the order they were pushed, and leave the queue
    empty. *)
Theorem result_buffer_round_trip
    (CAP : Z) (rs : list inference_result_t) (d : inference_result_t)
    (s : ring_state) :
  0 < CAP <= UINT32_MAX ->
  rb_reachable CAP s ->
  count s + Z.of_nat (length rs) <= CAP ->
  let s1 := snd (push_all CAP rs s) in
  let '(outs, s2) := pop_n CAP (Z.to_nat (count s) + length rs) d s1 in
  outs = (fun r => (0, r)) <$> (rb_contents CAP s ++ rs)
  /\ result_buffer_empty s2 = true.
Proof.
  intros HCAP Hs Hfit s1.
  pose proof (rb_reachable_wf CAP HCAP s Hs) as Hwf.
  destruct (push_all_contents CAP HCAP rs s Hwf) as (_ & Hwf1 & Hcont).
  fold s1 in Hwf1, Hcont.
  destruct (pop_n_general CAP HCAP (Z.to_nat (count s) + length rs) d s1 Hwf1)
    as (Hout & Hcont2 & Hwf2).
  destruct (pop_n CAP (Z.to_nat (count s) + length rs) d s1) as [outs s2].
  cbn [fst snd] in *.
  assert (Hc1 : rb_contents CAP s1 = rb_contents CAP s ++ rs).
  { rewrite Hcont. apply keep_last_short.
    rewrite length_app, rb_contents_length.
    destruct Hwf as (_ & _ & (? & _) & _). lia. }
  assert (Hl : length (rb_contents CAP s ++ rs)
               = (Z.to_nat (count s) + length rs)%nat)
    by (rewrite length_app, rb_contents_length; reflexivity).
  split.
  - rewrite Hout, Hc1, take_ge, Hl, Nat.sub_diag by lia.
    cbn [replicate]. apply app_nil_r.
  - pose proof (rb_contents_length CAP s2) as L.
    rewrite Hcont2, Hc1, drop_ge in L by lia. cbn [length] in L.
    destruct Hwf2 as (_ & _ & (? & _) & _).
    unfold result_buffer_empty. apply Z.eqb_eq. lia.
Qed.

Lemma result_buffer_round_trip_witness :
  let CAP := CONFIG_OUTPUT_RING_BUFFER_SIZE in
  let s := rb_apply CAP (RbPop (Some zero_result))
             (snd (push_all CAP (numbered_results 14) (ring_boot CAP))) in
  let rs := numbered_results 3 in
  count s + Z.of_nat (length rs) <= CAP
  /\ let s1 := snd (push_all CAP rs s) in
     let '(outs, s2) :=
       pop_n CAP (Z.to_nat (count s) + length rs) zero_result s1 in
     outs = (fun r => (0, r)) <$> (rb_contents CAP s ++ rs)
     /\ result_buffer_empty s2 = true.
Proof.
  intros CAP s rs.
  assert (H : count s + Z.of_nat (length rs) <= CAP)
    by (vm_compute; congruence).
  split; [exact H|].
  apply (result_buffer_round_trip CAP rs zero_result s);
    [vm_compute; split; congruence | | exact H].
  apply rb_reach_step, push_all_reachable, rb_reach_boot.
Defined.

(* ===================================================================== *)
(** * Further properties of preprocessing.c                               *)
(* ===================================================================== *)

Section PreprocessorRuns.
Variable W : Z.
Hypothesis W_range : 0 < W <= UINT32_MAX.

Lemma pre_wf_boot : pre_wf W (preprocess_boot W).
Proof.
  unfold pre_wf, preprocess_boot; simpl. rewrite length_replicate. lia.
Qed.

Lemma pre_wf_apply (op : pre_op) (st : preprocess_state) :
  pre_wf W st -> pre_wf W (pre_apply W op st).
Proof.
  intros Hwf. pose proof Hwf as (Hlen & Hpos & Hdc).
  destruct op as [|sample|output size|]; cbn [pre_apply].
  - unfold pre_wf, preprocessing_init; simpl. rewrite length_replicate. lia.
  - unfold preprocessing_add_sample.
    destruct (initialized st); cbn [negb snd]; [|exact Hwf].
    destruct sample as [smp|]; cbn [snd]; [|exact Hwf].
    rewrite wrap32_small by lia.
    destruct (Z.leb_spec W (window_pos st + 1));
      unfold pre_wf; cbn [snd sample_window window_pos dc_offset length];
      rewrite length_insert; repeat split; lia.
  - destruct output as [out|]; [|exact Hwf].
    destruct (preprocessing_get_input_cases W out size st)
      as [[_ E]|[(_ & _ & E)|(Hge & Hr & _)]].
    + rewrite E. exact Hwf.
    + rewrite E. exact Hwf.
    + rewrite preprocessing_get_input_ok by assumption. exact Hwf.
  - unfold pre_wf, preprocessing_clear_window; simpl.
    rewrite length_replicate. lia.
Qed.

Lemma pre_reachable_wf (st : preprocess_state) :
  pre_reachable W st -> pre_wf W st.
Proof.
  induction 1 as [|op st _ IH]; [apply pre_wf_boot | apply pre_wf_apply, IH].
Qed.

(** Any run of samples into an initialised preprocessor: every append is
    accepted, the write position advances modulo [W], and the ready flag
    is raised once the position has gone round. *)
Lemma add_samples_any (l : list accel_sample.t) :
  forall st : preprocess_state,
    initialized st = true ->
    pre_wf W st ->
    exists st',
      add_samples W l st = (replicate (length l) 0, st')
      /\ initialized st' = true
      /\ pre_wf W st'
      /\ window_pos st' = (window_pos st + Z.of_nat (length l)) mod W
      /\ window_ready st'
         = window_ready st || (W <=? window_pos st + Z.of_nat (length l))
      /\ dc_offset st' = fold_left dc_next l (dc_offset st).
Proof.
  induction l as [|smp l IH]; intros st Hi Hwf.
  - exists st. pose proof Hwf as (_ & Hp & _). cbn [add_samples length].
    rewrite Z.add_0_r, Z.mod_small by lia.
    destruct (Z.leb_spec W (window_pos st)); [lia|].
    rewrite orb_false_r. repeat split; try assumption; apply Hwf.
  - pose proof Hwf as (Hlen & Hp & Hdc).
    cbn [add_samples]. rewrite (add_sample_step W W_range smp st Hi Hp).
    match goal with
    | |- context [add_samples W l ?s] => set (st1 := s)
    end.
    assert (Hwf1 : pre_wf W st1).
    { unfold pre_wf. cbn [st1 sample_window window_pos dc_offset dc_next length].
      rewrite length_insert.
      destruct (Z.leb_spec W (window_pos st + 1)); repeat split; lia. }
    destruct (IH st1 eq_refl Hwf1) as (st' & E & Hi' & Hwf' & Hpos & Hrdy & Hd).
    exists st'. rewrite E. cbn [length replicate].
    split; [reflexivity|]. split; [exact Hi'|]. split; [exact Hwf'|].
    cbn [st1 window_pos window_ready dc_offset] in Hpos, Hrdy, Hd.
    rewrite Hpos, Hrdy, Hd. cbn [fold_left].
    replace (Z.of_nat (S (length l))) with (1 + Z.of_nat (length l)) by lia.
    destruct (Z.leb_spec W (window_pos st + 1)) as [Hlast|Hmore].
    + assert (Hw : window_pos st + 1 = W) by lia.
      repeat split.
      * replace (window_pos st + (1 + Z.of_nat (length l)))
          with (Z.of_nat (length l) + 1 * W) by lia.
        rewrite Z.mod_add by lia. reflexivity.
      * destruct (Z.leb_spec W (window_pos st + (1 + Z.of_nat (length l))));
          [|lia].
        rewrite orb_true_r. reflexivity.
    + repeat split.
      * f_equal. lia.
      * do 2 f_equal. lia.
Qed.
End PreprocessorRuns.

(** X6.  In every state the preprocessor can reach, whatever the calls
    and their arguments were, the window array still has its [W] slots,
    the DC array its three, and the write position reported by
    [preprocessing_get_window_fill] lies in [[0, W)]: an append never
    stores outside the window. *)
Theorem preprocessing_position_in_window (W : Z) (st : preprocess_state) :
  0 < W <= UINT32_MAX ->
  pre_reachable W st ->
  0 <= preprocessing_get_window_fill st < W
  /\ length (sample_window st) = Z.to_nat W
  /\ length (dc_offset st) = 3%nat
  /\ forall op, 0 <= preprocessing_get_window_fill (pre_apply W op st) < W.
Proof.
  intros HW Hs.
  pose proof (pre_reachable_wf W HW st Hs) as Hwf.
  pose proof Hwf as (Hlen & Hp & Hdc).
  repeat split; try assumption; try apply Hp.
  all: destruct (pre_wf_apply W HW op st Hwf) as (_ & Hp' & _); apply Hp'.
Qed.

Lemma preprocessing_position_in_window_witness :
  let W := CONFIG_ML_INFERENCE_WINDOW_SIZE in
  let st := snd (add_samples W (ramp_samples 50)
                   (preprocessing_init W (preprocess_boot W))) in
  preprocessing_get_window_fill st = 0
  /\ 0 <= preprocessing_get_window_fill st < W
  /\ length (sample_window st) = Z.to_nat W
  /\ length (dc_offset st) = 3%nat
  /\ forall op, 0 <= preprocessing_get_window_fill (pre_apply W op st) < W.
Proof.
  intros W st. split; [vm_compute; reflexivity|].
  apply (preprocessing_position_in_window W st).
  - vm_compute; split; congruence.
  - assert (Hrun : forall l s, pre_reachable W s ->
              pre_reachable W (snd (add_samples W l s))).
    { induction l as [|smp l IH]; intros s Hs; [exact Hs|].
      cbn [add_samples].
      pose proof (pre_reach_step W (PreAdd (Some smp)) s Hs) as H1.
      cbn [pre_apply] in H1.
      destruct (preprocessing_add_sample W (Some smp) s) as [ret s1].
      specialize (IH s1 H1). destruct (add_samples W l s1). exact IH. }
    apply Hrun. exact (pre_reach_step W PreInit _ (pre_reach_boot W)).
Defined.

(** X7.  Feeding [n] samples to an initialised preprocessor whose write
    position is [p]: every append returns 0, the fill level becomes
    [(p + n) mod W], and the window is ready exactly when it was ready
    before or the position has reached [W] on the way, that is when
    [p + n >= W].  From a fresh start the window is ready after [W]
    samples and no sooner. *)
Theorem preprocessing_ready_after_W_samples
    (W : Z) (l : list accel_sample.t) (st : preprocess_state) :
  0 < W <= UINT32_MAX ->
  pre_reachable W st ->
  initialized st = true ->
  let '(rets, st') := add_samples W l st in
  rets = replicate (length l) 0
  /\ preprocessing_get_window_fill st'
     = (window_pos st + Z.of_nat (length l)) mod W
  /\ (preprocessing_window_ready st' = true
      <-> window_ready st = true
          \/ W <= window_pos st + Z.of_nat (length l)).
Proof.
  intros HW Hs Hi.
  pose proof (pre_reachable_wf W HW st Hs) as Hwf.
  destruct (add_samples_any W HW l st Hi Hwf)
    as (st' & E & _ & _ & Hpos & Hrdy & _).
  rewrite E. split; [reflexivity|]. split; [exact Hpos|].
  unfold preprocessing_window_ready. rewrite Hrdy, orb_true_iff, Z.leb_le.
  reflexivity.
Qed.

Lemma preprocessing_ready_after_W_samples_witness :
  let W := CONFIG_ML_INFERENCE_WINDOW_SIZE in
  let st := preprocessing_init W (preprocess_boot W) in
  let l := ramp_samples 49 in
  preprocessing_window_ready (snd (add_samples W l st)) = false
  /\ let '(rets, st') := add_samples W l st in
     rets = replicate (length l) 0
     /\ preprocessing_get_window_fill st'
        = (window_pos st + Z.of_nat (length l)) mod W
     /\ (preprocessing_window_ready st' = true
         <-> window_ready st = true
             \/ W <= window_pos st + Z.of_nat (length l)).
Proof.
  intros W st l. split; [vm_compute; reflexivity|].
  apply (preprocessing_ready_after_W_samples W l st).
  - vm_compute; split; congruence.
  - exact (pre_reach_step W PreInit _ (pre_reach_boot W)).
  - reflexivity.
Defined.

(** A raised ready flag means the preprocessor has been initialised. *)
Lemma pre_reachable_ready_initialized (W : Z) (st : preprocess_state) :
  pre_reachable W st -> window_ready st = true -> initialized st = true.
Proof.
  induction 1 as [|op st _ IH]; [discriminate|].
  destruct op as [|sample|output size|]; cbn [pre_apply].
  - reflexivity.
  - unfold preprocessing_add_sample.
    destruct (initialized st) eqn:Hi; cbn [negb];
      [|cbn [snd]; intros H; specialize (IH H); congruence].
    destruct sample; [|cbn [snd]; intros _; congruence].
    destruct (W <=? _); cbn [snd initialized]; intros _; congruence.
  - destruct output as [out|]; [|exact IH].
    destruct (preprocessing_get_input_cases W out size st)
      as [[_ E]|[(_ & _ & E)|(Hge & Hr & _)]].
    + rewrite E. exact IH.
    + rewrite E. exact IH.
    + rewrite preprocessing_get_input_ok by assumption. discriminate.
  - discriminate.
Qed.

(** X8.  A window is handed out once.  After a read that succeeded with
    the write position at [p], a read that follows [n] further samples
    succeeds exactly when [p + n >= W], that is when the position has
    gone round again; before that it returns [-EAGAIN]. *)
Theorem preprocessing_window_read_once
    (W : Z) (st st1 : preprocess_state) (out out1 out2 : list Z)
    (output_size : Z) (l : list accel_sample.t) :
  0 < W <= UINT32_MAX ->
  pre_reachable W st ->
  preprocessing_get_input W (Some out) output_size st
  = (0, st1, Some out1) ->
  fst (fst (preprocessing_get_input W (Some out2) output_size
              (snd (add_samples W l st1))))
  = if W <=? window_pos st + Z.of_nat (length l) then 0 else - EAGAIN.
Proof.
  intros HW Hs Hread.
  destruct (preprocessing_get_input_cases W out output_size st)
    as [[_ E]|[(_ & _ & E)|(Hge & Hr & _)]];
    [rewrite E in Hread; discriminate | rewrite E in Hread; discriminate |].
  rewrite preprocessing_get_input_ok in Hread by assumption.
  injection Hread as Hst1 _.
  pose proof (pre_reachable_ready_initialized W st Hs Hr) as Hi.
  pose proof (pre_reachable_wf W HW st Hs) as Hwf.
  assert (Hwf1 : pre_wf W st1) by (subst st1; exact Hwf).
  assert (Hi1 : initialized st1 = true) by (subst st1; exact Hi).
  destruct (add_samples_any W HW l st1 Hi1 Hwf1)
    as (st2 & E & _ & _ & _ & Hrdy & _).
  rewrite E. cbn [snd].
  assert (Hp : window_pos st1 = window_pos st) by (subst st1; reflexivity).
  assert (Hr1 : window_ready st1 = false) by (subst st1; reflexivity).
  rewrite Hp, Hr1 in Hrdy. cbn [orb] in Hrdy.
  destruct (preprocessing_get_input_cases W out2 output_size st2)
    as [[Hlt _]|[(_ & Hr2 & E2)|(_ & Hr2 & st3 & out3 & E2)]];
    [lia | |]; rewrite E2; cbn [fst]; rewrite <- Hrdy, Hr2; reflexivity.
Qed.

Lemma preprocessing_window_read_once_witness :
  let W := 2 in
  let st := snd (add_samples W (ramp_samples 2)
                   (preprocessing_init W (preprocess_boot W))) in
  let out := replicate 6 0 in
  exists st1 out1,
    preprocessing_get_input W (Some out) 6 st = (0, st1, Some out1)
    /\ fst (fst (preprocessing_get_input W (Some out) 6
                   (snd (add_samples W [jolt_sample] st1))))
       = if W <=? window_pos st + Z.of_nat (length [jolt_sample])
         then 0 else - EAGAIN.
Proof.
  intros W st out.
  assert (Hs : pre_reachable W st).
  { unfold st. cbn [ramp_samples].
    exact (pre_reach_step W (PreAdd (Some (ramp_sample 2))) _
             (pre_reach_step W (PreAdd (Some (ramp_sample 1))) _
                (pre_reach_step W PreInit _ (pre_reach_boot W)))). }
  destruct (preprocessing_get_input W (Some out) 6 st)
    as [[ret st1] o1] eqn:E.
  assert (Hret : ret = 0)
    by (apply (f_equal (fun r => fst (fst r))) in E; vm_compute in E;
        symmetry; exact E).
  assert (Ho : exists out1, o1 = Some out1)
    by (apply (f_equal snd) in E; vm_compute in E; subst o1; eauto).
  destruct Ho as [out1 ->]. subst ret.
  exists st1, out1. split; [reflexivity|].
  apply (preprocessing_window_read_once W st st1 out out1 out 6 [jolt_sample]);
    [vm_compute; split; congruence | exact Hs | exact E].
Defined.

(** X9.  Samples that arrive while a window waits are delivered twice.
    Start at write position 0, complete a window with the [W] samples
    [l], let [k < W] late samples [e] arrive, read, feed the [W - k]
    samples [f] that bring the position round again, and read again.
    Both reads succeed; the first delivers the image of [e] followed by
    the rest of [l], the second the image of [e] followed by [f]: the
    late samples are part of both. *)
Theorem preprocessing_late_samples_in_two_windows
    (W : Z) (st : preprocess_state) (l e f : list accel_sample.t)
    (out : list Z) :
  0 < W <= UINT32_MAX ->
  initialized st = true ->
  window_pos st = 0 ->
  length (sample_window st) = Z.to_nat W ->
  length l = Z.to_nat W ->
  (length e < Z.to_nat W)%nat ->
  (length e + length f = Z.to_nat W)%nat ->
  (3 * Z.to_nat W <= length out)%nat ->
  let st2 := snd (add_samples W e (snd (add_samples W l st))) in
  let '(ret1, st3, out1) :=
    preprocessing_get_input W (Some out) (Z.of_nat (length out)) st2 in
  let st4 := snd (add_samples W f st3) in
  let '(ret2, st5, out2) :=
    preprocessing_get_input W (Some out) (Z.of_nat (length out)) st4 in
  ret1 = 0
  /\ out1 = Some (quantize_with (dc_offset st2) (e ++ drop (length e) l)
                  ++ drop (3 * Z.to_nat W) out)
  /\ ret2 = 0
  /\ out2 = Some (quantize_with (dc_offset st4) (e ++ f)
                  ++ drop (3 * Z.to_nat W) out).
Proof.
  intros HW Hi Hp Hlen Hl He Hf Hout.
  destruct (add_samples_run W HW l st Hi ltac:(lia) ltac:(lia) Hlen)
    as (st1 & E1 & Hi1 & Hwin1 & _ & Hpos1 & Hrdy1).
  rewrite E1. cbn [snd].
  rewrite Hp in Hwin1, Hpos1, Hrdy1.
  change (Z.to_nat 0) with 0%nat in Hwin1.
  rewrite take_0, app_nil_l, Nat.add_0_l, drop_ge, app_nil_r in Hwin1 by lia.
  destruct (Z.leb_spec W (0 + Z.of_nat (length l))); [|lia].
  destruct (add_samples_run W HW e st1 Hi1 ltac:(lia) ltac:(lia)
              ltac:(rewrite Hwin1; exact Hl))
    as (st2 & E2 & Hi2 & Hwin2 & _ & Hpos2 & Hrdy2).
  rewrite E2. cbn [snd]. cbv zeta.
  rewrite Hpos1 in Hpos2, Hrdy2, Hwin2. rewrite Hwin1 in Hwin2.
  change (Z.to_nat 0) with 0%nat in Hwin2.
  rewrite take_0, app_nil_l, Nat.add_0_l in Hwin2.
  destruct (Z.leb_spec W (0 + Z.of_nat (length e))); [lia|].
  rewrite Hrdy1 in Hrdy2.
  assert (Hlen2 : length (sample_window st2) = Z.to_nat W).
  { rewrite Hwin2, length_app, length_drop. lia. }
  rewrite (preprocessing_get_input_ok W out _ st2)
    by (try assumption; unfold ML_INPUT_SIZE, ML_INPUT_AXES; lia).
  rewrite quantize_loop_eq by lia.
  cbn [snd]. rewrite (take_ge (sample_window st2)) by lia.
  match goal with
  | |- context [add_samples W f ?s] => set (st3 := s)
  end.
  rewrite Hwin2.
  assert (Hlen3 : length (sample_window st3) = Z.to_nat W)
    by (cbn [st3 sample_window]; exact Hlen2).
  assert (Hi3 : initialized st3 = true)
    by (cbn [st3 initialized]; exact Hi2).
  destruct (add_samples_run W HW f st3 Hi3
              ltac:(cbn [st3 window_pos]; lia)
              ltac:(cbn [st3 window_pos]; lia) Hlen3)
    as (st4 & E4 & Hi4 & Hwin4 & _ & _ & Hrdy4).
  rewrite E4. cbn [snd].
  cbn [st3 window_pos sample_window window_ready] in Hwin4, Hrdy4.
  rewrite Hpos2, Hwin2 in Hwin4. rewrite Hpos2 in Hrdy4.
  replace (Z.to_nat (0 + Z.of_nat (length e))) with (length e) in Hwin4
    by lia.
  rewrite take_app_length, drop_ge, app_nil_r in Hwin4
    by (rewrite length_app, length_drop; lia).
  destruct (Z.leb_spec W (0 + Z.of_nat (length e) + Z.of_nat (length f)));
    [|lia].
  assert (Hlen4 : length (sample_window st4) = Z.to_nat W)
    by (rewrite Hwin4, length_app; lia).
  rewrite (preprocessing_get_input_ok W out _ st4)
    by (try assumption; unfold ML_INPUT_SIZE, ML_INPUT_AXES; lia).
  rewrite quantize_loop_eq by lia.
  cbn [snd]. rewrite (take_ge (sample_window st4)) by lia. rewrite Hwin4.
  repeat split; reflexivity.
Qed.

Lemma preprocessing_late_samples_in_two_windows_witness :
  let W := 2 in
  let st := preprocessing_init W (preprocess_boot W) in
  let l := ramp_samples 2 in
  let e := [jolt_sample] in
  let f := [extreme_sample] in
  let out := replicate 6 0 in
  let st2 := snd (add_samples W e (snd (add_samples W l st))) in
  let '(ret1, st3, out1) :=
    preprocessing_get_input W (Some out) (Z.of_nat (length out)) st2 in
  let st4 := snd (add_samples W f st3) in
  let '(ret2, st5, out2) :=
    preprocessing_get_input W (Some out) (Z.of_nat (length out)) st4 in
  ret1 = 0
  /\ out1 = Some (quantize_with (dc_offset st2) (e ++ drop (length e) l)
                  ++ drop (3 * Z.to_nat W) out)
  /\ ret2 = 0
  /\ out2 = Some (quantize_with (dc_offset st4) (e ++ f)
                  ++ drop (3 * Z.to_nat W) out).
Proof.
  intros W st l e f out.
  apply (preprocessing_late_samples_in_two_windows W st l e f out).
  - vm_compute; split; congruence.
  - reflexivity.
  - reflexivity.
  - reflexivity.
  - reflexivity.
  - simpl; lia.
  - simpl; lia.
  - simpl; lia.
Defined.

(* ===================================================================== *)
(** * Further properties of debug_monitor.c                               *)
(* ===================================================================== *)

Lemma to_int32_small (v : Z) : INT32_MIN <= v <= INT32_MAX -> to_int32 v = v.
Proof.
  unfold to_int32, INT32_MIN, INT32_MAX. intros H.
  rewrite Z.mod_small by lia. lia.
Qed.

(** One registration with non-null arguments. *)
Lemma register_thread_cases (t : Z) (n : string) (st : monitor_state) :
  0 <= monitored_count st ->
  (MAX_MONITORED_THREADS <= monitored_count st
   /\ debug_monitor_register_thread (Some t) (Some n) st = (- ENOSPC, st))
  \/ (monitored_count st < MAX_MONITORED_THREADS
      /\ debug_monitor_register_thread (Some t) (Some n) st
         = (0, {| monitored :=
                    <[Z.to_nat (monitored_count st) := fresh_entry (t, n)]>
                      (monitored st);
                  monitored_count := monitored_count st + 1;
                  total_stack_warnings := total_stack_warnings st;
                  monitor_initialized := monitor_initialized st;
                  last_check_time := last_check_time st;
                  last_cpu_cycles := last_cpu_cycles st |})).
Proof.
  intros Hc. unfold debug_monitor_register_thread.
  destruct (Z.leb_spec MAX_MONITORED_THREADS (monitored_count st)) as [Hf|Hr].
  - left. auto.
  - right. split; [exact Hr|].
    rewrite to_int32_small
      by (unfold MAX_MONITORED_THREADS, INT32_MIN, INT32_MAX in *; lia).
    reflexivity.
Qed.

(** X10.  The registry is bounded.  Registering a run of threads fills
    the free slots in call order, each entry starting with a peak of 0;
    the calls that find the four slots taken return [-ENOSPC] and change
    nothing, and the entries registered before are kept. *)
Theorem debug_monitor_register_bounded
    (ts : list (Z * string)) (st : monitor_state) :
  length (monitored st) = Z.to_nat MAX_MONITORED_THREADS ->
  0 <= monitored_count st <= MAX_MONITORED_THREADS ->
  let c := Z.to_nat (monitored_count st) in
  let free := (Z.to_nat MAX_MONITORED_THREADS - c)%nat in
  let '(rets, st') := register_all ts st in
  rets = replicate (Nat.min (length ts) free) 0
         ++ replicate (length ts - free) (- ENOSPC)
  /\ monitored_count st'
     = Z.min MAX_MONITORED_THREADS (monitored_count st + Z.of_nat (length ts))
  /\ monitored st'
     = take c (monitored st)
       ++ (fresh_entry <$> take free ts)
       ++ drop (c + Nat.min (length ts) free) (monitored st)
  /\ total_stack_warnings st' = total_stack_warnings st
  /\ monitor_initialized st' = monitor_initialized st.
Proof.
  revert st. induction ts as [|[t n] ts IH]; intros st Hlen Hc c free.
  - cbn [register_all length]. rewrite take_nil, Nat.min_0_l.
    cbn [fmap list_fmap Nat.sub replicate app].
    rewrite Nat.add_0_r, take_drop. repeat split. lia.
  - cbn [register_all].
    destruct (register_thread_cases t n st ltac:(lia)) as [[Hfull E]|[Hroom E]];
      rewrite E.
    + specialize (IH st Hlen Hc). cbv zeta in IH.
      destruct (register_all ts st) as [rets st'].
      destruct IH as (Hr & Hcnt & Hmon & Hw & Hi).
      assert (Hz : (Z.to_nat MAX_MONITORED_THREADS
                    - Z.to_nat (monitored_count st))%nat = 0%nat) by lia.
      unfold free, c in *. rewrite Hz in *.
      rewrite Nat.min_0_r, Nat.sub_0_r, take_0, Nat.add_0_r in *.
      cbn [replicate app fmap list_fmap length] in *.
      split; [rewrite Hr; reflexivity|].
      split; [rewrite Hcnt; lia|].
      split; [exact Hmon|]. split; assumption.
    + match goal with
      | |- context [register_all ts ?s] => set (st1 := s)
      end.
      assert (Hlen1 : length (monitored st1) = Z.to_nat MAX_MONITORED_THREADS)
        by (cbn [st1 monitored]; rewrite length_insert; exact Hlen).
      assert (Hc1 : 0 <= monitored_count st1 <= MAX_MONITORED_THREADS)
        by (cbn [st1 monitored_count]; lia).
      specialize (IH st1 Hlen1 Hc1). cbv zeta in IH.
      destruct (register_all ts st1) as [rets st'].
      destruct IH as (Hr & Hcnt & Hmon & Hw & Hi).
      cbn [st1 monitored monitored_count total_stack_warnings
           monitor_initialized] in Hr, Hcnt, Hmon, Hw, Hi.
      replace (Z.to_nat (monitored_count st + 1)) with (S c) in *
        by (unfold c; lia).
      assert (Hfree : free = S (Z.to_nat MAX_MONITORED_THREADS - S c))
        by (unfold free, c; lia).
      rewrite Hfree. cbn [length Nat.min Nat.sub replicate app take].
      rewrite fmap_cons.
      split; [rewrite Hr; reflexivity|].
      split; [rewrite Hcnt; lia|].
      split; [|split; assumption].
      rewrite Hmon.
      rewrite (take_S_r _ _ (fresh_entry (t, n)))
        by (apply list_lookup_insert_eq; unfold c in *; lia).
      rewrite take_insert_ge by lia.
      rewrite drop_insert_lt by lia.
      rewrite <- app_assoc. cbn [app].
      rewrite Nat.add_succ_comm. reflexivity.
Qed.

Lemma debug_monitor_register_bounded_witness :
  let st := snd (debug_monitor_init (kernel_with 0 0) monitor_boot) in
  let ts := [(1, "sensor"); (2, "ml_thread"); (3, "output");
             (4, "debug"); (5, "main")]%string in
  fst (register_all ts st) = [0; 0; 0; 0; -28]
  /\ let c := Z.to_nat (monitored_count st) in
     let free := (Z.to_nat MAX_MONITORED_THREADS - c)%nat in
     let '(rets, st') := register_all ts st in
     rets = replicate (Nat.min (length ts) free) 0
            ++ replicate (length ts - free) (- ENOSPC)
     /\ monitored_count st'
        = Z.min MAX_MONITORED_THREADS
            (monitored_count st + Z.of_nat (length ts))
     /\ monitored st'
        = take c (monitored st)
          ++ (fresh_entry <$> take free ts)
          ++ drop (c + Nat.min (length ts) free) (monitored st)
     /\ total_stack_warnings st' = total_stack_warnings st
     /\ monitor_initialized st' = monitor_initialized st.
Proof.
  intros st ts. split; [reflexivity|].
  apply (debug_monitor_register_bounded ts st).
  - reflexivity.
  - vm_compute; split; congruence.
Defined.

(** X11.  For a thread whose stack the kernel can read, with at most
    42949672 bytes of stack so that the product does not wrap,
    [debug_get_stack_percent] is the used share in percent rounded down,
    between 0 and 100; it is above the warning threshold exactly when at
    least 81 % of the stack is used, so a thread at 80 % does not warn
    yet. *)
Theorem debug_get_stack_percent_range
    (cfg : build_config) (k : kernel) (t : Z) :
  CONFIG_THREAD_STACK_INFO cfg = true ->
  fst (k_thread_stack_space_get k t) = 0 ->
  0 < stack_info_size k t <= 42949672 ->
  0 <= snd (k_thread_stack_space_get k t) <= stack_info_size k t ->
  let used := stack_info_size k t - snd (k_thread_stack_space_get k t) in
  let percent := debug_get_stack_percent cfg k (Some t) in
  percent = used * 100 / stack_info_size k t
  /\ 0 <= percent <= 100
  /\ ((STACK_WARNING_THRESHOLD <? percent) = true
      <-> 81 * stack_info_size k t <= 100 * used).
Proof.
  intros Hcfg Hret Hsize Hun used percent.
  assert (Hp : percent = used * 100 / stack_info_size k t).
  { unfold percent, debug_get_stack_percent, stack_used_of.
    rewrite Hcfg, Hret. cbn [Z.eqb negb].
    destruct (Z.eqb_spec (stack_info_size k t) 0); [lia|].
    fold used.
    rewrite (wrap32_small used) by (unfold used, UINT32_MAX; lia).
    rewrite wrap32_small by (unfold used, UINT32_MAX; lia).
    apply to_int32_small. unfold INT32_MIN, INT32_MAX. split.
    - pose proof (Z.div_pos (used * 100) (stack_info_size k t)
                    ltac:(unfold used; lia) ltac:(lia)). lia.
    - assert (used * 100 / stack_info_size k t <= 100); [|lia].
      apply Z.div_le_upper_bound; unfold used; lia. }
  split; [exact Hp|]. rewrite Hp. split.
  - split.
    + apply Z.div_pos; unfold used; lia.
    + apply Z.div_le_upper_bound; unfold used; lia.
  - unfold STACK_WARNING_THRESHOLD. rewrite Z.ltb_lt. split.
    + intros H.
      assert (H81 : 81 <= used * 100 / stack_info_size k t) by lia.
      pose proof (Z.mul_div_le (used * 100) (stack_info_size k t)
                    ltac:(lia)). nia.
    + intros H.
      assert (81 <= used * 100 / stack_info_size k t); [|lia].
      apply Z.div_le_lower_bound; lia.
Qed.

Lemma debug_get_stack_percent_range_witness :
  let cfg := stack_info_build in
  let k := kernel_with 819 0 in
  let t := 1 in
  let used := stack_info_size k t - snd (k_thread_stack_space_get k t) in
  let percent := debug_get_stack_percent cfg k (Some t) in
  (used, percent) = (3277, 80)
  /\ percent = used * 100 / stack_info_size k t
  /\ 0 <= percent <= 100
  /\ ((STACK_WARNING_THRESHOLD <? percent) = true
      <-> 81 * stack_info_size k t <= 100 * used).
Proof.
  intros cfg k t used percent. split; [reflexivity|].
  apply (debug_get_stack_percent_range cfg k t).
  - reflexivity.
  - reflexivity.
  - vm_compute; split; congruence.
  - vm_compute; split; congruence.
Defined.

Section MonitorRuns.
Variable cfg : build_config.
Variable k : kernel.

Lemma warnings_raised_le (mon : list monitored_thread.t) (n : nat) :
  warnings_raised cfg k mon n <= Z.of_nat n.
Proof.
  induction n as [|n IH]; [unfold warnings_raised; simpl; lia|].
  unfold warnings_raised in *. rewrite seq_S, fold_left_app. simpl.
  destruct (over_threshold cfg k mon n); lia.
Qed.

Lemma warnings_raised_S (mon : list monitored_thread.t) (n : nat) :
  warnings_raised cfg k mon (S n)
  = warnings_raised cfg k mon n
    + (if over_threshold cfg k mon n then 1 else 0).
Proof.
  unfold warnings_raised. rewrite seq_S, fold_left_app. simpl.
  destruct (over_threshold cfg k mon n); lia.
Qed.

(** Both results of the loop of [debug_monitor_check]. *)
Lemma check_loop_both (n : nat) (mon : list monitored_thread.t) (w : Z) :
  0 <= w <= UINT32_MAX ->
  Z.of_nat n <= INT32_MAX ->
  fold_left (check_step cfg k mon) (seq 0 n) (w, 0)
  = (wrap32 (w + warnings_raised cfg k mon n), warnings_raised cfg k mon n).
Proof.
  intros Hw. induction n as [|n IH]; intros Hn.
  - unfold warnings_raised. simpl. rewrite Z.add_0_r, wrap32_small by exact Hw.
    reflexivity.
  - rewrite seq_S, fold_left_app, IH by lia. simpl. unfold check_step.
    rewrite warnings_raised_S.
    pose proof (warnings_raised_le mon n).
    pose proof (warnings_raised_nonneg cfg k mon n).
    destruct (over_threshold cfg k mon n).
    + rewrite wrap32_succ, to_int32_small
        by (unfold INT32_MIN, INT32_MAX in *; lia).
      f_equal. f_equal. lia.
    + rewrite !Z.add_0_r. reflexivity.
Qed.

(** The loop of [debug_monitor_get_stats] leaves these fields of the
    caller's record alone. *)
Lemma get_stats_step_keeps (mon : list monitored_thread.t)
    (stats : debug_stats_t) (i : nat) :
  let stats' := snd (get_stats_step cfg k (mon, stats) i) in
  heap_used stats' = heap_used stats
  /\ heap_free stats' = heap_free stats
  /\ stack_used stats' = stack_used stats
  /\ stack_size stats' = stack_size stats.
Proof.
  unfold get_stats_step.
  destruct (monitored_thread.thread (monitored_at mon i)); [|simpl; auto].
  destruct (CONFIG_THREAD_STACK_INFO cfg); [|simpl; auto].
  destruct (fst (k_thread_stack_space_get k _) =? 0); [|simpl; auto].
  destruct (is_ml_thread _); simpl; auto.
Qed.

Lemma get_stats_loop_keeps (n : nat) (mon : list monitored_thread.t)
    (stats : debug_stats_t) :
  let stats' :=
    snd (fold_left (get_stats_step cfg k) (seq 0 n) (mon, stats)) in
  heap_used stats' = heap_used stats
  /\ heap_free stats' = heap_free stats
  /\ stack_used stats' = stack_used stats
  /\ stack_size stats' = stack_size stats.
Proof.
  induction n as [|n IH]; [simpl; auto|].
  rewrite seq_S, fold_left_app. simpl.
  destruct (fold_left _ (seq 0 n) _) as [mon' s'].
  destruct (get_stats_step_keeps mon' s' n) as (H1 & H2 & H3 & H4).
  cbv zeta in IH, H1, H2, H3, H4. cbn [snd] in IH.
  destruct IH as (I1 & I2 & I3 & I4).
  rewrite H1, H2, H3, H4. auto.
Qed.

Lemma monitored_at_tracked (n : nat) (mon : list monitored_thread.t) :
  monitored_at (tracked cfg k n mon) n = monitored_at mon n.
Proof.
  unfold monitored_at, tracked. rewrite list_lookup_imap.
  destruct (mon !! n); [|reflexivity]. simpl.
  destruct (decide (n < n)%nat); [lia | reflexivity].
Qed.

(** What one round of the loop does to the two ML-thread fields. *)
Lemma get_stats_step_ml (mon : list monitored_thread.t)
    (stats : debug_stats_t) (i : nat) :
  let m := monitored_at mon i in
  let stats' := snd (get_stats_step cfg k (mon, stats) i) in
  (ml_entry_read cfg k m = false ->
     ml_stack_used stats' = ml_stack_used stats
     /\ ml_stack_size stats' = ml_stack_size stats)
  /\ (ml_entry_read cfg k m = true ->
      exists t,
        monitored_thread.thread m = Some t
        /\ ml_stack_used stats' = stack_used_of k t
        /\ ml_stack_size stats' = wrap32 (stack_info_size k t)).
Proof.
  unfold get_stats_step, ml_entry_read, usage_read.
  destruct (monitored_thread.thread (monitored_at mon i)) as [t|];
    [|rewrite andb_false_r; simpl; split; [auto | discriminate]].
  destruct (CONFIG_THREAD_STACK_INFO cfg);
    [|rewrite andb_false_r; simpl; split; [auto | discriminate]].
  cbn [andb].
  destruct (fst (k_thread_stack_space_get k t) =? 0);
    [|rewrite andb_false_r; simpl; split; [auto | discriminate]].
  rewrite andb_true_r.
  destruct (is_ml_thread _); simpl; split; try discriminate; eauto.
Qed.

(** The two ML-thread fields after the whole loop: untouched when no
    registered entry is read for them, and otherwise those of the last
    such entry. *)
Lemma get_stats_loop_ml (n : nat) (mon : list monitored_thread.t)
    (stats : debug_stats_t) :
  let stats' :=
    snd (fold_left (get_stats_step cfg k) (seq 0 n) (mon, stats)) in
  ((forall j, (j < n)%nat ->
      ml_entry_read cfg k (monitored_at mon j) = false) ->
   ml_stack_used stats' = ml_stack_used stats
   /\ ml_stack_size stats' = ml_stack_size stats)
  /\ (forall i t, (i < n)%nat ->
        ml_entry_read cfg k (monitored_at mon i) = true ->
        monitored_thread.thread (monitored_at mon i) = Some t ->
        (forall j, (i < j)%nat /\ (j < n)%nat ->
           ml_entry_read cfg k (monitored_at mon j) = false) ->
        ml_stack_used stats' = stack_used_of k t
        /\ ml_stack_size stats' = wrap32 (stack_info_size k t)).
Proof.
  induction n as [|n IH]; [simpl; split; [auto | intros; lia]|].
  rewrite seq_S, fold_left_app. simpl.
  pose proof (get_stats_loop cfg k n mon stats) as Hmon.
  destruct (fold_left _ (seq 0 n) _) as [mon' s'].
  cbn [fst snd] in Hmon, IH. subst mon'.
  destruct (get_stats_step_ml (tracked cfg k n mon) s' n) as (Hno & Hyes).
  cbv zeta in Hno, Hyes, IH. rewrite monitored_at_tracked in Hno, Hyes.
  destruct IH as (IHno & IHyes).
  split.
  - intros Hall. destruct (Hno (Hall n ltac:(lia))) as (-> & ->).
    apply IHno. intros j Hj. apply Hall. lia.
  - intros i t Hi Hread Hthr Hlast.
    destruct (decide (i = n)) as [->|Hne].
    + destruct (Hyes Hread) as (t' & Ht' & Hu & Hs).
      rewrite Hthr in Ht'. injection Ht' as <-. auto.
    + destruct (Hno (Hlast n ltac:(lia))) as (-> & ->).
      apply (IHyes i t); try assumption; [lia|].
      intros j Hj. apply Hlast. lia.
Qed.
(** Without a usable stack reading nothing is tracked. *)
Lemma tracked_unread (n : nat) (mon : list monitored_thread.t) :
  (forall i m, mon !! i = Some m -> usage_read cfg k m = None) ->
  tracked cfg k n mon = mon.
Proof.
  intros Hno. apply list_eq. intros i. unfold tracked.
  rewrite list_lookup_imap. destruct (mon !! i) as [m|] eqn:Hm; [|reflexivity].
  simpl. destruct (decide (i < n)%nat); [|reflexivity].
  unfold track_peak. rewrite (Hno i m Hm). reflexivity.
Qed.

Lemma warnings_raised_none (mon : list monitored_thread.t) (n : nat) :
  (forall i, (i < n)%nat -> over_threshold cfg k mon i = false) ->
  warnings_raised cfg k mon n = 0.
Proof.
  induction n as [|n IH]; intros Hno; [reflexivity|].
  rewrite warnings_raised_S, IH, Hno by (intros; try apply Hno; lia).
  reflexivity.
Qed.
End MonitorRuns.

Lemma monitor_wf_boot : monitor_wf monitor_boot.
Proof.
  unfold monitor_wf, monitor_boot, MAX_MONITORED_THREADS, UINT32_MAX.
  cbn [monitored monitored_count total_stack_warnings].
  rewrite length_replicate. repeat split; try lia.
  all: change (Z.to_nat 0) with 0%nat in *; lia.
Qed.

Lemma monitor_wf_apply (op : monitor_op) (st : monitor_state) :
  monitor_wf st -> monitor_wf (monitor_apply op st).
Proof.
  intros Hwf. pose proof Hwf as (Hlen & Hcnt & Htot & Hent).
  destruct op as [k | thr nm | cfg k stats | cfg k]; cbn [monitor_apply].
  - unfold debug_monitor_init. destruct (monitor_initialized st);
      [exact Hwf|]. cbn [snd].
    unfold monitor_wf, MAX_MONITORED_THREADS, UINT32_MAX in *.
    cbn [monitored monitored_count total_stack_warnings].
    repeat split; try lia.
    all: change (Z.to_nat 0) with 0%nat in *; lia.
  - unfold debug_monitor_register_thread.
    destruct thr as [t|]; [|exact Hwf]. destruct nm as [n|]; [|exact Hwf].
    destruct (Z.leb_spec MAX_MONITORED_THREADS (monitored_count st));
      [exact Hwf|]. cbn [snd].
    unfold monitor_wf, MAX_MONITORED_THREADS, UINT32_MAX in *.
    cbn [monitored monitored_count total_stack_warnings].
    rewrite length_insert, to_int32_small
      by (unfold INT32_MIN, INT32_MAX; lia).
    split; [exact Hlen|]. split; [lia|]. split; [lia|].
    intros i m Hi Hm.
    destruct (decide (i = Z.to_nat (monitored_count st))) as [->|Hne].
    + rewrite list_lookup_insert_eq in Hm by lia.
      injection Hm as <-. simpl. split; discriminate.
    + rewrite list_lookup_insert_ne in Hm by congruence.
      apply (Hent i m); [lia | exact Hm].
  - destruct stats as [s0|]; [|exact Hwf].
    destruct (debug_monitor_get_stats_some cfg k s0 st)
      as (snap & ct & cc & -> & _). cbn [fst snd].
    unfold monitor_wf in *.
    cbn [monitored monitored_count total_stack_warnings].
    unfold tracked at 1. rewrite length_imap.
    split; [exact Hlen|]. split; [exact Hcnt|]. split; [exact Htot|].
    intros i m Hi Hm. unfold tracked in Hm.
    rewrite list_lookup_imap in Hm.
    destruct (monitored st !! i) as [m0|] eqn:Hm0; [|discriminate].
    simpl in Hm. injection Hm as <-.
    destruct (Hent i m0 Hi Hm0) as [Ht Hn].
    destruct (decide (i < _)%nat); [|auto].
    destruct (track_peak_fields cfg k m0) as (-> & -> & _). auto.
  - destruct (monitor_initialized st) eqn:Hi.
    + destruct (debug_monitor_check_initialized cfg k st Hi Htot)
        as (ret & ->). cbn [snd].
      unfold monitor_wf in *.
      cbn [monitored monitored_count total_stack_warnings].
      split; [exact Hlen|]. split; [exact Hcnt|].
      split; [apply wrap32_range | exact Hent].
    + unfold debug_monitor_check. rewrite Hi. exact Hwf.
Qed.

Lemma monitor_reachable_wf (st : monitor_state) :
  monitor_reachable st -> monitor_wf st.
Proof.
  induction 1; [apply monitor_wf_boot | apply monitor_wf_apply; assumption].
Qed.

(** X12.  Whatever sequence of init, register, get-stats and check calls
    the monitor has served since boot, the registry keeps its four slots,
    [monitored_count] stays between 0 and 4, the warning counter is a
    32-bit value, and each of the first [monitored_count] entries has a
    thread and a name. *)
Theorem debug_monitor_invariant (st : monitor_state) :
  monitor_reachable st ->
  length (monitored st) = Z.to_nat MAX_MONITORED_THREADS
  /\ 0 <= monitored_count st <= MAX_MONITORED_THREADS
  /\ 0 <= total_stack_warnings st <= UINT32_MAX
  /\ forall i, (i < Z.to_nat (monitored_count st))%nat ->
       monitored_thread.thread (monitored_at (monitored st) i) <> None
       /\ monitored_thread.name (monitored_at (monitored st) i) <> None.
Proof.
  intros Hr. destruct (monitor_reachable_wf st Hr) as (Hlen & Hcnt & Htot & He).
  split; [exact Hlen|]. split; [exact Hcnt|]. split; [exact Htot|].
  intros i Hi. unfold monitored_at.
  destruct (monitored st !! i) as [m|] eqn:Hm.
  - exact (He i m Hi Hm).
  - apply lookup_ge_None in Hm. unfold MAX_MONITORED_THREADS in *. lia.
Qed.

Lemma debug_monitor_invariant_witness :
  let k := kernel_with 819 0 in
  let st :=
    monitor_apply (MonCheck stack_info_build k)
      (monitor_apply (MonRegister (Some 1) (Some "ml_thread"%string))
         (monitor_apply (MonInit k) monitor_boot)) in
  monitored_count st = 1
  /\ length (monitored st) = Z.to_nat MAX_MONITORED_THREADS
  /\ 0 <= monitored_count st <= MAX_MONITORED_THREADS
  /\ 0 <= total_stack_warnings st <= UINT32_MAX
  /\ forall i, (i < Z.to_nat (monitored_count st))%nat ->
       monitored_thread.thread (monitored_at (monitored st) i) <> None
       /\ monitored_thread.name (monitored_at (monitored st) i) <> None.
Proof.
  intros k st. split; [reflexivity|].
  apply (debug_monitor_invariant st).
  unfold st. do 3 apply monitor_reach_step. apply monitor_reach_boot.
Defined.

(** X13.  On a monitor reached from boot, [debug_monitor_check] returns
    [-EINVAL] and changes nothing while the monitor is not initialised,
    and is then reported unhealthy.  Once initialised it returns
    [-ENOSPC] when at least one registered thread is above the threshold
    and 0 otherwise; [debug_monitor_healthy] is true exactly when no
    thread is above it, and leaves the same state as the check (so it
    counts the warnings as well).  At most [monitored_count] warnings are
    raised by one pass. *)
Theorem debug_monitor_check_result
    (cfg : build_config) (k : kernel) (st : monitor_state) :
  monitor_reachable st ->
  let raised :=
    warnings_raised cfg k (monitored st) (Z.to_nat (monitored_count st)) in
  0 <= raised <= monitored_count st
  /\ snd (debug_monitor_healthy cfg k st) = snd (debug_monitor_check cfg k st)
  /\ (monitor_initialized st = false ->
      debug_monitor_check cfg k st = (- EINVAL, st)
      /\ fst (debug_monitor_healthy cfg k st) = false)
  /\ (monitor_initialized st = true ->
      fst (debug_monitor_check cfg k st)
      = (if 0 <? raised then - ENOSPC else 0)
      /\ fst (debug_monitor_healthy cfg k st) = (raised =? 0)
      /\ total_stack_warnings (snd (debug_monitor_check cfg k st))
         = wrap32 (total_stack_warnings st + raised)).
Proof.
  intros Hr raised.
  destruct (monitor_reachable_wf st Hr) as (Hlen & Hcnt & Htot & _).
  pose proof (warnings_raised_le cfg k (monitored st)
                (Z.to_nat (monitored_count st))) as Hle.
  pose proof (warnings_raised_nonneg cfg k (monitored st)
                (Z.to_nat (monitored_count st))) as Hge.
  fold raised in Hle, Hge.
  split; [lia|]. split.
  { unfold debug_monitor_healthy.
    destruct (debug_monitor_check cfg k st); reflexivity. }
  split.
  - intros Hi. unfold debug_monitor_healthy, debug_monitor_check.
    rewrite Hi. split; reflexivity.
  - intros Hi. unfold debug_monitor_healthy, debug_monitor_check.
    rewrite Hi. cbn [negb].
    rewrite check_loop_both
      by (unfold MAX_MONITORED_THREADS, INT32_MAX in *; lia).
    fold raised. cbn [fst snd total_stack_warnings].
    split; [reflexivity|]. split; [|reflexivity].
    unfold ENOSPC.
    destruct (Z.ltb_spec 0 raised), (Z.eqb_spec raised 0);
      try reflexivity; lia.
Qed.

Lemma debug_monitor_check_result_witness :
  let cfg := stack_info_build in
  let k := kernel_with 100 0 in
  let st :=
    monitor_apply (MonRegister (Some 2) (Some "output"%string))
      (monitor_apply (MonRegister (Some 1) (Some "ml_thread"%string))
         (monitor_apply (MonInit k) monitor_boot)) in
  let raised :=
    warnings_raised cfg k (monitored st) (Z.to_nat (monitored_count st)) in
  (raised, fst (debug_monitor_check cfg k st)) = (2, - ENOSPC)
  /\ 0 <= raised <= monitored_count st
  /\ snd (debug_monitor_healthy cfg k st) = snd (debug_monitor_check cfg k st)
  /\ (monitor_initialized st = false ->
      debug_monitor_check cfg k st = (- EINVAL, st)
      /\ fst (debug_monitor_healthy cfg k st) = false)
  /\ (monitor_initialized st = true ->
      fst (debug_monitor_check cfg k st)
      = (if 0 <? raised then - ENOSPC else 0)
      /\ fst (debug_monitor_healthy cfg k st) = (raised =? 0)
      /\ total_stack_warnings (snd (debug_monitor_check cfg k st))
         = wrap32 (total_stack_warnings st + raised)).
Proof.
  intros cfg k st raised. split; [vm_compute; reflexivity|].
  apply (debug_monitor_check_result cfg k st).
  unfold st. do 3 apply monitor_reach_step. apply monitor_reach_boot.
Defined.

(** What a snapshot holds, with the registry it leaves. *)
Lemma debug_monitor_get_stats_snapshot_aux
    (cfg : build_config) (k : kernel) (s0 : debug_stats_t)
    (st : monitor_state) :
  let n := Z.to_nat (monitored_count st) in
  let cur := k_current_get k in
  exists st' snap,
    debug_monitor_get_stats cfg k (Some s0) st = (0, st', Some snap)
    /\ monitored st' = tracked cfg k n (monitored st)
    /\ heap_used snap = 0 /\ heap_free snap = 0
    /\ (stack_size snap, stack_used snap)
       = (if CONFIG_THREAD_STACK_INFO cfg
             && (fst (k_thread_stack_space_get k cur) =? 0)
          then (wrap32 (stack_info_size k cur), stack_used_of k cur)
          else (0, 0))
    /\ ((forall j, (j < n)%nat ->
           ml_entry_read cfg k (monitored_at (monitored st) j) = false) ->
        ml_stack_used snap = 0 /\ ml_stack_size snap = 0)
    /\ (forall i t, (i < n)%nat ->
          ml_entry_read cfg k (monitored_at (monitored st) i) = true ->
          monitored_thread.thread (monitored_at (monitored st) i) = Some t ->
          (forall j, (i < j)%nat /\ (j < n)%nat ->
             ml_entry_read cfg k (monitored_at (monitored st) j) = false) ->
          ml_stack_used snap = stack_used_of k t
          /\ ml_stack_size snap = wrap32 (stack_info_size k t)).
Proof.
  intros n cur. unfold debug_monitor_get_stats. fold cur. fold n.
  set (cs := if CONFIG_THREAD_STACK_INFO cfg then _ else _).
  assert (Hcs : cs = if CONFIG_THREAD_STACK_INFO cfg
                        && (fst (k_thread_stack_space_get k cur) =? 0)
                     then (wrap32 (stack_info_size k cur), stack_used_of k cur)
                     else (0, 0)).
  { unfold cs. destruct (CONFIG_THREAD_STACK_INFO cfg); reflexivity. }
  destruct cs as [cur_size cur_used].
  match goal with
  | |- context [fold_left ?f ?l (?m0, ?s1)] =>
      pose proof (get_stats_loop cfg k n (monitored st) s1) as Hloop;
      pose proof (get_stats_loop_keeps cfg k n (monitored st) s1) as Hkeep;
      pose proof (get_stats_loop_ml cfg k n (monitored st) s1) as Hml
  end.
  cbv zeta in Hkeep, Hml.
  destruct (fold_left _ _ _) as [mon s2]. cbn [fst snd] in Hloop, Hkeep, Hml.
  cbn [heap_used heap_free stack_used stack_size ml_stack_used ml_stack_size]
    in Hkeep, Hml.
  destruct Hkeep as (H1 & H2 & H3 & H4). destruct Hml as (Hno & Hyes).
  destruct (cpu_usage_block cfg k st (cpu_usage_percent s2))
    as [[cpu ct] cc].
  eexists _, _. split; [reflexivity|]. split; [exact Hloop|].
  cbn [heap_used heap_free stack_used stack_size ml_stack_used ml_stack_size].
  split; [exact H1|]. split; [exact H2|].
  split; [rewrite H3, H4; exact Hcs|].
  split; [exact Hno | exact Hyes].
Qed.

(** X14.  A snapshot taken by [debug_monitor_get_stats] always reports
    zero heap figures.  Its stack figures are those of the calling thread
    when the build has stack information and the kernel can read them,
    and zero otherwise.  Its ML-thread figures are zero when no
    registered entry is named [ml_thread] with a readable stack, and
    otherwise are those of the last such entry. *)
Theorem debug_monitor_get_stats_snapshot
    (cfg : build_config) (k : kernel) (s0 : debug_stats_t)
    (st : monitor_state) :
  let n := Z.to_nat (monitored_count st) in
  let cur := k_current_get k in
  exists st' snap,
    debug_monitor_get_stats cfg k (Some s0) st = (0, st', Some snap)
    /\ heap_used snap = 0 /\ heap_free snap = 0
    /\ (stack_size snap, stack_used snap)
       = (if CONFIG_THREAD_STACK_INFO cfg
             && (fst (k_thread_stack_space_get k cur) =? 0)
          then (wrap32 (stack_info_size k cur), stack_used_of k cur)
          else (0, 0))
    /\ ((forall j, (j < n)%nat ->
           ml_entry_read cfg k (monitored_at (monitored st) j) = false) ->
        ml_stack_used snap = 0 /\ ml_stack_size snap = 0)
    /\ (forall i t, (i < n)%nat ->
          ml_entry_read cfg k (monitored_at (monitored st) i) = true ->
          monitored_thread.thread (monitored_at (monitored st) i) = Some t ->
          (forall j, (i < j)%nat /\ (j < n)%nat ->
             ml_entry_read cfg k (monitored_at (monitored st) j) = false) ->
          ml_stack_used snap = stack_used_of k t
          /\ ml_stack_size snap = wrap32 (stack_info_size k t)).
Proof.
  intros n cur.
  destruct (debug_monitor_get_stats_snapshot_aux cfg k s0 st)
    as (st' & snap & E & _ & H).
  exists st', snap. split; [exact E | exact H].
Qed.

(** X15.  In a build without [CONFIG_THREAD_STACK_INFO] the monitor is
    blind: an initialised monitor's [debug_monitor_check] always returns
    0 and changes nothing, whatever the threads use, and
    [debug_monitor_get_stats] leaves every registry entry as it was and
    reports zero for the stack of the calling thread and of the ML
    thread. *)
Theorem debug_monitor_without_stack_info
    (cfg : build_config) (k : kernel) (s0 : debug_stats_t)
    (st : monitor_state) :
  CONFIG_THREAD_STACK_INFO cfg = false ->
  monitor_initialized st = true ->
  debug_monitor_check cfg k st = (0, st)
  /\ fst (debug_monitor_healthy cfg k st) = true
  /\ exists st' snap,
       debug_monitor_get_stats cfg k (Some s0) st = (0, st', Some snap)
       /\ monitored st' = monitored st
       /\ stack_used snap = 0 /\ stack_size snap = 0
       /\ ml_stack_used snap = 0 /\ ml_stack_size snap = 0.
Proof.
  intros Hcfg Hi.
  assert (Hover : forall i, over_threshold cfg k (monitored st) i = false).
  { intros i. unfold over_threshold.
    destruct (monitored_thread.thread _); [|reflexivity].
    unfold debug_get_stack_percent. rewrite Hcfg. reflexivity. }
  assert (Hloop : forall n w,
            fold_left (check_step cfg k (monitored st)) (seq 0 n) (w, 0)
            = (w, 0)).
  { intros n w. induction n as [|n IH]; [reflexivity|].
    rewrite seq_S, fold_left_app, IH. simpl. unfold check_step.
    rewrite Hover. reflexivity. }
  assert (Hcheck : debug_monitor_check cfg k st = (0, st)).
  { unfold debug_monitor_check. rewrite Hi, Hloop. cbn [negb Z.ltb Z.compare].
    rewrite <- Hi. destruct st; reflexivity. }
  split; [exact Hcheck|]. split.
  { unfold debug_monitor_healthy. rewrite Hcheck. reflexivity. }
  destruct (debug_monitor_get_stats_snapshot_aux cfg k s0 st)
    as (st' & snap & E & Hmon & _ & _ & Hst & Hno & _).
  exists st', snap. split; [exact E|]. split.
  - rewrite Hmon. apply tracked_unread. intros i m _.
    unfold usage_read. rewrite Hcfg.
    destruct (monitored_thread.thread m); reflexivity.
  - rewrite Hcfg in Hst. cbn [andb] in Hst. injection Hst as -> ->.
    split; [reflexivity|]. split; [reflexivity|].
    apply Hno. intros j _. unfold ml_entry_read, usage_read. rewrite Hcfg.
    destruct (monitored_thread.thread _); apply andb_false_r.
Qed.

Lemma debug_monitor_without_stack_info_witness :
  let cfg := bare_build in
  let k := kernel_with 0 0 in
  let st := two_threads_registered in
  debug_monitor_check cfg k st = (0, st)
  /\ fst (debug_monitor_healthy cfg k st) = true
  /\ exists st' snap,
       debug_monitor_get_stats cfg k (Some zero_stats) st
       = (0, st', Some snap)
       /\ monitored st' = monitored st
       /\ stack_used snap = 0 /\ stack_size snap = 0
       /\ ml_stack_used snap = 0 /\ ml_stack_size snap = 0.
Proof.
  intros cfg k st.
  apply (debug_monitor_without_stack_info cfg k zero_stats st);
    reflexivity.
Defined.

(* ===================================================================== *)
(** * inference.cpp, further properties                                   *)
(* ===================================================================== *)

Lemma wrap32_add_l (a b : Z) : wrap32 (wrap32 a + b) = wrap32 (a + b).
Proof. unfold wrap32. apply Z.add_mod_idemp_l. lia. Qed.

Lemma wrap64_add_l (a b : Z) : wrap64 (wrap64 a + b) = wrap64 (a + b).
Proof. unfold wrap64. apply Z.add_mod_idemp_l. lia. Qed.

Lemma inference_time_range (tf : tflite_run) :
  0 <= inference_time tf <= UINT32_MAX.
Proof.
  unfold inference_time.
  pose proof (wrap32_range (end_time tf - start_time tf)) as Hc.
  pose proof (wrap32_range (hw_cycles_per_sec tf / 1000000)) as Hf.
  destruct (Z.ltb_spec 0 (wrap32 (hw_cycles_per_sec tf / 1000000)));
    [|unfold UINT32_MAX; lia].
  split.
  - apply Z.div_pos; lia.
  - apply Z.le_trans with (wrap32 (end_time tf - start_time tf)); [|lia].
    apply Z.div_le_upper_bound; nia.
Qed.

(** One run of an initialised engine, field by field. *)
Lemma ml_run_inference_step (W : Z) (tf : tflite_run) (inp : list Z)
    (res : inference_result_t) (st : ml_state) :
  ml_initialized st = true ->
  exists status st' r,
    ml_run_inference W tf (Some inp) (Some res) st = (status, st', Some r)
    /\ ml_initialized st' = true
    /\ use_mock_inference st' = use_mock_inference st
    /\ if run_succeeds (use_mock_inference st) tf then
         status = ML_STATUS_OK
         /\ inference_time_us r = inference_time tf
         /\ sequence r = wrap32 (inference_sequence st + 1)
         /\ inference_sequence st' = wrap32 (inference_sequence st + 1)
         /\ inference_count (ml_stats st')
            = wrap32 (inference_count (ml_stats st) + 1)
         /\ invoke_failures (ml_stats st') = invoke_failures (ml_stats st)
         /\ total_time_us (ml_stats st')
            = wrap64 (total_time_us (ml_stats st) + inference_time tf)
         /\ min_time_us (ml_stats st')
            = Z.min (min_time_us (ml_stats st)) (inference_time tf)
         /\ max_time_us (ml_stats st')
            = Z.max (max_time_us (ml_stats st)) (inference_time tf)
       else
         status = ML_STATUS_INVOKE_FAILED
         /\ r = res
         /\ inference_sequence st' = inference_sequence st
         /\ inference_count (ml_stats st') = inference_count (ml_stats st)
         /\ invoke_failures (ml_stats st')
            = wrap32 (invoke_failures (ml_stats st) + 1)
         /\ total_time_us (ml_stats st') = total_time_us (ml_stats st)
         /\ min_time_us (ml_stats st') = min_time_us (ml_stats st)
         /\ max_time_us (ml_stats st') = max_time_us (ml_stats st).
Proof.
  intros Hi. unfold ml_run_inference, run_succeeds. rewrite Hi. cbn [negb].
  fold (inference_time tf).
  replace (if use_mock_inference st then true else invoke_ok tf)
    with (use_mock_inference st || invoke_ok tf)
    by (destruct (use_mock_inference st); reflexivity).
  destruct (use_mock_inference st || invoke_ok tf); cbn [negb].
  - destruct (if use_mock_inference st then _ else _) as [[best mx] scores].
    eexists _, _, _. split; [reflexivity|].
    cbn [ml_initialized use_mock_inference ml_stats inference_sequence
         inference_time_us sequence inference_count invoke_failures
         total_time_us min_time_us max_time_us].
    split; [reflexivity|]. split; [reflexivity|].
    do 7 (split; [reflexivity|]). split.
    + destruct (Z.ltb_spec (inference_time tf) (min_time_us (ml_stats st)));
        lia.
    + destruct (Z.ltb_spec (max_time_us (ml_stats st)) (inference_time tf));
        lia.
  - eexists _, _, _. split; [reflexivity|].
    cbn [ml_initialized use_mock_inference ml_stats inference_sequence
         inference_count invoke_failures total_time_us min_time_us
         max_time_us].
    split; [reflexivity|]. repeat split.
Qed.

(** The counters after a series of runs. *)
Lemma run_all_accounting (W : Z) (tfs : list tflite_run) (inp : list Z)
    (res : inference_result_t) (st : ml_state) :
  ml_initialized st = true ->
  ml_counters_wf st ->
  let ok := List.filter (run_succeeds (use_mock_inference st)) tfs in
  let failed := (length tfs - length ok)%nat in
  let st' := fst (run_all W tfs inp res st) in
  inference_count (ml_stats st')
  = wrap32 (inference_count (ml_stats st) + Z.of_nat (length ok))
  /\ inference_sequence st'
     = wrap32 (inference_sequence st + Z.of_nat (length ok))
  /\ invoke_failures (ml_stats st')
     = wrap32 (invoke_failures (ml_stats st) + Z.of_nat failed)
  /\ total_time_us (ml_stats st')
     = wrap64 (total_time_us (ml_stats st)
               + sum_list (inference_time <$> ok))
  /\ min_time_us (ml_stats st') <= min_time_us (ml_stats st)
  /\ max_time_us (ml_stats st) <= max_time_us (ml_stats st')
  /\ forall tf, In tf ok ->
       min_time_us (ml_stats st') <= inference_time tf
       /\ inference_time tf <= max_time_us (ml_stats st').
Proof.
  revert res st.
  induction tfs as [|tf tfs IH]; intros res st Hi Hwf ok failed st'.
  - destruct Hwf as (Hc & Hf & Ht & Hs).
    unfold st', ok, failed. cbn [run_all fst List.filter length fmap
                                 list_fmap sum_list fold_right Nat.sub].
    change (Z.of_nat 0) with 0. rewrite !Z.add_0_r.
    rewrite !wrap32_small by assumption.
    unfold wrap64. rewrite Z.mod_small by lia.
    repeat split; try lia; contradiction.
  - pose proof (filter_length_le (run_succeeds (use_mock_inference st)) tfs)
      as Hfl.
    destruct (ml_run_inference_step W tf inp res st Hi)
      as (status & st1 & r & E & Hi1 & Hm1 & Hstep).
    assert (Hwf1 : ml_counters_wf st1).
    { destruct Hwf as (Hc & Hf & Ht & Hs). unfold ml_counters_wf.
      destruct (run_succeeds (use_mock_inference st) tf).
      - destruct Hstep as (_ & _ & _ & -> & -> & -> & -> & _).
        pose proof (wrap32_range (inference_count (ml_stats st) + 1)).
        pose proof (wrap32_range (inference_sequence st + 1)).
        unfold wrap64.
        pose proof (Z.mod_pos_bound
                      (total_time_us (ml_stats st) + inference_time tf)
                      (2 ^ 64) ltac:(lia)). lia.
      - destruct Hstep as (_ & _ & -> & -> & -> & -> & _).
        pose proof (wrap32_range (invoke_failures (ml_stats st) + 1)).
        lia. }
    specialize (IH r st1 Hi1 Hwf1). cbv zeta in IH. rewrite Hm1 in IH.
    destruct IH as (I1 & I2 & I3 & I4 & I5 & I6 & I7).
    assert (Hst' : st' = fst (run_all W tfs inp r st1)).
    { unfold st'. cbn [run_all]. rewrite E. reflexivity. }
    rewrite Hst'. unfold failed, ok. cbn [List.filter length].
    destruct (run_succeeds (use_mock_inference st) tf) eqn:Hok.
    + destruct Hstep as (_ & _ & _ & S1 & S2 & S3 & S4 & S5 & S6).
      cbn [length fmap list_fmap sum_list fold_right].
      fold (fmap (M:=list) inference_time).
      fold (sum_list (inference_time <$>
              List.filter (run_succeeds (use_mock_inference st)) tfs)).
      rewrite I1, I2, I3, I4, S1, S2, S3, S4.
      rewrite !wrap32_add_l, wrap64_add_l.
      split; [apply (f_equal wrap32); lia|].
      split; [apply (f_equal wrap32); lia|].
      split; [apply (f_equal wrap32); lia|].
      split; [apply (f_equal wrap64); lia|].
      split; [lia|]. split; [lia|].
      intros tf' [<-|Hin]; [lia | exact (I7 tf' Hin)].
    + destruct Hstep as (_ & _ & S1 & S2 & S3 & S4 & S5 & S6).
      rewrite I1, I2, I3, I4, S1, S2, S3, S4.
      rewrite !wrap32_add_l.
      split; [reflexivity|]. split; [reflexivity|].
      split; [apply (f_equal wrap32); lia|]. split; [reflexivity|].
      split; [lia|]. split; [lia|]. exact I7.
Qed.

(** X16.  Over any series of runs of an initialised engine, every run is
    counted once: the successful ones in [inference_count] and in the
    sequence counter, the failed invocations in [invoke_failures] (all
    modulo 2^32); [total_time_us] grows by the durations of the
    successful ones (modulo 2^64), and each of those durations lies
    between the recorded minimum and maximum. *)
Theorem ml_stats_accounting (W : Z) (tfs : list tflite_run) (inp : list Z)
    (res : inference_result_t) (st : ml_state) :
  ml_initialized st = true ->
  ml_counters_wf st ->
  let ok := List.filter (run_succeeds (use_mock_inference st)) tfs in
  let failed := (length tfs - length ok)%nat in
  let st' := fst (run_all W tfs inp res st) in
  inference_count (ml_stats st')
  = wrap32 (inference_count (ml_stats st) + Z.of_nat (length ok))
  /\ inference_sequence st'
     = wrap32 (inference_sequence st + Z.of_nat (length ok))
  /\ invoke_failures (ml_stats st')
     = wrap32 (invoke_failures (ml_stats st) + Z.of_nat failed)
  /\ total_time_us (ml_stats st')
     = wrap64 (total_time_us (ml_stats st)
               + sum_list (inference_time <$> ok))
  /\ min_time_us (ml_stats st') <= min_time_us (ml_stats st)
  /\ max_time_us (ml_stats st) <= max_time_us (ml_stats st')
  /\ forall tf, In tf ok ->
       min_time_us (ml_stats st') <= inference_time tf
       /\ inference_time tf <= max_time_us (ml_stats st').
Proof.
  intros Hi Hwf. exact (run_all_accounting W tfs inp res st Hi Hwf).
Qed.

Lemma ml_stats_accounting_witness :
  let W := 50 in
  let st := snd (ml_inference_init good_model ml_boot) in
  let tfs := [timed_run 25000 true; timed_run 50000 false;
              timed_run 12500 true] in
  let inp := replicate 150 7 in
  let ok := List.filter (run_succeeds (use_mock_inference st)) tfs in
  let failed := (length tfs - length ok)%nat in
  let st' := fst (run_all W tfs inp zero_result st) in
  (length ok, failed, inference_time <$> ok) = (2%nat, 1%nat, [1000; 500])
  /\ inference_count (ml_stats st')
     = wrap32 (inference_count (ml_stats st) + Z.of_nat (length ok))
  /\ inference_sequence st'
     = wrap32 (inference_sequence st + Z.of_nat (length ok))
  /\ invoke_failures (ml_stats st')
     = wrap32 (invoke_failures (ml_stats st) + Z.of_nat failed)
  /\ total_time_us (ml_stats st')
     = wrap64 (total_time_us (ml_stats st)
               + sum_list (inference_time <$> ok))
  /\ min_time_us (ml_stats st') <= min_time_us (ml_stats st)
  /\ max_time_us (ml_stats st) <= max_time_us (ml_stats st')
  /\ forall tf, In tf ok ->
       min_time_us (ml_stats st') <= inference_time tf
       /\ inference_time tf <= max_time_us (ml_stats st').
Proof.
  intros W st tfs inp ok failed st'. split; [vm_compute; reflexivity|].
  apply (ml_stats_accounting W tfs inp zero_result st).
  - reflexivity.
  - vm_compute. repeat split; congruence.
Defined.

(** X17.  [ml_inference_init] on an engine that is not yet initialised
    returns [ML_STATUS_OK] exactly when it leaves the engine initialised.
    When the model cannot be used it falls back to the mock path, still
    returns [ML_STATUS_OK], and leaves the statistics and the sequence
    counter as they were.  With a usable model a successful call resets
    the statistics (minimum at [UINT32_MAX]) and the sequence counter;
    an unsuccessful one returns [ML_STATUS_ALLOC_FAILED] or
    [ML_STATUS_ERROR], and every later [ml_run_inference] then returns
    [ML_STATUS_NOT_INITIALIZED] and changes nothing. *)
Theorem ml_inference_init_outcome (tf : tflite_setup) (st : ml_state) :
  ml_initialized st = false ->
  let status := fst (ml_inference_init tf st) in
  let st' := snd (ml_inference_init tf st) in
  (status = ML_STATUS_OK <-> ml_is_ready st' = true)
  /\ (model_usable tf = false ->
      status = ML_STATUS_OK
      /\ use_mock_inference st' = true
      /\ ml_stats st' = ml_stats st
      /\ inference_sequence st' = inference_sequence st)
  /\ (model_usable tf = true ->
      use_mock_inference st' = use_mock_inference st
      /\ (status = ML_STATUS_OK ->
          ml_stats st' = ml_stats (ml_reset_stats st)
          /\ inference_sequence st' = 0)
      /\ (status <> ML_STATUS_OK ->
          (status = ML_STATUS_ALLOC_FAILED \/ status = ML_STATUS_ERROR)
          /\ ml_stats st' = ml_stats st
          /\ forall W run inp res,
               ml_run_inference W run inp res st'
               = (ML_STATUS_NOT_INITIALIZED, st', res))).
Proof.
  intros Hi status st'. unfold status, st', ml_inference_init, model_usable,
    ml_is_ready.
  rewrite Hi.
  destruct (model_loaded tf), (model_version_ok tf), (op_resolver_ok tf);
    cbn [negb andb fst snd set_mock ml_initialized use_mock_inference
         ml_stats inference_sequence];
    try (split; [split; reflexivity|];
         split; [intros _; repeat split | discriminate]).
  destruct (allocate_ok tf); cbn [negb fst snd].
  - destruct (input_0 tf) as [inp0|], (output_0_present tf);
      cbn [fst snd ml_initialized use_mock_inference ml_stats
           inference_sequence].
    + split; [split; reflexivity|]. split; [discriminate|]. intros _.
      split; [reflexivity|]. split; [intros _; split; reflexivity|].
      intros H; contradiction H; reflexivity.
    + split; [split; [discriminate | congruence]|].
      split; [discriminate|]. intros _. split; [reflexivity|].
      split; [discriminate|]. intros _. split; [right; reflexivity|].
      split; [reflexivity|]. intros W run inp res.
      unfold ml_run_inference. cbn [ml_initialized]. reflexivity.
    + split; [split; [discriminate | congruence]|].
      split; [discriminate|]. intros _. split; [reflexivity|].
      split; [discriminate|]. intros _. split; [right; reflexivity|].
      split; [reflexivity|]. intros W run inp res.
      unfold ml_run_inference. cbn [ml_initialized]. reflexivity.
    + split; [split; [discriminate | congruence]|].
      split; [discriminate|]. intros _. split; [reflexivity|].
      split; [discriminate|]. intros _. split; [right; reflexivity|].
      split; [reflexivity|]. intros W run inp res.
      unfold ml_run_inference. cbn [ml_initialized]. reflexivity.
  - split; [split; [discriminate | congruence]|].
    split; [discriminate|]. intros _. split; [reflexivity|].
    split; [discriminate|]. intros _. split; [left; reflexivity|].
    split; [reflexivity|]. intros W run inp res.
    unfold ml_run_inference. rewrite Hi. reflexivity.
Qed.

Lemma ml_inference_init_outcome_witness :
  let tf := arena_too_small in
  let st := ml_boot in
  let status := fst (ml_inference_init tf st) in
  let st' := snd (ml_inference_init tf st) in
  status = ML_STATUS_ALLOC_FAILED
  /\ (status = ML_STATUS_OK <-> ml_is_ready st' = true)
  /\ (model_usable tf = false ->
      status = ML_STATUS_OK
      /\ use_mock_inference st' = true
      /\ ml_stats st' = ml_stats st
      /\ inference_sequence st' = inference_sequence st)
  /\ (model_usable tf = true ->
      use_mock_inference st' = use_mock_inference st
      /\ (status = ML_STATUS_OK ->
          ml_stats st' = ml_stats (ml_reset_stats st)
          /\ inference_sequence st' = 0)
      /\ (status <> ML_STATUS_OK ->
          (status = ML_STATUS_ALLOC_FAILED \/ status = ML_STATUS_ERROR)
          /\ ml_stats st' = ml_stats st
          /\ forall W run inp res,
               ml_run_inference W run inp res st'
               = (ML_STATUS_NOT_INITIALIZED, st', res))).
Proof.
  intros tf st status st'. split; [reflexivity|].
  apply (ml_inference_init_outcome tf st). reflexivity.
Defined.

(** The minimum only goes down, and not below a non-negative floor. *)
Lemma run_all_min_zero (W : Z) (tfs : list tflite_run) (inp : list Z)
    (res : inference_result_t) (st : ml_state) :
  ml_initialized st = true ->
  min_time_us (ml_stats st) = 0 ->
  min_time_us (ml_stats (fst (run_all W tfs inp res st))) = 0.
Proof.
  revert res st. induction tfs as [|tf tfs IH]; intros res st Hi Hmin;
    [exact Hmin|].
  cbn [run_all].
  destruct (ml_run_inference_step W tf inp res st Hi)
    as (status & st1 & r & E & Hi1 & _ & Hstep).
  rewrite E. apply IH; [exact Hi1|].
  pose proof (inference_time_range tf).
  destruct (run_succeeds _ tf).
  - destruct Hstep as (_ & _ & _ & _ & _ & _ & _ & -> & _). lia.
  - destruct Hstep as (_ & _ & _ & _ & _ & _ & -> & _). exact Hmin.
Qed.

(** X18.  When initialisation at boot falls back to the mock path, the
    statistics are never initialised: [min_time_us] starts at 0 and so
    stays 0 over any series of inferences, however long each one took.
    Only after [ml_reset_stats] does the minimum follow the measured
    durations: the first run after a reset records its own duration as
    both minimum and maximum. *)
Theorem ml_mock_fallback_min_time (W : Z) (tf : tflite_setup)
    (tfs : list tflite_run) (run : tflite_run) (inp : list Z)
    (res : inference_result_t) (out : ml_stats_t) :
  model_usable tf = false ->
  let st0 := snd (ml_inference_init tf ml_boot) in
  let st1 := fst (run_all W tfs inp res st0) in
  let st2 := fst (run_all W [run] inp res (ml_reset_stats st1)) in
  exists s1 s2,
    ml_get_stats (Some out) st1 = (ML_STATUS_OK, Some s1)
    /\ ml_get_stats (Some out) st2 = (ML_STATUS_OK, Some s2)
    /\ min_time_us s1 = 0
    /\ inference_count s1 = wrap32 (Z.of_nat (length tfs))
    /\ min_time_us s2 = inference_time run
    /\ max_time_us s2 = inference_time run
    /\ inference_count s2 = 1.
Proof.
  intros Hu st0 st1 st2.
  exists (ml_stats st1), (ml_stats st2).
  split; [reflexivity|]. split; [reflexivity|].
  assert (Hst0 : st0 = set_mock ml_boot).
  { unfold st0, ml_inference_init. unfold model_usable in Hu.
    cbn [ml_boot ml_initialized].
    destruct (model_loaded tf); [|reflexivity].
    destruct (model_version_ok tf); [|reflexivity].
    destruct (op_resolver_ok tf); [discriminate | reflexivity]. }
  assert (Hi0 : ml_initialized st0 = true) by (rewrite Hst0; reflexivity).
  assert (Hm0 : use_mock_inference st0 = true) by (rewrite Hst0; reflexivity).
  assert (Hwf0 : ml_counters_wf st0).
  { rewrite Hst0. vm_compute. repeat split; congruence. }
  split.
  { apply run_all_min_zero; [exact Hi0 | rewrite Hst0; reflexivity]. }
  split.
  { assert (Hall : List.filter (run_succeeds (use_mock_inference st0)) tfs
                   = tfs).
    { rewrite Hm0. clear. induction tfs as [|a l IH]; [reflexivity|].
      cbn. rewrite IH. reflexivity. }
    pose proof (run_all_accounting W tfs inp res st0 Hi0 Hwf0) as (Hc & _).
    rewrite Hall in Hc. fold st1 in Hc. rewrite Hc, Hst0. reflexivity. }
  assert (Hi1 : ml_initialized st1 = true /\ use_mock_inference st1 = true).
  { unfold st1. clear st2.
    revert Hi0 Hm0. generalize st0 res. clear.
    induction tfs as [|a l IH]; intros st res Hi Hm; [auto|].
    cbn [run_all].
    destruct (ml_run_inference_step W a inp res st Hi)
      as (status & st' & r & E & Hi' & Hm' & _).
    rewrite E. apply IH; congruence. }
  destruct Hi1 as [Hi1 Hm1].
  unfold st2. cbn [run_all].
  destruct (ml_run_inference_step W run inp res (ml_reset_stats st1) Hi1)
    as (status & st' & r & E & _ & _ & Hstep).
  rewrite E. cbn [fst].
  cbn [ml_reset_stats use_mock_inference] in Hstep. rewrite Hm1 in Hstep.
  cbn [run_succeeds orb ml_stats inference_count min_time_us max_time_us]
    in Hstep.
  destruct Hstep as (_ & _ & _ & _ & Hc & _ & _ & Hmin & Hmax).
  pose proof (inference_time_range run).
  unfold ml_reset_stats in Hc, Hmin, Hmax.
  cbn [ml_stats inference_count min_time_us max_time_us] in Hc, Hmin, Hmax.
  rewrite Hmin, Hmax, Hc. unfold UINT32_MAX in *.
  split; [lia|]. split; [lia | reflexivity].
Qed.

Lemma ml_mock_fallback_min_time_witness :
  let W := 50 in
  let tfs := [timed_run 125000 true; timed_run 130000 true] in
  let run := timed_run 125000 true in
  let inp := replicate 150 7 in
  let st0 := snd (ml_inference_init no_model ml_boot) in
  let st1 := fst (run_all W tfs inp zero_result st0) in
  let st2 := fst (run_all W [run] inp zero_result (ml_reset_stats st1)) in
  inference_time <$> tfs = [5000; 5200]
  /\ exists s1 s2,
    ml_get_stats (Some (ml_stats ml_boot)) st1 = (ML_STATUS_OK, Some s1)
    /\ ml_get_stats (Some (ml_stats ml_boot)) st2 = (ML_STATUS_OK, Some s2)
    /\ min_time_us s1 = 0
    /\ inference_count s1 = wrap32 (Z.of_nat (length tfs))
    /\ min_time_us s2 = inference_time run
    /\ max_time_us s2 = inference_time run
    /\ inference_count s2 = 1.
Proof.
  intros W tfs run inp st0 st1 st2. split; [vm_compute; reflexivity|].
  apply (ml_mock_fallback_min_time W no_model tfs run inp zero_result
           (ml_stats ml_boot)).
  reflexivity.
Defined.

(** The dequantisation loop over the four classes. *)
Lemma dequant_loop (tf : tflite_run) (m0 : float32) (a b c d : float32) :
  exists best mx,
    fold_left (dequant_step tf) (seq 0 (Z.to_nat GESTURE_COUNT))
              (GESTURE_IDLE, m0, [a; b; c; d])
    = (best, mx, dequantized tf <$> [0; 1; 2; 3]%nat)
    /\ ((dequantized tf <$> [0; 1; 2; 3]%nat) !! index_of_gesture best
        = Some mx
        \/ (best = GESTURE_IDLE /\ mx = m0
            /\ forall i, (i < 4)%nat ->
                 F32.gtb (dequantized tf i) m0 = false)).
Proof.
  change (Z.to_nat GESTURE_COUNT) with 4%nat.
  cbn [seq fold_left]. unfold dequant_step.
  fold (dequantized tf 0) (dequantized tf 1) (dequantized tf 2)
       (dequantized tf 3).
  cbn [fmap list_fmap insert list_insert gesture_of_index].
  set (s0 := dequantized tf 0). set (s1 := dequantized tf 1).
  set (s2 := dequantized tf 2). set (s3 := dequantized tf 3).
  destruct (F32.gtb s0 m0) eqn:H0;
    match goal with
    | |- context [if F32.gtb s1 ?m then _ else _] =>
        destruct (F32.gtb s1 m) eqn:H1
    end;
    match goal with
    | |- context [if F32.gtb s2 ?m then _ else _] =>
        destruct (F32.gtb s2 m) eqn:H2
    end;
    match goal with
    | |- context [if F32.gtb s3 ?m then _ else _] =>
        destruct (F32.gtb s3 m) eqn:H3
    end;
    (eexists _, _; split; [reflexivity|]);
    try (left; reflexivity).
  right. split; [reflexivity|]. split; [reflexivity|].
  intros i Hi.
  destruct i as [|[|[|[|i]]]];
    first [exact H0 | exact H1 | exact H2 | exact H3 | lia].
Qed.

(** X19.  In a result that [ml_run_inference] returns with
    [ML_STATUS_OK], the reported confidence is the class score of the
    reported gesture.  The one exception is on the real path when no
    dequantised score is above -1000 (for instance when they are all
    NaN): the result is then [GESTURE_IDLE] with confidence -1000.  On
    the real path the four class scores are the dequantised outputs
    [(output[i] - zero_point) * scale]. *)
Theorem ml_run_inference_confidence (W : Z) (tf : tflite_run)
    (inp : list Z) (res r : inference_result_t) (st st' : ml_state) :
  length (class_scores res) = Z.to_nat GESTURE_COUNT ->
  ml_run_inference W tf (Some inp) (Some res) st
  = (ML_STATUS_OK, st', Some r) ->
  length (class_scores r) = Z.to_nat GESTURE_COUNT
  /\ (use_mock_inference st = false ->
      class_scores r = dequantized tf <$> [0; 1; 2; 3]%nat)
  /\ (class_scores r !! index_of_gesture (gesture r) = Some (confidence r)
      \/ (use_mock_inference st = false
          /\ gesture r = GESTURE_IDLE
          /\ confidence r = F32.lit (-1000) 0
          /\ forall i, (i < 4)%nat ->
               F32.gtb (dequantized tf i) (F32.lit (-1000) 0) = false)).
Proof.
  intros Hlen H. unfold ml_run_inference in H.
  destruct (ml_initialized st); cbn [negb] in H; [|discriminate].
  destruct (use_mock_inference st) eqn:Hm; cbn [negb] in H.
  - unfold mock_scores in H.
    destruct (inference_sequence st mod 50 =? 25);
      [|destruct (inference_sequence st mod 50 =? 35)];
      injection H as _ <-; cbn [class_scores gesture confidence];
      (split; [reflexivity|]); (split; [discriminate|]); left; reflexivity.
  - destruct (invoke_ok tf); cbn [negb] in H; [|discriminate].
    destruct (class_scores res) as [|a [|b [|c [|d [|e l]]]]];
      try discriminate.
    destruct (dequant_loop tf (F32.lit (-1000) 0) a b c d)
      as (best & mx & E & Hbest).
    rewrite E in H. injection H as _ <-.
    cbn [class_scores gesture confidence].
    split; [reflexivity|]. split; [reflexivity|].
    destruct Hbest as [Hb|(-> & -> & Hno)]; [left; exact Hb|].
    right. auto.
Qed.

Lemma ml_run_inference_confidence_witness :
  let W := 50 in
  let tf := timed_run 25000 true in
  let inp := replicate 150 7 in
  let st := snd (ml_inference_init good_model ml_boot) in
  let out := ml_run_inference W tf (Some inp) (Some zero_result) st in
  let r := default zero_result (snd out) in
  gesture r = GESTURE_WAVE
  /\ length (class_scores r) = Z.to_nat GESTURE_COUNT
  /\ (use_mock_inference st = false ->
      class_scores r = dequantized tf <$> [0; 1; 2; 3]%nat)
  /\ (class_scores r !! index_of_gesture (gesture r) = Some (confidence r)
      \/ (use_mock_inference st = false
          /\ gesture r = GESTURE_IDLE
          /\ confidence r = F32.lit (-1000) 0
          /\ forall i, (i < 4)%nat ->
               F32.gtb (dequantized tf i) (F32.lit (-1000) 0) = false)).
Proof.
  intros W tf inp st out r. split; [vm_compute; reflexivity|].
  apply (ml_run_inference_confidence W tf inp zero_result r st
           (snd (fst out))).
  - reflexivity.
  - vm_compute. reflexivity.
Defined.

(** X20.  On the mock path a run always succeeds, whatever the
    interpreter would have answered, and leaves the input tensor alone.
    The gesture it reports follows from the number the result carries:
    [GESTURE_WAVE] for the results numbered 26 modulo 50, [GESTURE_TAP]
    for those numbered 36 modulo 50, [GESTURE_IDLE] for all others, and
    never [GESTURE_CIRCLE]. *)
Theorem ml_mock_gesture_schedule (W : Z) (tf : tflite_run) (inp : list Z)
    (res : inference_result_t) (st : ml_state) :
  ml_initialized st = true ->
  use_mock_inference st = true ->
  0 <= inference_sequence st <= UINT32_MAX ->
  exists st' r,
    ml_run_inference W tf (Some inp) (Some res) st
    = (ML_STATUS_OK, st', Some r)
    /\ input_tensor st' = input_tensor st
    /\ inference_time_us r = inference_time tf
    /\ gesture r
       = (if sequence r mod 50 =? 26 then GESTURE_WAVE
          else if sequence r mod 50 =? 36 then GESTURE_TAP
          else GESTURE_IDLE)
    /\ gesture r <> GESTURE_CIRCLE.
Proof.
  intros Hi Hm Hseq. unfold ml_run_inference. rewrite Hi, Hm. cbn [negb].
  fold (inference_time tf).
  assert (Hg : forall g c sc, mock_scores (inference_sequence st) = (g, c, sc) ->
               g = (if wrap32 (inference_sequence st + 1) mod 50 =? 26
                    then GESTURE_WAVE
                    else if wrap32 (inference_sequence st + 1) mod 50 =? 36
                         then GESTURE_TAP else GESTURE_IDLE)).
  { intros g c sc E. unfold mock_scores in E.
    destruct (Z.eq_dec (inference_sequence st) UINT32_MAX) as [Hmax|Hne].
    - rewrite Hmax in *. vm_compute in E. injection E as <- _ _.
      reflexivity.
    - rewrite wrap32_small by lia.
      destruct (Z.eqb_spec (inference_sequence st mod 50) 25) as [H25|H25].
      + injection E as <- _ _.
        destruct (Z.eqb_spec ((inference_sequence st + 1) mod 50) 26);
          [reflexivity | Z.to_euclidean_division_equations; lia].
      + destruct (Z.eqb_spec (inference_sequence st mod 50) 35) as [H35|H35];
          injection E as <- _ _;
          destruct (Z.eqb_spec ((inference_sequence st + 1) mod 50) 26);
          destruct (Z.eqb_spec ((inference_sequence st + 1) mod 50) 36);
          try reflexivity; Z.to_euclidean_division_equations; lia. }
  destruct (mock_scores (inference_sequence st)) as [[g c] sc] eqn:E.
  eexists _, _. split; [reflexivity|].
  cbn [input_tensor inference_time_us gesture sequence].
  split; [reflexivity|]. split; [reflexivity|].
  rewrite (Hg g c sc eq_refl). split; [reflexivity|].
  destruct (_ =? 26); [discriminate|].
  destruct (_ =? 36); discriminate.
Qed.

Lemma ml_mock_gesture_schedule_witness :
  let W := 50 in
  let tf := timed_run 125000 false in
  let inp := replicate 150 7 in
  let st := Nat.iter 35 (next_inference W)
              (snd (ml_inference_init no_model ml_boot)) in
  inference_sequence st = 35
  /\ exists st' r,
    ml_run_inference W tf (Some inp) (Some zero_result) st
    = (ML_STATUS_OK, st', Some r)
    /\ input_tensor st' = input_tensor st
    /\ inference_time_us r = inference_time tf
    /\ gesture r
       = (if sequence r mod 50 =? 26 then GESTURE_WAVE
          else if sequence r mod 50 =? 36 then GESTURE_TAP
          else GESTURE_IDLE)
    /\ gesture r <> GESTURE_CIRCLE.
Proof.
  intros W tf inp st. split; [vm_compute; reflexivity|].
  apply (ml_mock_gesture_schedule W tf inp zero_result st).
  - vm_compute. reflexivity.
  - vm_compute. reflexivity.
  - vm_compute. split; congruence.
Defined.

(* ===================================================================== *)
(** * mock_accel.c and sensor_hal.c                                       *)
(* ===================================================================== *)

Lemma to_int16_small (v : Z) : -32768 <= v <= 32767 -> to_int16 v = v.
Proof. intros H. unfold to_int16. rewrite Z.mod_small by lia. lia. Qed.

Lemma generate_noise_value (amplitude rand_val : Z) :
  0 <= amplitude <= 32767 ->
  0 <= rand_val <= UINT32_MAX ->
  generate_noise amplitude rand_val
  = rand_val mod (2 * amplitude + 1) - amplitude.
Proof.
  intros Ha Hr. unfold generate_noise, UINT32_MAX in *.
  rewrite (wrap32_small (2 * amplitude + 1)) by (unfold UINT32_MAX; lia).
  pose proof (Z.mod_pos_bound rand_val (2 * amplitude + 1) ltac:(lia)).
  rewrite (to_int32_small (rand_val mod _))
    by (unfold INT32_MIN, INT32_MAX; lia).
  rewrite to_int32_small by (unfold INT32_MIN, INT32_MAX; lia).
  apply to_int16_small. lia.
Qed.

(** X21.  For a non-negative amplitude, [generate_noise] returns
    [rand mod (2 * amplitude + 1) - amplitude]: a value between
    [-amplitude] and [+amplitude], whatever random word the kernel
    supplies, and both ends are reached. *)
Theorem generate_noise_range (amplitude rand_val : Z) :
  0 <= amplitude <= 32767 ->
  0 <= rand_val <= UINT32_MAX ->
  - amplitude <= generate_noise amplitude rand_val <= amplitude
  /\ generate_noise amplitude rand_val
     = rand_val mod (2 * amplitude + 1) - amplitude
  /\ generate_noise amplitude 0 = - amplitude
  /\ generate_noise amplitude (2 * amplitude) = amplitude.
Proof.
  intros Ha Hr.
  rewrite !generate_noise_value by (unfold UINT32_MAX in *; lia).
  pose proof (Z.mod_pos_bound rand_val (2 * amplitude + 1) ltac:(lia)).
  split; [lia|]. split; [reflexivity|].
  rewrite Z.mod_0_l, Z.mod_small by lia. lia.
Qed.

Lemma generate_noise_range_witness :
  let amplitude := NOISE_AMPLITUDE in
  let rand_val := 4294967295 in
  generate_noise amplitude rand_val = -1
  /\ - amplitude <= generate_noise amplitude rand_val <= amplitude
  /\ generate_noise amplitude rand_val
     = rand_val mod (2 * amplitude + 1) - amplitude
  /\ generate_noise amplitude 0 = - amplitude
  /\ generate_noise amplitude (2 * amplitude) = amplitude.
Proof.
  intros amplitude rand_val. split; [reflexivity|].
  apply (generate_noise_range amplitude rand_val).
  - vm_compute. split; congruence.
  - vm_compute. split; congruence.
Defined.

Lemma after_selections_index (n : nat) (st : mock_accel.state) :
  mock_accel.gesture_sequence_index st = 0 ->
  mock_accel.gesture_sequence_index (after_selections n st)
  = Z.of_nat n mod 3.
Proof.
  intros H0. induction n as [|n IH]; [exact H0|].
  change (after_selections (S n) st)
    with (snd (select_next_gesture (after_selections n st))).
  change (mock_accel.gesture_sequence_index
            (snd (select_next_gesture (after_selections n st))))
    with (wrap32 (mock_accel.gesture_sequence_index (after_selections n st)
                  + 1) mod 3).
  rewrite IH.
  pose proof (Z.mod_pos_bound (Z.of_nat n) 3 ltac:(lia)).
  rewrite wrap32_small by (unfold UINT32_MAX; lia).
  rewrite Z.add_mod_idemp_l by lia. f_equal. lia.
Qed.

(** X22.  After [mock_accel_init] the gestures that
    [select_next_gesture] hands out are TAP, CIRCLE, WAVE, TAP, ... in
    that order: the [n]-th further selection returns gesture number
    [1 + (n + 1) mod 3].  The first gesture is a TAP, not a WAVE, and
    [MOCK_GESTURE_IDLE] is never selected. *)
Theorem select_next_gesture_order
    (cfg : sensor_config) (env : sensor_env) (st : mock_accel.state)
    (n : nat) :
  let st0 := snd (mock_accel_init cfg env st) in
  let g := fst (select_next_gesture (after_selections n st0)) in
  g = 1 + (Z.of_nat n + 1) mod 3
  /\ g <> MOCK_GESTURE_IDLE
  /\ fst (select_next_gesture st0) = MOCK_GESTURE_TAP
  /\ fst (select_next_gesture (after_selections 1 st0)) = MOCK_GESTURE_CIRCLE
  /\ fst (select_next_gesture (after_selections 2 st0)) = MOCK_GESTURE_WAVE.
Proof.
  intros st0 g.
  assert (Hg : g = 1 + (Z.of_nat n + 1) mod 3).
  { unfold g, select_next_gesture. cbn [fst].
    rewrite after_selections_index by reflexivity.
    change (wrap32 (MOCK_GESTURE_COUNT - 1)) with 3.
    pose proof (Z.mod_pos_bound (Z.of_nat n) 3 ltac:(lia)).
    pose proof (Z.mod_pos_bound (Z.of_nat n + 1) 3 ltac:(lia)).
    rewrite (wrap32_small (Z.of_nat n mod 3 + 1))
      by (unfold UINT32_MAX; lia).
    rewrite Z.add_mod_idemp_l by lia.
    rewrite wrap32_small by (unfold UINT32_MAX; lia). lia. }
  split; [exact Hg|]. split.
  - rewrite Hg. unfold MOCK_GESTURE_IDLE.
    pose proof (Z.mod_pos_bound (Z.of_nat n + 1) 3 ltac:(lia)). lia.
  - repeat split; reflexivity.
Qed.

Lemma mock_wf_apply (op : mock_op) (st : mock_accel.state) :
  (0 <= mock_accel.gesture_sequence_index st < 3
   /\ (mock_accel.current_gesture st = MOCK_GESTURE_IDLE
       \/ mock_accel.current_gesture st
          = mock_accel.gesture_sequence_index st + 1)) ->
  0 <= mock_accel.gesture_sequence_index (mock_apply op st) < 3
  /\ (mock_accel.current_gesture (mock_apply op st) = MOCK_GESTURE_IDLE
      \/ mock_accel.current_gesture (mock_apply op st)
         = mock_accel.gesture_sequence_index (mock_apply op st) + 1).
Proof.
  intros Hwf. destruct op as [cfg env | cfg m env sample | cfg env];
    cbn [mock_apply].
  - cbn. split; [lia | left; reflexivity].
  - unfold mock_accel_read.
    destruct (mock_accel.mock_initialized st); cbn [negb fst snd];
      [|exact Hwf].
    destruct sample as [smp|]; cbn [fst snd]; [|exact Hwf].
    set (st1 := if _ && _ then _ else st).
    assert (Hwf1 : 0 <= mock_accel.gesture_sequence_index st1 < 3
                   /\ (mock_accel.current_gesture st1 = MOCK_GESTURE_IDLE
                       \/ mock_accel.current_gesture st1
                          = mock_accel.gesture_sequence_index st1 + 1)).
    { unfold st1. destruct (_ && _); [|exact Hwf].
      unfold select_next_gesture.
      cbn [mock_accel.gesture_sequence_index mock_accel.current_gesture].
      change (wrap32 (MOCK_GESTURE_COUNT - 1)) with 3.
      pose proof (Z.mod_pos_bound
                    (wrap32 (mock_accel.gesture_sequence_index st + 1)) 3
                    ltac:(lia)).
      rewrite (wrap32_small (_ mod 3 + 1)) by (unfold UINT32_MAX; lia).
      split; [lia | right; reflexivity]. }
    clearbody st1.
    destruct (_ && _); [|exact Hwf1].
    cbn [mock_accel.gesture_sequence_index mock_accel.current_gesture].
    split; [tauto | left; reflexivity].
  - unfold mock_accel_data_ready.
    destruct (mock_accel.mock_initialized st); cbn [negb snd]; [|exact Hwf].
    destruct (_ <=? _); cbn [snd]; exact Hwf.
Qed.

(** X23.  Whatever calls the mock driver has served since boot, its
    sequence index is 0, 1 or 2, and the current gesture is either
    [MOCK_GESTURE_IDLE] or the gesture numbered one more than the index:
    it is always one of the four gestures, so the [default] branch of
    the switch in [mock_accel_read] is never taken. *)
Theorem mock_accel_invariant (st : mock_accel.state) :
  mock_reachable st ->
  0 <= mock_accel.gesture_sequence_index st < 3
  /\ (mock_accel.current_gesture st = MOCK_GESTURE_IDLE
      \/ mock_accel.current_gesture st
         = mock_accel.gesture_sequence_index st + 1)
  /\ MOCK_GESTURE_IDLE <= mock_accel.current_gesture st < MOCK_GESTURE_COUNT.
Proof.
  intros Hr.
  assert (Hwf : 0 <= mock_accel.gesture_sequence_index st < 3
                /\ (mock_accel.current_gesture st = MOCK_GESTURE_IDLE
                    \/ mock_accel.current_gesture st
                       = mock_accel.gesture_sequence_index st + 1)).
  { induction Hr as [|op st Hr IH].
    - cbn. split; [lia | left; reflexivity].
    - apply mock_wf_apply. exact IH. }
  destruct Hwf as [Hi Hg]. split; [exact Hi|]. split; [exact Hg|].
  unfold MOCK_GESTURE_IDLE, MOCK_GESTURE_COUNT in *. lia.
Qed.

Lemma mock_accel_invariant_witness :
  let cfg := sensor_defaults in
  let st :=
    mock_apply (MockRead cfg flat_libm (env_at 3000 7)
                  (Some accel_sample.zero))
      (mock_apply (MockInit cfg (env_at 0 7)) mock_accel.boot) in
  mock_accel.current_gesture st = MOCK_GESTURE_TAP
  /\ 0 <= mock_accel.gesture_sequence_index st < 3
  /\ (mock_accel.current_gesture st = MOCK_GESTURE_IDLE
      \/ mock_accel.current_gesture st
         = mock_accel.gesture_sequence_index st + 1)
  /\ MOCK_GESTURE_IDLE <= mock_accel.current_gesture st < MOCK_GESTURE_COUNT.
Proof.
  intros cfg st. split; [reflexivity|].
  apply (mock_accel_invariant st).
  unfold st. do 2 apply mock_reach_step. apply mock_reach_boot.
Defined.

Lemma noise_100 (r : Z) :
  0 <= r <= UINT32_MAX ->
  -100 <= generate_noise NOISE_AMPLITUDE r <= 100.
Proof.
  intros Hr. rewrite generate_noise_value
    by (unfold NOISE_AMPLITUDE; lia || exact Hr).
  unfold NOISE_AMPLITUDE.
  pose proof (Z.mod_pos_bound r (2 * 100 + 1) ltac:(lia)). lia.
Qed.

Lemma gravity_noise (r : Z) :
  0 <= r <= UINT32_MAX ->
  8092 <= to_int16 (GRAVITY_OFFSET + generate_noise NOISE_AMPLITUDE r)
       <= 8292.
Proof.
  intros Hr. pose proof (noise_100 r Hr). unfold GRAVITY_OFFSET.
  rewrite to_int16_small; lia.
Qed.

(** An initialised mock driver always delivers. *)
Lemma mock_accel_read_ok (cfg : sensor_config) (m : libm) (env : sensor_env)
    (smp : accel_sample.t) (st : mock_accel.state) :
  mock_accel.mock_initialized st = true ->
  exists st' smp',
    mock_accel_read cfg m env (Some smp) st = (0, st', Some smp')
    /\ mock_accel.mock_initialized st' = true.
Proof.
  intros Hi. unfold mock_accel_read. rewrite Hi. cbn [negb].
  eexists _, _. split; [reflexivity|].
  destruct (_ && _); cbn [mock_accel.mock_initialized];
    destruct (_ && _); cbn [mock_accel.mock_initialized];
    unfold select_next_gesture; cbn [mock_accel.mock_initialized];
    try exact Hi; reflexivity.
Qed.

(** X24.  [mock_accel_read] returns [-ENODEV] before initialisation and
    [-EINVAL] for a null sample, changing nothing.  Otherwise it returns
    0 and never writes the sample's time stamp.  With 32-bit random
    words, an idle sample has X and Y within 100 of zero and Z within
    100 of the gravity offset 8192; the Z axis stays in that band during
    a wave and a circle as well, and X stays within 100 of zero during a
    tap. *)
Theorem mock_accel_read_sample (cfg : sensor_config) (m : libm)
    (env : sensor_env) (smp : accel_sample.t) (st : mock_accel.state) :
  rand_in_range env ->
  (mock_accel.mock_initialized st = false ->
   mock_accel_read cfg m env (Some smp) st = (- ENODEV, st, Some smp))
  /\ (mock_accel.mock_initialized st = true ->
      mock_accel_read cfg m env None st = (- EINVAL, st, None)
      /\ exists st' smp',
           mock_accel_read cfg m env (Some smp) st = (0, st', Some smp')
           /\ accel_sample.timestamp_us smp' = accel_sample.timestamp_us smp
           /\ let g := mock_accel.current_gesture st' in
              (g = MOCK_GESTURE_IDLE ->
               -100 <= accel_sample.x smp' <= 100
               /\ -100 <= accel_sample.y smp' <= 100
               /\ 8092 <= accel_sample.z smp' <= 8292)
              /\ (g = MOCK_GESTURE_WAVE \/ g = MOCK_GESTURE_CIRCLE ->
                  8092 <= accel_sample.z smp' <= 8292)
              /\ (g = MOCK_GESTURE_TAP ->
                  -100 <= accel_sample.x smp' <= 100)).
Proof.
  intros Hrand. split.
  - intros Hi. unfold mock_accel_read. rewrite Hi. reflexivity.
  - intros Hi. split.
    + unfold mock_accel_read. rewrite Hi. reflexivity.
    + unfold mock_accel_read. rewrite Hi. cbn [negb].
      set (st1 := if _ && _ then _ else st).
      set (elapsed_ms := wrap32 _).
      set (st2 := if _ && _ then _ else st1).
      eexists _, _. split; [reflexivity|].
      generalize (mock_accel.current_gesture st2). intros g.
      pose proof (noise_100 _ (Hrand 0%nat)) as Hn0.
      pose proof (noise_100 _ (Hrand 1%nat)) as Hn1.
      pose proof (gravity_noise _ (Hrand 0%nat)) as Hg0.
      pose proof (gravity_noise _ (Hrand 2%nat)) as Hg2.
      split.
      { destruct (g =? MOCK_GESTURE_WAVE); [reflexivity|].
        destruct (g =? MOCK_GESTURE_TAP); [reflexivity|].
        destruct (g =? MOCK_GESTURE_CIRCLE); reflexivity. }
      cbv zeta. unfold MOCK_GESTURE_IDLE, MOCK_GESTURE_WAVE,
        MOCK_GESTURE_TAP, MOCK_GESTURE_CIRCLE.
      split; [|split].
      * intros ->. cbn [Z.eqb Pos.eqb].
        cbn [generate_idle accel_sample.x accel_sample.y accel_sample.z].
        auto.
      * intros [-> | ->]; cbn [Z.eqb Pos.eqb];
          cbn [generate_wave generate_circle accel_sample.z]; exact Hg0.
      * intros ->. cbn [Z.eqb Pos.eqb].
        cbn [generate_tap accel_sample.x]. exact Hn0.
Qed.

Lemma mock_accel_read_sample_witness :
  let cfg := sensor_defaults in
  let env := env_at 3000 4294967295 in
  let st := snd (mock_accel_init cfg (env_at 0 0) mock_accel.boot) in
  let smp := jolt_sample in
  (mock_accel.mock_initialized st = false ->
   mock_accel_read cfg flat_libm env (Some smp) st
   = (- ENODEV, st, Some smp))
  /\ (mock_accel.mock_initialized st = true ->
      mock_accel_read cfg flat_libm env None st = (- EINVAL, st, None)
      /\ exists st' smp',
           mock_accel_read cfg flat_libm env (Some smp) st
           = (0, st', Some smp')
           /\ accel_sample.timestamp_us smp' = accel_sample.timestamp_us smp
           /\ let g := mock_accel.current_gesture st' in
              (g = MOCK_GESTURE_IDLE ->
               -100 <= accel_sample.x smp' <= 100
               /\ -100 <= accel_sample.y smp' <= 100
               /\ 8092 <= accel_sample.z smp' <= 8292)
              /\ (g = MOCK_GESTURE_WAVE \/ g = MOCK_GESTURE_CIRCLE ->
                  8092 <= accel_sample.z smp' <= 8292)
              /\ (g = MOCK_GESTURE_TAP ->
                  -100 <= accel_sample.x smp' <= 100)).
Proof.
  intros cfg env st smp.
  apply (mock_accel_read_sample cfg flat_libm env smp st).
  intros i. vm_compute. split; congruence.
Defined.

Section PacedReads.
Variable cfg : sensor_config.
Variable m : libm.
Variables u0 p : Z.
Hypothesis use_mock : CONFIG_SENSOR_USE_MOCK cfg = true.
Hypothesis u0_pos : 0 < u0.
Hypothesis p_range : 0 < p <= 1000.
Hypothesis no_wrap : (u0 + 100 * p) * 1000 <= UINT32_MAX.

Lemma hal_paced_step (k : Z) (env : sensor_env) (smp : accel_sample.t)
    (st : sensor_hal.state) :
  0 <= k <= 100 ->
  hal_paced u0 p k st ->
  uptime_ms_64 env = u0 + k * p ->
  exists st' smp',
    sensor_hal_read cfg m env (Some smp) st
    = (SENSOR_STATUS_OK, st', Some smp')
    /\ hal_paced u0 p (k + 1) st'
    /\ accel_sample.timestamp_us smp' = (u0 + k * p) * 1000.
Proof.
  intros Hk (Hi & Hmi & Hread & Herr & Hrate & Hlast & Hsum & Hcnt) Hup.
  unfold sensor_hal_read. rewrite Hi, use_mock. cbn [negb].
  destruct (mock_accel_read_ok cfg m env smp (sensor_hal.mock st) Hmi)
    as (mock' & smp' & -> & Hmi').
  cbn [Z.eqb default].
  assert (Hnow : sensor_get_timestamp_us env = (u0 + k * p) * 1000).
  { unfold sensor_get_timestamp_us. rewrite Hup.
    apply wrap32_small. unfold UINT32_MAX in *. nia. }
  rewrite Hnow, Hlast, Hsum, Hcnt, Hrate, Hread.
  assert (H101 : (k =? 101) = false) by (apply Z.eqb_neq; lia).
  rewrite H101, orb_false_r.
  destruct (Z.eqb_spec k 0) as [->|Hk0].
  - cbn [Z.ltb Z.compare].
    eexists _, _. split; [reflexivity|]. split; [|reflexivity].
    unfold hal_paced.
    cbn [sensor_hal.initialized sensor_hal.mock sensor_hal.stats
         sensor_stats.samples_read sensor_stats.read_errors
         sensor_stats.avg_sample_rate_hz sensor_hal.last_sample_time
         sensor_hal.sample_interval_sum sensor_hal.sample_interval_count].
    change (0 + 1 =? 101) with false. change (0 + 1 =? 0) with false.
    cbn [orb]. rewrite wrap32_small by (unfold UINT32_MAX; lia).
    repeat split; try assumption; lia.
  - assert (Hlt : (0 <? (u0 + (k - 1) * p) * 1000) = true)
      by (apply Z.ltb_lt; nia).
    rewrite Hlt.
    assert (Hint : wrap32 ((u0 + k * p) * 1000 - (u0 + (k - 1) * p) * 1000)
                   = 1000 * p)
      by (rewrite wrap32_small; unfold UINT32_MAX; lia).
    rewrite Hint.
    assert (Hs : wrap32 (1000 * p * (k - 1) + 1000 * p) = 1000 * p * k)
      by (rewrite wrap32_small; unfold UINT32_MAX; nia).
    assert (Hc : wrap32 (k - 1 + 1) = k)
      by (rewrite wrap32_small; unfold UINT32_MAX; lia).
    rewrite Hs, Hc.
    destruct (Z.leb_spec 100 k) as [Hfull|Hpart].
    + assert (Hk100 : k = 100) by lia. rewrite !Hk100.
      assert (Havg : 1000 * p * 100 / 100 = 1000 * p)
        by (apply Z.div_mul; lia).
      rewrite Havg.
      assert (Hpos : (0 <? 1000 * p) = true) by (apply Z.ltb_lt; lia).
      rewrite Hpos.
      assert (Hr : 1000000 / (1000 * p) = 1000 / p).
      { change 1000000 with (1000 * 1000).
        apply Z.div_mul_cancel_l; lia. }
      rewrite Hr.
      eexists _, _. split; [reflexivity|]. split; [|reflexivity].
      unfold hal_paced.
      cbn [sensor_hal.initialized sensor_hal.mock sensor_hal.stats
           sensor_stats.samples_read sensor_stats.read_errors
           sensor_stats.avg_sample_rate_hz sensor_hal.last_sample_time
           sensor_hal.sample_interval_sum sensor_hal.sample_interval_count].
      change (100 + 1 =? 101) with true. change (100 + 1 =? 0) with false.
      cbn [orb]. rewrite wrap32_small by (unfold UINT32_MAX; lia).
      repeat split; try assumption; lia.
    + eexists _, _. split; [reflexivity|]. split; [|reflexivity].
      unfold hal_paced.
      cbn [sensor_hal.initialized sensor_hal.mock sensor_hal.stats
           sensor_stats.samples_read sensor_stats.read_errors
           sensor_stats.avg_sample_rate_hz sensor_hal.last_sample_time
           sensor_hal.sample_interval_sum sensor_hal.sample_interval_count].
      assert (H1 : (k + 1 =? 101) = false) by (apply Z.eqb_neq; lia).
      assert (H2 : (k + 1 =? 0) = false) by (apply Z.eqb_neq; lia).
      rewrite H1, H2. cbn [orb].
      rewrite wrap32_small by (unfold UINT32_MAX; lia).
      repeat split; try assumption; lia.
Qed.

Lemma hal_paced_reads (envs : list sensor_env) (k : Z)
    (smp : accel_sample.t) (st : sensor_hal.state) :
  0 <= k ->
  k + Z.of_nat (length envs) <= 101 ->
  hal_paced u0 p k st ->
  (forall i env, envs !! i = Some env ->
     uptime_ms_64 env = u0 + (k + Z.of_nat i) * p) ->
  let out := sensor_reads cfg m envs smp st in
  fst (fst out) = replicate (length envs) SENSOR_STATUS_OK
  /\ hal_paced u0 p (k + Z.of_nat (length envs)) (snd (fst out))
  /\ (envs <> [] ->
      accel_sample.timestamp_us (snd out)
      = (u0 + (k + Z.of_nat (length envs) - 1) * p) * 1000).
Proof.
  revert k smp st.
  induction envs as [|env envs IH]; intros k smp st Hk Hlen Hp Hup out.
  - unfold out. cbn [sensor_reads fst snd length replicate].
    rewrite Z.add_0_r. split; [reflexivity|]. split; [exact Hp|].
    intros H; contradiction H; reflexivity.
  - cbn [length] in Hlen.
    destruct (hal_paced_step k env smp st ltac:(lia) Hp) as
      (st1 & smp1 & E & Hp1 & Hts).
    { rewrite (Hup 0%nat env eq_refl). f_equal. lia. }
    specialize (IH (k + 1) smp1 st1 ltac:(lia) ltac:(lia) Hp1).
    cbv zeta in IH.
    destruct IH as (Hrets & Hpaced & Hlast).
    { intros i env' Hi. rewrite (Hup (S i) env' Hi). f_equal. lia. }
    unfold out. cbn [sensor_reads]. rewrite E. cbn [default from_option id].
    destruct envs as [|env' envs'].
    + cbn [sensor_reads fst snd length replicate] in *.
      split; [reflexivity|]. split.
      * replace (k + Z.of_nat 1) with (k + 1 + Z.of_nat 0) by lia.
        exact Hpaced.
      * intros _. rewrite Hts. f_equal. f_equal. lia.
    + destruct (sensor_reads cfg m (env' :: envs') smp1 st1)
        as [[rets st2] s2].
      cbn [fst snd] in *. split.
      * rewrite Hrets. reflexivity.
      * split.
        -- replace (k + Z.of_nat (length (env :: env' :: envs')))
             with (k + 1 + Z.of_nat (length (env' :: envs')))
             by (cbn [length]; lia).
           exact Hpaced.
        -- intros _. rewrite Hlast by discriminate. f_equal. f_equal.
           cbn [length]. lia.
Qed.
End PacedReads.

Lemma hal_paced_init (cfg : sensor_config) (env0 : sensor_env) (u0 p : Z) :
  CONFIG_SENSOR_USE_MOCK cfg = true ->
  hal_paced u0 p 0 (snd (sensor_hal_init cfg env0 sensor_hal.boot)).
Proof.
  intros Hmock. unfold sensor_hal_init, hal_paced.
  cbn [sensor_hal.boot sensor_hal.initialized]. rewrite Hmock.
  cbn. repeat split.
Qed.

(** X25.  After [sensor_hal_init] at boot with the mock driver, reads
    taken every [p] milliseconds (at most 1000), the first after boot
    time 0 and all before the microsecond clock wraps, all return
    [SENSOR_STATUS_OK]; each sample is stamped with the read's time in
    microseconds and every read is counted.  The reported average rate
    stays 0 for the first 100 reads and becomes [1000 / p] Hz with the
    101st, once 100 intervals have been summed. *)
Theorem sensor_hal_average_rate (cfg : sensor_config) (m : libm)
    (env0 : sensor_env) (envs : list sensor_env) (smp : accel_sample.t)
    (u0 p : Z) :
  CONFIG_SENSOR_USE_MOCK cfg = true ->
  0 < u0 ->
  0 < p <= 1000 ->
  (u0 + 100 * p) * 1000 <= UINT32_MAX ->
  (length envs <= 101)%nat ->
  (forall i env, envs !! i = Some env ->
     uptime_ms_64 env = u0 + Z.of_nat i * p) ->
  let st0 := snd (sensor_hal_init cfg env0 sensor_hal.boot) in
  let out := sensor_reads cfg m envs smp st0 in
  let stats := sensor_hal.stats (snd (fst out)) in
  fst (fst out) = replicate (length envs) SENSOR_STATUS_OK
  /\ sensor_stats.samples_read stats = Z.of_nat (length envs)
  /\ sensor_stats.read_errors stats = 0
  /\ sensor_stats.avg_sample_rate_hz stats
     = (if Z.of_nat (length envs) =? 101 then 1000 / p else 0)
  /\ (envs <> [] ->
      accel_sample.timestamp_us (snd out)
      = (u0 + (Z.of_nat (length envs) - 1) * p) * 1000).
Proof.
  intros Hmock Hu0 Hp Hwrap Hlen Hup st0 out stats.
  destruct (hal_paced_reads cfg m u0 p Hmock Hu0 Hp Hwrap envs 0 smp st0)
    as (Hrets & Hpaced & Hlast).
  - lia.
  - lia.
  - apply hal_paced_init. exact Hmock.
  - intros i env Hi. rewrite (Hup i env Hi). reflexivity.
  - fold out in Hrets, Hpaced, Hlast. rewrite Z.add_0_l in Hpaced, Hlast.
    destruct Hpaced as (_ & _ & Hread & Herr & Hrate & _).
    fold stats in Hread, Herr, Hrate. auto.
Qed.

Lemma sensor_hal_average_rate_witness :
  let cfg := sensor_defaults in
  let envs := (fun i => env_at (5 + 10 * Z.of_nat i) 7) <$> seq 0 101 in
  let st0 := snd (sensor_hal_init cfg (env_at 0 7) sensor_hal.boot) in
  let out := sensor_reads cfg flat_libm envs accel_sample.zero st0 in
  let stats := sensor_hal.stats (snd (fst out)) in
  sensor_stats.avg_sample_rate_hz stats = 100
  /\ fst (fst out) = replicate (length envs) SENSOR_STATUS_OK
  /\ sensor_stats.samples_read stats = Z.of_nat (length envs)
  /\ sensor_stats.read_errors stats = 0
  /\ sensor_stats.avg_sample_rate_hz stats
     = (if Z.of_nat (length envs) =? 101 then 1000 / 10 else 0)
  /\ (envs <> [] ->
      accel_sample.timestamp_us (snd out)
      = (5 + (Z.of_nat (length envs) - 1) * 10) * 1000).
Proof.
  intros cfg envs st0 out stats. split; [vm_compute; reflexivity|].
  apply (sensor_hal_average_rate cfg flat_libm (env_at 0 7) envs
           accel_sample.zero 5 10).
  - reflexivity.
  - lia.
  - lia.
  - unfold UINT32_MAX. lia.
  - unfold envs. rewrite length_fmap, length_seq. lia.
  - intros i env Hi. unfold envs in Hi.
    rewrite list_lookup_fmap in Hi.
    destruct (seq 0 101 !! i) as [j|] eqn:Hj; [|discriminate].
    apply lookup_seq in Hj as [-> _]. injection Hi as <-.
    cbn [env_at uptime_ms_64]. lia.
Defined.

(** X26.  In a build without the mock driver there is no sensor:
    [sensor_hal_init] returns [SENSOR_STATUS_ERROR] and leaves the HAL
    uninitialised, every later [sensor_hal_read] returns
    [SENSOR_STATUS_NOT_INITIALIZED] without touching the sample or
    counting an error, and [sensor_hal_data_ready] is false. *)
Theorem sensor_hal_without_mock (cfg : sensor_config) (m : libm)
    (env0 env : sensor_env) (smp : accel_sample.t) :
  CONFIG_SENSOR_USE_MOCK cfg = false ->
  let st := snd (sensor_hal_init cfg env0 sensor_hal.boot) in
  fst (sensor_hal_init cfg env0 sensor_hal.boot) = SENSOR_STATUS_ERROR
  /\ st = sensor_hal.boot
  /\ sensor_hal_init cfg env st = (SENSOR_STATUS_ERROR, st)
  /\ sensor_hal_read cfg m env (Some smp) st
     = (SENSOR_STATUS_NOT_INITIALIZED, st, Some smp)
  /\ sensor_hal_data_ready cfg env st = (false, st).
Proof.
  intros Hmock st. unfold st, sensor_hal_init.
  cbn [sensor_hal.boot sensor_hal.initialized]. rewrite Hmock.
  cbn [Z.eqb ENOTSUP Z.opp fst snd].
  repeat split.
Qed.

Lemma sensor_hal_without_mock_witness :
  let cfg := real_sensor_build in
  let env0 := env_at 0 7 in
  let env := env_at 10 7 in
  let smp := jolt_sample in
  let st := snd (sensor_hal_init cfg env0 sensor_hal.boot) in
  fst (sensor_hal_init cfg env0 sensor_hal.boot) = SENSOR_STATUS_ERROR
  /\ st = sensor_hal.boot
  /\ sensor_hal_init cfg env st = (SENSOR_STATUS_ERROR, st)
  /\ sensor_hal_read cfg flat_libm env (Some smp) st
     = (SENSOR_STATUS_NOT_INITIALIZED, st, Some smp)
  /\ sensor_hal_data_ready cfg env st = (false, st).
Proof.
  intros cfg env0 env smp st.
  apply (sensor_hal_without_mock cfg flat_libm env0 env smp). reflexivity.
Defined.

(* ===================================================================== *)
(** * The main file: the ML thread                                        *)
(* ===================================================================== *)

(** X27.  One pass of the ML thread that was woken with a window ready
    consumes the window: the ready flag is cleared whether or not the
    inference succeeds.  When the invocation succeeds, exactly one
    result is queued behind the ones already there (the oldest making
    room if the queue was full), numbered one past the sequence counter.
    When it fails, nothing is queued and the window is lost.  A further
    wake-up before the next window completes, and a wait that timed out,
    change nothing. *)
Theorem ml_thread_one_result_per_window (W CAP : Z) (tf tf' : tflite_run)
    (st : ml_thread.state) :
  0 < CAP <= UINT32_MAX ->
  rb_wf CAP (ml_thread.queue st) ->
  ml_initialized (ml_thread.ml st) = true ->
  window_ready (ml_thread.pre st) = true ->
  let st1 := ml_thread_iter W CAP tf 0 st in
  window_ready (ml_thread.pre st1) = false
  /\ (if run_succeeds (use_mock_inference (ml_thread.ml st)) tf then
        rb_contents CAP (ml_thread.queue st1)
        = keep_last (Z.to_nat CAP)
            (rb_contents CAP (ml_thread.queue st) ++ [ml_thread.result st1])
        /\ sequence (ml_thread.result st1)
           = wrap32 (inference_sequence (ml_thread.ml st) + 1)
      else
        ml_thread.queue st1 = ml_thread.queue st
        /\ ml_thread.result st1 = ml_thread.result st
        /\ inference_sequence (ml_thread.ml st1)
           = inference_sequence (ml_thread.ml st))
  /\ ml_thread_iter W CAP tf' 0 st1 = st1
  /\ forall sem_ret, sem_ret <> 0 -> ml_thread_iter W CAP tf sem_ret st = st.
Proof.
  intros HCAP Hwf Hi Hr st1.
  assert (Hst1 : st1 = ml_thread_iter W CAP tf 0 st) by reflexivity.
  unfold ml_thread_iter in Hst1. cbn [Z.eqb] in Hst1.
  rewrite preprocessing_get_input_ok in Hst1 by (lia || exact Hr).
  cbn [Z.eqb default from_option id] in Hst1.
  destruct (ml_run_inference_step W tf
              (snd (fold_left (quantize_step (ml_thread.pre st))
                      (seq 0 (Z.to_nat W)) (0%nat, ml_thread.input_buffer st)))
              (ml_thread.result st) (ml_thread.ml st) Hi)
    as (status & ml' & r & E & _ & _ & Hstep).
  rewrite E in Hst1. cbn [default from_option id] in Hst1.
  assert (Hpre : window_ready (ml_thread.pre st1) = false).
  { rewrite Hst1. destruct status; reflexivity. }
  split; [exact Hpre|]. split; [|split].
  - destruct (run_succeeds _ tf).
    + destruct Hstep as (-> & _ & Hseq & _). rewrite Hst1.
      cbn [ml_thread.queue ml_thread.result].
      split; [|exact Hseq]. apply push_contents; assumption.
    + destruct Hstep as (-> & -> & Hseq & _). rewrite Hst1.
      cbn [ml_thread.queue ml_thread.result ml_thread.ml]. auto.
  - unfold ml_thread_iter. cbn [Z.eqb].
    destruct (preprocessing_get_input_cases W (ml_thread.input_buffer st1)
                (ML_INPUT_SIZE W) (ml_thread.pre st1))
      as [[Hlt _]|[(_ & _ & ->)|(_ & Hrdy & _)]];
      [lia | | congruence].
    cbn [Z.eqb EAGAIN Z.opp default from_option id].
    destruct st1; reflexivity.
  - intros sem_ret Hne. unfold ml_thread_iter.
    destruct (Z.eqb_spec sem_ret 0); [contradiction | reflexivity].
Qed.

Lemma ml_thread_one_result_per_window_witness :
  let W := 2 in
  let CAP := 4 in
  let tf := timed_run 25000 true in
  let tf' := timed_run 50000 true in
  let st :=
    {| ml_thread.pre :=
         snd (add_samples W [jolt_sample; extreme_sample]
                (preprocessing_init W (preprocess_boot W)));
       ml_thread.ml := snd (ml_inference_init no_model ml_boot);
       ml_thread.queue := result_buffer_init CAP;
       ml_thread.input_buffer := replicate 6 0;
       ml_thread.result := zero_result |} in
  let st1 := ml_thread_iter W CAP tf 0 st in
  window_ready (ml_thread.pre st1) = false
  /\ (if run_succeeds (use_mock_inference (ml_thread.ml st)) tf then
        rb_contents CAP (ml_thread.queue st1)
        = keep_last (Z.to_nat CAP)
            (rb_contents CAP (ml_thread.queue st) ++ [ml_thread.result st1])
        /\ sequence (ml_thread.result st1)
           = wrap32 (inference_sequence (ml_thread.ml st) + 1)
      else
        ml_thread.queue st1 = ml_thread.queue st
        /\ ml_thread.result st1 = ml_thread.result st
        /\ inference_sequence (ml_thread.ml st1)
           = inference_sequence (ml_thread.ml st))
  /\ ml_thread_iter W CAP tf' 0 st1 = st1
  /\ forall sem_ret, sem_ret <> 0 -> ml_thread_iter W CAP tf sem_ret st = st.
Proof.
  intros W CAP tf tf' st st1.
  apply (ml_thread_one_result_per_window W CAP tf tf' st).
  - unfold CAP, UINT32_MAX. lia.
  - apply rb_wf_init. unfold CAP, UINT32_MAX. lia.
  - reflexivity.
  - vm_compute. reflexivity.
Defined.

(* ===================================================================== *)
(** * The main file: the debug thread                                     *)
(* ===================================================================== *)

(** X28.  One pass of the debug thread on a monitor reached from boot.
    Once the monitor is initialised the pass reports [-ENOSPC] exactly
    when some registered thread is above the threshold, and the snapshot
    it then takes already counts the warnings raised by this pass.
    Before initialisation the check returns [-EINVAL], yet the snapshot
    is taken all the same and reports the unchanged warning counter. *)
Theorem debug_thread_pass (cfg : build_config) (k1 k2 : kernel)
    (stats : debug_stats_t) (st : monitor_state) :
  monitor_reachable st ->
  let raised :=
    warnings_raised cfg k1 (monitored st) (Z.to_nat (monitored_count st)) in
  let out := debug_thread_iter cfg k1 k2 stats st in
  let check_result := fst (fst out) in
  let st' := snd (fst out) in
  let snap := snd out in
  uptime_ms snap = k_uptime_get_32 k2
  /\ stack_warnings snap = total_stack_warnings st'
  /\ monitored_count st' = monitored_count st
  /\ (monitor_initialized st = true ->
      check_result = (if 0 <? raised then - ENOSPC else 0)
      /\ stack_warnings snap = wrap32 (total_stack_warnings st + raised))
  /\ (monitor_initialized st = false ->
      check_result = - EINVAL
      /\ stack_warnings snap = total_stack_warnings st).
Proof.
  intros Hr raised out check_result st' snap.
  destruct (monitor_reachable_wf st Hr) as (Hlen & Hcnt & Htot & _).
  unfold check_result, st', snap, out, debug_thread_iter.
  destruct (debug_monitor_check cfg k1 st) as [ret st1] eqn:Echeck.
  destruct (debug_monitor_get_stats_some cfg k2 stats st1)
    as (s & ct & cc & -> & Hw & Hup & _).
  cbn [fst snd default from_option id total_stack_warnings monitored_count].
  assert (Hst1 : monitored_count st1 = monitored_count st
                 /\ (monitor_initialized st = true ->
                     ret = (if 0 <? raised then - ENOSPC else 0)
                     /\ total_stack_warnings st1
                        = wrap32 (total_stack_warnings st + raised))
                 /\ (monitor_initialized st = false ->
                     ret = - EINVAL
                     /\ total_stack_warnings st1 = total_stack_warnings st)).
  { unfold debug_monitor_check in Echeck.
    destruct (monitor_initialized st); cbn [negb] in Echeck.
    - rewrite check_loop_both in Echeck
        by (unfold MAX_MONITORED_THREADS, INT32_MAX in *; lia).
      fold raised in Echeck. injection Echeck as <- <-.
      cbn [monitored_count total_stack_warnings].
      split; [reflexivity|]. split; [auto | discriminate].
    - injection Echeck as <- <-.
      split; [reflexivity|]. split; [discriminate | auto]. }
  destruct Hst1 as (Hc & Hinit & Huninit).
  split; [exact Hup|]. split; [exact Hw|]. split; [exact Hc|].
  rewrite Hw. split; assumption.
Qed.

Lemma debug_thread_pass_witness :
  let cfg := stack_info_build in
  let k1 := kernel_with 100 1000 in
  let k2 := kernel_with 4000 1000 in
  let st := two_threads_registered in
  let raised :=
    warnings_raised cfg k1 (monitored st) (Z.to_nat (monitored_count st)) in
  let out := debug_thread_iter cfg k1 k2 zero_stats st in
  let check_result := fst (fst out) in
  let st' := snd (fst out) in
  let snap := snd out in
  (raised, check_result, stack_warnings snap) = (1, - ENOSPC, 1)
  /\ uptime_ms snap = k_uptime_get_32 k2
  /\ stack_warnings snap = total_stack_warnings st'
  /\ monitored_count st' = monitored_count st
  /\ (monitor_initialized st = true ->
      check_result = (if 0 <? raised then - ENOSPC else 0)
      /\ stack_warnings snap = wrap32 (total_stack_warnings st + raised))
  /\ (monitor_initialized st = false ->
      check_result = - EINVAL
      /\ stack_warnings snap = total_stack_warnings st).
Proof.
  intros cfg k1 k2 st raised out check_result st' snap.
  split; [vm_compute; reflexivity|].
  apply (debug_thread_pass cfg k1 k2 zero_stats st).
  unfold st, two_threads_registered.
  exact (monitor_reach_step (MonRegister (Some 2) (Some "sensor"%string)) _
           (monitor_reach_step
              (MonRegister (Some 1) (Some "ml_thread"%string)) _
              (monitor_reach_step (MonInit (kernel_with 4000 1000)) _
                 monitor_reach_boot))).
Defined.
